(** * konva-selection: selection set, marquee and transform decomposition

    A shallow embedding of the selection controller [KonvaSelection], of
    its geometry helpers [decompose], [haveIntersection] and [reverse],
    and of what the page around it does with them: the wheel zoom of the
    stage, the handlers of the context menu and [Util.requestAnimFrame].

    Conventions of the embedding.
    - A JavaScript [number] that carries a coordinate, a length or a matrix
      entry is a real number: rounding, [NaN] and the infinities of IEEE
      doubles are not represented.
    - A Konva node is an object with a unique [_id], allocated by the
      renderer from a global counter.  Object identity ([===]) therefore
      coincides with equality of [_id], and a reference to a node is the
      [_id] itself ([NodeRef]).  The attributes of the nodes live in a
      store shared by everybody who holds a reference.
    - Calls into the renderer that only repaint ([draw], [batchDraw],
      [forceUpdate]) leave the state unchanged and are omitted.
    - A property read on [null] or [undefined] raises a [TypeError].  A
      call of the controller that raises ends as [Raised s], where [s] is
      the state that it has reached: the assignments made before the
      failure stay, and the page goes on from there with the next event.
      In the handlers of the context menu, where the one read that can
      fail comes before any assignment, the failure is [None].
    - Konva itself is not part of the source.  From its behaviour the
      embedding takes this: [Transformer.attachTo] detaches the
      transformer from its node and then raises a [TypeError] when its
      argument is [undefined]; [add] appends a node that has no parent
      and leaves a node that is already a child of the container where
      it is; [destroy] removes the node from its parent; [clone] and
      [new] take the next [_id].
    - The [transform] handler of the transformer (which writes the result
      of [decompose] back to the nodes through Konva's absolute
      transforms) and the construction of the DOM of the context menu
      are left out. *)

From Stdlib Require Import Reals Lra Lia List ZArith String Bool.
Import ListNotations.

Open Scope R_scope.

(** ** Numbers *)

(** The comparison operators of the source, as booleans. *)
Definition Rgtb (u v : R) : bool := if Rgt_dec u v then true else false.
Definition Rltb (u v : R) : bool := if Rlt_dec u v then true else false.
Definition Rneqb (u v : R) : bool := if Req_dec_T u v then false else true.

(** ** Geometry *)

Module Vector2d.
Record t : Type := mk { x : R; y : R }.
End Vector2d.

Module IRect.
Record t : Type := mk { x : R; y : R; width : R; height : R }.
End IRect.

(** The six entries [mat[0]] .. [mat[5]] of the array returned by
    [getAbsoluteTransform().getMatrix()]. *)
Module Matrix.
Record t : Type := mk { m0 : R; m1 : R; m2 : R; m3 : R; m4 : R; m5 : R }.
End Matrix.

(** What [decompose] reads from its reference frame: the results of
    [layer.getAbsolutePosition()] and [layer.getAbsoluteScale()]. *)
Module Layer.
Record t : Type := mk { getAbsolutePosition : Vector2d.t;
                        getAbsoluteScale : Vector2d.t }.
End Layer.

(** The object literal built and returned by [decompose]. *)
Module Decomposed.
Record t : Type := mk {
  x : R; y : R; rotation : R;
  scaleX : R; scaleY : R; skewX : R; skewY : R }.

Definition set_rotation (v : R) (r : t) : t :=
  mk (x r) (y r) v (scaleX r) (scaleY r) (skewX r) (skewY r).
Definition set_scaleX (v : R) (r : t) : t :=
  mk (x r) (y r) (rotation r) v (scaleY r) (skewX r) (skewY r).
Definition set_scaleY (v : R) (r : t) : t :=
  mk (x r) (y r) (rotation r) (scaleX r) v (skewX r) (skewY r).
Definition set_skewX (v : R) (r : t) : t :=
  mk (x r) (y r) (rotation r) (scaleX r) (scaleY r) v (skewY r).
Definition set_skewY (v : R) (r : t) : t :=
  mk (x r) (y r) (rotation r) (scaleX r) (scaleY r) (skewX r) v.
End Decomposed.

(** [var delta = a * d - b * c]. *)
Definition delta (mat : Matrix.t) : R :=
  Matrix.m0 mat * Matrix.m3 mat - Matrix.m1 mat * Matrix.m2 mat.

Definition decompose (mat : Matrix.t) (layer : Layer.t) : Decomposed.t :=
  let a := Matrix.m0 mat in
  let b := Matrix.m1 mat in
  let c := Matrix.m2 mat in
  let d := Matrix.m3 mat in
  let e := Matrix.m4 mat in
  let f := Matrix.m5 mat in
  let position := Layer.getAbsolutePosition layer in
  let scale := Layer.getAbsoluteScale layer in
  let result :=
    Decomposed.mk ((e - Vector2d.x position) / Vector2d.x scale)
                  ((f - Vector2d.y position) / Vector2d.y scale)
                  0 0 0 0 0 in
  let result :=
    if Rneqb a 0 || Rneqb b 0 then
      let r := sqrt (a * a + b * b) in
      let result :=
        Decomposed.set_rotation
          (if Rgtb b 0 then acos (a / r) else - acos (a / r)) result in
      let result := Decomposed.set_scaleX (r / Vector2d.x scale) result in
      let result :=
        Decomposed.set_scaleY (delta mat / r / Vector2d.y scale) result in
      Decomposed.set_skewX (atan ((a * c + b * d) / (r * r))) result
    else if Rneqb c 0 || Rneqb d 0 then
      let s := sqrt (c * c + d * d) in
      let result :=
        Decomposed.set_rotation
          (PI / 2 - (if Rgtb d 0 then acos (- c / s) else - acos (c / s)))
          result in
      let result :=
        Decomposed.set_scaleX (delta mat / s / Vector2d.x scale) result in
      let result := Decomposed.set_scaleY (s / Vector2d.y scale) result in
      let result := Decomposed.set_skewX 0 result in
      Decomposed.set_skewY (atan ((a * c + b * d) / (s * s))) result
    else result in
  Decomposed.set_rotation (Decomposed.rotation result * (180 / PI)) result.

Definition haveIntersection (r1 r2 : IRect.t) : bool :=
  negb (Rgtb (IRect.x r2) (IRect.x r1 + IRect.width r1)
        || Rltb (IRect.x r2 + IRect.width r2) (IRect.x r1)
        || Rgtb (IRect.y r2) (IRect.y r1 + IRect.height r1)
        || Rltb (IRect.y r2 + IRect.height r2) (IRect.y r1)).

(** The object [{x1, y1, x2, y2}] returned by [reverse]. *)
Module DragRect.
Record t : Type := mk { x1 : R; y1 : R; x2 : R; y2 : R }.
End DragRect.

Definition reverse (r1 r2 : Vector2d.t) : DragRect.t :=
  let r1x := Vector2d.x r1 in
  let r1y := Vector2d.y r1 in
  let r2x := Vector2d.x r2 in
  let r2y := Vector2d.y r2 in
  let '(r1x, r2x) :=
    if Rgtb r1x r2x then
      let d := Rabs (r1x - r2x) in
      let r1x := r2x in
      (r1x, r1x + d)
    else (r1x, r2x) in
  let '(r1y, r2y) :=
    if Rgtb r1y r2y then
      let d := Rabs (r1y - r2y) in
      let r1y := r2y in
      (r1y, r1y + d)
    else (r1y, r2y) in
  DragRect.mk r1x r1y r2x r2y.

(** ** The scene graph of the renderer *)

(** A reference to a Konva node: the node's [_id]. *)
Definition NodeRef : Type := Z.
Definition _id (node : NodeRef) : Z := node.

(** The attributes of a node that the controller reads or writes.
    [name] holds the names of the node (Konva splits the attribute at
    blanks), [id] is [None] when the node has no id, and [originalIndex]
    is the back-reference that [createBounding] writes on a clone. *)
Module Attrs.
Record t : Type := mk {
  name : list string;
  id : option string;
  x : R; y : R; width : R; height : R;
  visible : bool;
  originalIndex : option Z }.

(** The attributes of a node created without a configuration. *)
Definition empty : t := mk [] None 0 0 0 0 true None.

Definition hasName (n : string) (a : t) : bool :=
  existsb (String.eqb n) (name a).

Definition position (a : t) : Vector2d.t := Vector2d.mk (x a) (y a).

Definition setPosition (p : Vector2d.t) (a : t) : t :=
  mk (name a) (id a) (Vector2d.x p) (Vector2d.y p) (width a) (height a)
     (visible a) (originalIndex a).

(** [node.move(change)]: the position is shifted by [change]. *)
Definition move (change : Vector2d.t) (a : t) : t :=
  mk (name a) (id a) (x a + Vector2d.x change) (y a + Vector2d.y change)
     (width a) (height a) (visible a) (originalIndex a).

Definition setVisible (v : bool) (a : t) : t :=
  mk (name a) (id a) (x a) (y a) (width a) (height a) v (originalIndex a).

Definition setOriginalIndex (i : Z) (a : t) : t :=
  mk (name a) (id a) (x a) (y a) (width a) (height a) (visible a) (Some i).

(** [setAttrs({x, y, width, height, visible: true})]. *)
Definition setBox (bx by_ bw bh : R) (a : t) : t :=
  mk (name a) (id a) bx by_ bw bh true (originalIndex a).
End Attrs.

Definition upd {A : Type} (f : Z -> A) (k : Z) (v : A) : Z -> A :=
  fun k' => if Z.eqb k' k then v else f k'.

(** The part of the renderer's state that the controller touches: the
    counter from which Konva takes the [_id] of a new node, the
    attributes of every node, and the children of the working layer
    ([layer1], which is also the [layer] of the one controller that the
    source constructs).  The select box is added to the enclosing
    [Konva.Layer], whose list of children no operation below reads. *)
Module Scene.
Record t : Type := mk {
  idCounter : Z;
  attrs : NodeRef -> Attrs.t;
  children : list NodeRef }.

(** [new Konva.X(config)]: the next [_id] is taken. *)
Definition create (a : Attrs.t) (sc : t) : NodeRef * t :=
  (idCounter sc,
   mk (idCounter sc + 1)%Z (upd (attrs sc) (idCounter sc) a) (children sc)).

(** [layer.add(node)]. *)
Definition add (node : NodeRef) (sc : t) : t :=
  mk (idCounter sc) (attrs sc) (children sc ++ [node]).

(** [node.destroy()]: the node leaves its parent. *)
Definition destroy (node : NodeRef) (sc : t) : t :=
  mk (idCounter sc) (attrs sc)
     (filter (fun c => negb (Z.eqb c node)) (children sc)).

Definition setAttrs (node : NodeRef) (f : Attrs.t -> Attrs.t) (sc : t) : t :=
  mk (idCounter sc) (upd (attrs sc) node (f (attrs sc node))) (children sc).

(** [node.clone()]: a new node with a copy of the attributes. *)
Definition clone (node : NodeRef) (sc : t) : NodeRef * t :=
  create (attrs sc node) sc.
End Scene.

(** ** [Map<number, V>] *)

(** A JavaScript [Map] with numeric keys, in insertion order. *)
Module JsMap.
Definition t (V : Type) : Type := list (Z * V).

Section Ops.
Context {V : Type}.

Definition has (k : Z) (m : t V) : bool :=
  existsb (fun e => Z.eqb (fst e) k) m.

Fixpoint get (k : Z) (m : t V) : option V :=
  match m with
  | [] => None
  | (k', v) :: m' => if Z.eqb k' k then Some v else get k m'
  end.

(** [set] keeps the position of a key that is already present. *)
Definition set (k : Z) (v : V) (m : t V) : t V :=
  if has k m
  then map (fun e => if Z.eqb (fst e) k then (k, v) else e) m
  else m ++ [(k, v)].

Definition delete (k : Z) (m : t V) : t V :=
  filter (fun e => negb (Z.eqb (fst e) k)) m.

Definition clear (m : t V) : t V := [].

Definition size (m : t V) : nat := List.length m.

Definition values (m : t V) : list V := map snd m.

Definition keys (m : t V) : list Z := map fst m.

(** [m.values().next().value]; [None] stands for [undefined]. *)
Definition first (m : t V) : option V := hd_error (values m).
End Ops.
End JsMap.

(** ** How a call ends *)

(** A call returns, or it raises a [TypeError].  Either way it leaves a
    state behind. *)
Inductive Outcome (A : Type) : Type :=
| Returned (a : A)
| Raised (a : A).

Arguments Returned {A} a.
Arguments Raised {A} a.

Definition stateOf {A : Type} (o : Outcome A) : A :=
  match o with
  | Returned a => a
  | Raised a => a
  end.

(** [o; f]: what follows a call that raised does not run. *)
Definition andThen {A : Type} (o : Outcome A) (f : A -> Outcome A)
    : Outcome A :=
  match o with
  | Returned a => f a
  | Raised a => Raised a
  end.

(** The outcome of a call seen from the object that holds the callee. *)
Definition within {A B : Type} (f : A -> B) (o : Outcome A) : Outcome B :=
  match o with
  | Returned a => Returned (f a)
  | Raised a => Raised (f a)
  end.

(** ** The selection controller *)

(** A [Konva.Transformer]: its own node and the node it is attached to;
    [None] stands for [undefined]. *)
Module Transformer.
Record t : Type := mk { ref : NodeRef; _node : option NodeRef }.

(** [attachTo(node)] detaches the transformer, takes [node] as its node
    and then reads from it: with [undefined] this read raises, and the
    transformer is left without a node. *)
Definition attachTo (node : option NodeRef) (tr : t) : Outcome t :=
  match node with
  | Some _ => Returned (mk (ref tr) node)
  | None => Raised (mk (ref tr) None)
  end.
End Transformer.

(** The bounding [Konva.Group] and the clones added to it. *)
Module Group.
Record t : Type := mk { ref : NodeRef; children : list NodeRef }.
End Group.

Module SelectAttrs.
Record t : Type := mk {
  posStart : option Vector2d.t;
  posNow : option Vector2d.t;
  select : bool }.
End SelectAttrs.

(** The optional second argument of the constructor. *)
Inductive NodesArg : Type :=
| Undefined
| NotAnArray
| ArrayOf (nodes : list NodeRef).

(** The target of a pointer event: the stage itself or a node.  The stage
    is created without a name, so [stage.hasName('entity')] is false. *)
Inductive EventTarget : Type :=
| OnStage
| OnNode (node : NodeRef).

(** The options of [getClientRect]. *)
Module ClientRectConfig.
Record t : Type := mk { skipStroke : bool; skipShadow : bool }.
Definition default : t := mk false false.
End ClientRectConfig.

Module KonvaSelection.

(** The fields of the class together with the scene it acts on.
    [selectionChange] is the sequence of values pushed through
    [selectionChange$]; a subscriber is called synchronously inside
    [next] and sees the map as it is at that moment. *)
Record t : Type := mk {
  scene : Scene.t;
  selectionChange : list (JsMap.t NodeRef);
  bounding : option Group.t;
  selectBox : option NodeRef;
  oldPosition : option Vector2d.t;
  selectAttrs : SelectAttrs.t;
  nodes : JsMap.t NodeRef;
  transformer : option Transformer.t }.

Definition with_scene (v : Scene.t) (s : t) : t :=
  mk v (selectionChange s) (bounding s) (selectBox s) (oldPosition s)
     (selectAttrs s) (nodes s) (transformer s).
Definition with_selectionChange (v : list (JsMap.t NodeRef)) (s : t) : t :=
  mk (scene s) v (bounding s) (selectBox s) (oldPosition s)
     (selectAttrs s) (nodes s) (transformer s).
Definition with_bounding (v : option Group.t) (s : t) : t :=
  mk (scene s) (selectionChange s) v (selectBox s) (oldPosition s)
     (selectAttrs s) (nodes s) (transformer s).
Definition with_selectBox (v : option NodeRef) (s : t) : t :=
  mk (scene s) (selectionChange s) (bounding s) v (oldPosition s)
     (selectAttrs s) (nodes s) (transformer s).
Definition with_oldPosition (v : option Vector2d.t) (s : t) : t :=
  mk (scene s) (selectionChange s) (bounding s) (selectBox s) v
     (selectAttrs s) (nodes s) (transformer s).
Definition with_selectAttrs (v : SelectAttrs.t) (s : t) : t :=
  mk (scene s) (selectionChange s) (bounding s) (selectBox s)
     (oldPosition s) v (nodes s) (transformer s).
Definition with_nodes (v : JsMap.t NodeRef) (s : t) : t :=
  mk (scene s) (selectionChange s) (bounding s) (selectBox s)
     (oldPosition s) (selectAttrs s) v (transformer s).
Definition with_transformer (v : option Transformer.t) (s : t) : t :=
  mk (scene s) (selectionChange s) (bounding s) (selectBox s)
     (oldPosition s) (selectAttrs s) (nodes s) v.

(** [new KonvaSelection(layer, nodes)] on the scene [sc].
    [initializeEvent] only registers the handlers below. *)
Definition constructor (sc : Scene.t) (arg : NodesArg) : t :=
  let this :=
    mk sc [] None None None (SelectAttrs.mk None None false) [] None in
  match arg with
  | ArrayOf l =>
      fold_left
        (fun this node =>
           with_nodes (JsMap.set (_id node) node (nodes this)) this)
        l this
  | _ => this
  end.

(** [this.selectionChange$.next(this.nodes)]. *)
Definition next (s : t) : t :=
  with_selectionChange (selectionChange s ++ [nodes s]) s.

Definition isGroup (s : t) : bool := (1 <? JsMap.size (nodes s))%nat.

(** The body of the [forEach] of [createBounding]: the node is cloned,
    the clone gets the [originalIndex] and joins the group. *)
Definition addClone (acc : list NodeRef * Scene.t) (node : NodeRef)
    : list NodeRef * Scene.t :=
  let '(clones, sc) := acc in
  let '(clone, sc) := Scene.clone node sc in
  let sc := Scene.setAttrs clone (Attrs.setOriginalIndex (_id node)) sc in
  (clones ++ [clone], sc).

Definition createBounding (s : t) : NodeRef * t :=
  let s :=
    match bounding s with
    | Some b => with_scene (Scene.destroy (Group.ref b) (scene s)) s
    | None => s
    end in
  let '(g, sc) := Scene.create Attrs.empty (scene s) in
  let '(clones, sc) :=
    fold_left addClone (JsMap.values (nodes s)) ([], sc) in
  let sc := Scene.setAttrs g (Attrs.setVisible false) sc in
  let sc := Scene.add g sc in
  (g, with_bounding (Some (Group.mk g clones)) (with_scene sc s)).

Definition createTransformer (s : t) : NodeRef * t :=
  let '(tr, sc) := Scene.create Attrs.empty (scene s) in
  (tr, with_transformer (Some (Transformer.mk tr None)) (with_scene sc s)).

(** The argument of [attachTo] is evaluated first, so the bounding
    group is made before the transformer is attached to it. *)
Definition updateTransformer (s : t) : Outcome t :=
  match transformer s with
  | None => Returned s
  | Some tr =>
      if negb (isGroup s) then
        within (fun tr => with_transformer (Some tr) s)
               (Transformer.attachTo (JsMap.first (nodes s)) tr)
      else
        let '(g, s) := createBounding s in
        within (fun tr => with_transformer (Some tr) s)
               (Transformer.attachTo (Some g) tr)
  end.

Definition add (node : NodeRef) (s : t) : Outcome t :=
  if negb (JsMap.has (_id node) (nodes s)) then
    let s := with_nodes (JsMap.set (_id node) node (nodes s)) s in
    let s := next s in
    let s :=
      match transformer s with
      | None =>
          let '(tr, s) := createTransformer s in
          with_scene (Scene.add tr (scene s)) s
      | Some _ => s
      end in
    updateTransformer s
  else Returned s.

Definition remove (node : NodeRef) (s : t) : Outcome t :=
  let s := with_nodes (JsMap.delete (_id node) (nodes s)) s in
  let s := next s in
  match transformer s with
  | Some _ => updateTransformer s
  | None => Returned s
  end.

Definition clear (s : t) : t :=
  let s :=
    match transformer s with
    | Some tr =>
        with_transformer None
          (with_scene (Scene.destroy (Transformer.ref tr) (scene s)) s)
    | None => s
    end in
  with_nodes (JsMap.clear (nodes s)) s.

(** [new Konva.Rect({x: 0, y: 0, width: 0, height: 0, ...,
    id: 'selectBox'})]. *)
Definition createSelectBox (s : t) : NodeRef * t :=
  let '(box, sc) :=
    Scene.create (Attrs.mk [] (Some "selectBox"%string) 0 0 0 0 true None)
                 (scene s) in
  (box, with_selectBox (Some box) (with_scene sc s)).

(** [this.selectBox.destroy()] takes the box out of the enclosing
    [Konva.Layer]; the children of the working layer are not touched.
    Without a select box the call raises, after the flag is cleared. *)
Definition destroySelectBox (s : t) : Outcome t :=
  if SelectAttrs.select (selectAttrs s) then
    let s :=
      with_selectAttrs
        (SelectAttrs.mk (SelectAttrs.posStart (selectAttrs s))
                        (SelectAttrs.posNow (selectAttrs s)) false) s in
    match selectBox s with
    | Some _ => Returned (with_selectBox None s)
    | None => Raised s
    end
  else Returned s.

Definition startDrag (posIn : Vector2d.t) (s : t) : t :=
  with_selectAttrs
    (SelectAttrs.mk
       (Some (Vector2d.mk (Vector2d.x posIn) (Vector2d.y posIn)))
       (Some (Vector2d.mk (Vector2d.x posIn) (Vector2d.y posIn)))
       (SelectAttrs.select (selectAttrs s))) s.

(** *** The handlers registered by [initializeEvent] *)

(** [dragstart]: [this.oldPosition = e.target.position()]. *)
Definition dragstart (target : NodeRef) (s : t) : t :=
  with_oldPosition
    (Some (Attrs.position (Scene.attrs (scene s) target))) s.

Definition dragmove (target : NodeRef) (s : t) : Outcome t :=
  match oldPosition s with
  | None => Raised s
  | Some old =>
      let diffPos :=
        Vector2d.mk
          (Attrs.x (Scene.attrs (scene s) target) - Vector2d.x old)
          (Attrs.y (Scene.attrs (scene s) target) - Vector2d.y old) in
      let s :=
        fold_left
          (fun s child =>
             if Z.eqb child target then s
             else
               with_scene
                 (Scene.setAttrs child (Attrs.move diffPos) (scene s)) s)
          (JsMap.values (nodes s)) s in
      let s :=
        with_oldPosition
          (Some (Attrs.position (Scene.attrs (scene s) target))) s in
      updateTransformer s
  end.

(** [mousedown]; [pointer] is the value of
    [getRelativePointerPosition(this.layer.getLayer())].  A new select
    box is added to the enclosing [Konva.Layer]. *)
Definition mousedown (target : EventTarget) (shiftKey : bool)
    (pointer : Vector2d.t) (s : t) : Outcome t :=
  let s :=
    match target with
    | OnStage =>
        let s := clear s in
        let s :=
          with_selectAttrs
            (SelectAttrs.mk (SelectAttrs.posStart (selectAttrs s))
                            (SelectAttrs.posNow (selectAttrs s)) true) s in
        let s :=
          match selectBox s with
          | None => snd (createSelectBox s)
          | Some _ => s
          end in
        startDrag pointer s
    | OnNode _ => s
    end in
  match target with
  | OnNode node =>
      if Attrs.hasName "entity" (Scene.attrs (scene s) node) then
        let s :=
          if negb shiftKey && negb (JsMap.has (_id node) (nodes s))
          then clear s else s in
        add node s
      else Returned s
  | OnStage => Returned s
  end.

Definition mouseup (s : t) : Outcome t := destroySelectBox s.

Definition wheel (s : t) : Outcome t := updateTransformer s.

(** The renderer drags [target] to [p] and fires [dragmove]. *)
Definition dragFrame (target : NodeRef) (p : Vector2d.t) (s : t)
    : Outcome t :=
  dragmove target
    (with_scene (Scene.setAttrs target (Attrs.setPosition p) (scene s)) s).

(** A whole drag of [target]: [dragstart], then one [dragmove] for
    each position in [frames], each from the state that the one before
    has left. *)
Definition drag (target : NodeRef) (frames : list Vector2d.t) (s : t)
    : Outcome t :=
  fold_left (fun o p => dragFrame target p (stateOf o))
            frames (Returned (dragstart target s)).

Section Renderer.

(** [node.getClientRect(config)], computed by the renderer from the
    node and its attributes. *)
Variable getClientRect :
  ClientRectConfig.t -> NodeRef -> Attrs.t -> IRect.t.

Definition clientRect (config : ClientRectConfig.t) (node : NodeRef)
    (s : t) : IRect.t :=
  getClientRect config node (Scene.attrs (scene s) node).

(** The body of the collision check loop of [updateDrag]. *)
Definition collisionCheck (selectBoxRect : IRect.t) (s : t)
    (node : NodeRef) : Outcome t :=
  if haveIntersection (clientRect ClientRectConfig.default node s)
                      selectBoxRect
     && Attrs.hasName "entity" (Scene.attrs (scene s) node)
  then add node s
  else remove node s.

(** The collision check loop: an iteration that raises ends it. *)
Definition collisionLoop (selectBoxRect : IRect.t) (nodes : list NodeRef)
    (s : t) : Outcome t :=
  fold_left
    (fun o node => andThen o (fun s => collisionCheck selectBoxRect s node))
    nodes (Returned s).

Definition updateDrag (posIn : Vector2d.t) (s : t) : Outcome t :=
  let s :=
    with_selectAttrs
      (SelectAttrs.mk
         (SelectAttrs.posStart (selectAttrs s))
         (Some (Vector2d.mk (Vector2d.x posIn) (Vector2d.y posIn)))
         (SelectAttrs.select (selectAttrs s))) s in
  match SelectAttrs.posStart (selectAttrs s), selectBox s with
  | Some posStart, Some box =>
      let posRect := reverse posStart posIn in
      let s :=
        with_scene
          (Scene.setAttrs box
             (Attrs.setBox
                (DragRect.x1 posRect) (DragRect.y1 posRect)
                (DragRect.x2 posRect - DragRect.x1 posRect)
                (DragRect.y2 posRect - DragRect.y1 posRect))
             (scene s)) s in
      let nodes :=
        filter
          (fun n =>
             match Attrs.id (Scene.attrs (scene s) n) with
             | Some i => negb (String.eqb i "selectBox")
             | None => true
             end)
          (Scene.children (scene s)) in
      let selectBoxRect :=
        clientRect (ClientRectConfig.mk true true) box s in
      collisionLoop selectBoxRect nodes s
  | _, _ => Raised s
  end.

Definition mousemove (pointer : Vector2d.t) (s : t) : Outcome t :=
  if SelectAttrs.select (selectAttrs s) then updateDrag pointer s
  else Returned s.

(** A marquee gesture: [mousedown] on the stage at [p0], then one
    [mousemove] for each pointer position in [moves], each from the
    state that the event before has left.  The outcome is that of the
    last event. *)
Definition marquee (p0 : Vector2d.t) (moves : list Vector2d.t) (s : t)
    : Outcome t :=
  fold_left (fun o p => mousemove p (stateOf o))
            moves (mousedown OnStage false p0 s).

End Renderer.

(** *** The rest of the public interface *)

(** [toArray()]: the selected nodes, in the order of the map. *)
Definition toArray (s : t) : list NodeRef := JsMap.values (nodes s).

(** The body of the [forEach] of [clone]: [output.push(n.clone())]. *)
Definition pushClone (acc : list NodeRef * Scene.t) (node : NodeRef)
    : list NodeRef * Scene.t :=
  let '(output, sc) := acc in
  let '(copy, sc) := Scene.clone node sc in
  (output ++ [copy], sc).

(** [clone()]: a clone of every selected node, in the order of the map.
    The clones are new nodes without a parent. *)
Definition clone (s : t) : list NodeRef * t :=
  let '(output, sc) :=
    fold_left pushClone (JsMap.values (nodes s)) ([], scene s) in
  (output, with_scene sc s).

Definition getBounding (s : t) : option Group.t := bounding s.

End KonvaSelection.

Import KonvaSelection.

(** ** Notions used in the statements *)

(** The fields other than the scene and the bounding group. *)
Definition same_selection (s s' : KonvaSelection.t) : Prop :=
  nodes s' = nodes s /\
  selectionChange s' = selectionChange s /\
  selectBox s' = selectBox s /\
  selectAttrs s' = selectAttrs s /\
  oldPosition s' = oldPosition s.

(** The public mutators of the selection. *)
Inductive Operation : Type :=
| Add (node : NodeRef)
| Remove (node : NodeRef)
| Clear.

Definition perform (op : Operation) (s : KonvaSelection.t)
    : Outcome KonvaSelection.t :=
  match op with
  | Add node => add node s
  | Remove node => remove node s
  | Clear => Returned (clear s)
  end.

(** The scene that the source builds: three closed lines named
    ['entity'] at [x = 100, 200, 300] and [y = 100], through the corners
    of a square of side 50, 30 and 50; [width] and [height] hold that
    side.  The second line is drawn with a tension, and what the
    renderer reports as its client rectangle is larger than the square
    (see [pageClientRect]). *)
Definition demoScene : Scene.t :=
  Scene.mk 4
    (fun n =>
       if Z.eqb n 1 then Attrs.mk ["entity"%string] None 100 100 50 50 true None
       else if Z.eqb n 2
            then Attrs.mk ["entity"%string] None 200 100 30 30 true None
       else if Z.eqb n 3
            then Attrs.mk ["entity"%string] None 300 100 50 50 true None
       else Attrs.empty)
    [1; 2; 3]%Z.

(** Shorthands for what a statement reads from the scene. *)
Definition attrsOf (s : KonvaSelection.t) (node : NodeRef) : Attrs.t :=
  Scene.attrs (scene s) node.

Definition childrenOf (s : KonvaSelection.t) : list NodeRef :=
  Scene.children (scene s).

Definition idCounterOf (s : KonvaSelection.t) : Z :=
  Scene.idCounter (scene s).

(** [node.hasName('entity')]. *)
Definition isEntity (s : KonvaSelection.t) (node : NodeRef) : bool :=
  Attrs.hasName "entity" (attrsOf s node).

(** [node.id() === 'selectBox']. *)
Definition isSelectBoxId (s : KonvaSelection.t) (node : NodeRef) : bool :=
  match Attrs.id (attrsOf s node) with
  | Some i => String.eqb i "selectBox"
  | None => false
  end.

(** The bounding group, when there is one, is a node that the renderer
    has allocated and it is not named ['entity']. *)
Definition bounding_ok (s : KonvaSelection.t) : Prop :=
  forall b, bounding s = Some b ->
    (Group.ref b < idCounterOf s)%Z /\ isEntity s (Group.ref b) = false.

(** The same for the transformer. *)
Definition transformer_ok (s : KonvaSelection.t) : Prop :=
  forall tr, transformer s = Some tr ->
    (Transformer.ref tr < idCounterOf s)%Z /\
    isEntity s (Transformer.ref tr) = false.

(** The nodes that the controller adds to the working layer. *)
Definition owned_ok (s : KonvaSelection.t) : Prop :=
  bounding_ok s /\ transformer_ok s.

(** Well-formed states.  The children of the working layer, the
    transformer, the bounding group and the select box are nodes that
    the renderer has allocated (their [_id] is below the counter); the
    transformer and the bounding group are not entities; the select box
    has the id ['selectBox'], and no entity of the working layer has
    it. *)
Definition well_formed (s : KonvaSelection.t) : Prop :=
  (forall k, In k (childrenOf s) -> (k < idCounterOf s)%Z) /\
  owned_ok s /\
  (forall k, In k (childrenOf s) -> isEntity s k = true ->
     isSelectBoxId s k = false) /\
  (forall box, selectBox s = Some box ->
     (box < idCounterOf s)%Z /\ isSelectBoxId s box = true).

(** [s] and [s'] have the same entities in the working layer, with the
    same attributes. *)
Definition same_entities (s s' : KonvaSelection.t) : Prop :=
  forall k,
    (In k (childrenOf s') /\ isEntity s' k = true <->
     In k (childrenOf s) /\ isEntity s k = true) /\
    (In k (childrenOf s) -> isEntity s k = true ->
     attrsOf s' k = attrsOf s k).

(** The state of the controller while a marquee that started at [p0] is
    in progress: a well-formed state in which the select box exists and
    every selected node is an entity of the working layer. *)
Definition marqueeing (p0 : Vector2d.t) (s : KonvaSelection.t) : Prop :=
  well_formed s /\
  SelectAttrs.select (selectAttrs s) = true /\
  SelectAttrs.posStart (selectAttrs s) = Some p0 /\
  (exists box, selectBox s = Some box) /\
  (forall k, JsMap.has k (nodes s) = true ->
     In k (childrenOf s) /\ isSelectBoxId s k = false /\
     isEntity s k = true).

(** What [add], [remove] and [updateTransformer] do to the scene: nodes
    are only created, the attributes of the existing ones are kept, the
    new children of the layer are not entities, and no entity leaves the
    layer. *)
Definition scene_grows (s s' : KonvaSelection.t) : Prop :=
  (idCounterOf s <= idCounterOf s')%Z /\
  (forall k, (k < idCounterOf s)%Z -> attrsOf s' k = attrsOf s k) /\
  (forall k, In k (childrenOf s') ->
     In k (childrenOf s) \/
     ((idCounterOf s <= k < idCounterOf s')%Z /\ isEntity s' k = false)) /\
  (forall k, In k (childrenOf s) -> (k < idCounterOf s)%Z ->
     isEntity s k = true -> In k (childrenOf s')).

(** The selection map is a proper [Map]: its keys are distinct, every
    node is stored under its own [_id], and every selected node has been
    allocated by the renderer. *)
Definition nodes_ok (s : KonvaSelection.t) : Prop :=
  NoDup (JsMap.keys (nodes s)) /\
  (forall k v, In (k, v) (nodes s) ->
     k = _id v /\ (v < idCounterOf s)%Z).

(** The renderer of the examples, for the scene of the source on a
    stage that is neither panned nor zoomed.  The client rectangle of a
    node is the box given by its attributes, except for the second
    shape: its line has a tension of 0.55, the curve passes the corners
    by 8 on every side, and the rectangle is [(x - 8, y - 8, 47, 47)].
    A node with an id is the select box, a plain rectangle. *)
Definition pageClientRect (config : ClientRectConfig.t) (node : NodeRef)
    (a : Attrs.t) : IRect.t :=
  match Attrs.id a with
  | None =>
      if Z.eqb node 2
      then IRect.mk (Attrs.x a - 8) (Attrs.y a - 8) 47 47
      else IRect.mk (Attrs.x a) (Attrs.y a) (Attrs.width a) (Attrs.height a)
  | Some _ =>
      IRect.mk (Attrs.x a) (Attrs.y a) (Attrs.width a) (Attrs.height a)
  end.

(** The test of the collision check loop on [node]: its client
    rectangle meets [rect] and it is named ['entity']. *)
Definition hit
    (getClientRect : ClientRectConfig.t -> NodeRef -> Attrs.t -> IRect.t)
    (rect : IRect.t) (s : KonvaSelection.t) (node : NodeRef) : bool :=
  haveIntersection (clientRect getClientRect ClientRectConfig.default node s)
                   rect
  && isEntity s node.

(** The select box carries the normalized rectangle of [p0] and [p]. *)
Definition box_spans (p0 p : Vector2d.t) (s : KonvaSelection.t) : Prop :=
  exists box,
    selectBox s = Some box /\
    Attrs.x (attrsOf s box) = DragRect.x1 (reverse p0 p) /\
    Attrs.y (attrsOf s box) = DragRect.y1 (reverse p0 p) /\
    Attrs.width (attrsOf s box)
    = DragRect.x2 (reverse p0 p) - DragRect.x1 (reverse p0 p) /\
    Attrs.height (attrsOf s box)
    = DragRect.y2 (reverse p0 p) - DragRect.y1 (reverse p0 p).

(** The outcome of a marquee update for the rectangle spanned by [p0]
    and [p]: the select box carries the normalized rectangle, and the
    selected nodes are exactly the children of the working layer that
    are named ['entity'] and whose client rectangle meets the client
    rectangle of the select box. *)
Definition selects_exactly
    (getClientRect : ClientRectConfig.t -> NodeRef -> Attrs.t -> IRect.t)
    (p0 p : Vector2d.t) (s : KonvaSelection.t) : Prop :=
  exists box,
    selectBox s = Some box /\
    Attrs.x (attrsOf s box) = DragRect.x1 (reverse p0 p) /\
    Attrs.y (attrsOf s box) = DragRect.y1 (reverse p0 p) /\
    Attrs.width (attrsOf s box)
    = DragRect.x2 (reverse p0 p) - DragRect.x1 (reverse p0 p) /\
    Attrs.height (attrsOf s box)
    = DragRect.y2 (reverse p0 p) - DragRect.y1 (reverse p0 p) /\
    forall n,
      JsMap.has (_id n) (nodes s) = true <->
      In n (childrenOf s) /\ isEntity s n = true /\
      haveIntersection
        (clientRect getClientRect ClientRectConfig.default n s)
        (clientRect getClientRect (ClientRectConfig.mk true true) box s)
      = true.

(** The state between two frames of a drag of [target]. *)
Definition dragging (target : NodeRef) (s : KonvaSelection.t) : Prop :=
  nodes_ok s /\
  JsMap.has (_id target) (nodes s) = true /\
  oldPosition s = Some (Attrs.position (attrsOf s target)).

(** What can happen to the controller: an event of the renderer that
    one of its handlers receives, or a call of a public mutator. *)
Inductive Event : Type :=
| Mousedown (target : EventTarget) (shiftKey : bool) (pointer : Vector2d.t)
| Mousemove (pointer : Vector2d.t)
| Mouseup
| Wheel
| Dragstart (target : NodeRef)
| Dragmove (target : NodeRef) (position : Vector2d.t)
| Call (op : Operation).

Definition handle
    (getClientRect : ClientRectConfig.t -> NodeRef -> Attrs.t -> IRect.t)
    (e : Event) (s : KonvaSelection.t) : Outcome KonvaSelection.t :=
  match e with
  | Mousedown target shiftKey pointer => mousedown target shiftKey pointer s
  | Mousemove pointer => mousemove getClientRect pointer s
  | Mouseup => mouseup s
  | Wheel => wheel s
  | Dragstart target => Returned (dragstart target s)
  | Dragmove target position => dragFrame target position s
  | Call op => perform op s
  end.

(** The state that a call leaves behind, whether it returns or raises:
    shorthands for the statements of the lemmas. *)
Module After.
Definition updateTransformer (s : KonvaSelection.t) : KonvaSelection.t :=
  stateOf (KonvaSelection.updateTransformer s).

Definition add (node : NodeRef) (s : KonvaSelection.t) : KonvaSelection.t :=
  stateOf (KonvaSelection.add node s).

Definition remove (node : NodeRef) (s : KonvaSelection.t)
    : KonvaSelection.t :=
  stateOf (KonvaSelection.remove node s).

Definition mousedown (target : EventTarget) (shiftKey : bool)
    (pointer : Vector2d.t) (s : KonvaSelection.t) : KonvaSelection.t :=
  stateOf (KonvaSelection.mousedown target shiftKey pointer s).

Definition collisionCheck
    (getClientRect : ClientRectConfig.t -> NodeRef -> Attrs.t -> IRect.t)
    (selectBoxRect : IRect.t) (s : KonvaSelection.t) (node : NodeRef)
    : KonvaSelection.t :=
  stateOf (KonvaSelection.collisionCheck getClientRect selectBoxRect s node).

Definition perform (op : Operation) (s : KonvaSelection.t)
    : KonvaSelection.t :=
  stateOf (perform op s).

Definition handle
    (getClientRect : ClientRectConfig.t -> NodeRef -> Attrs.t -> IRect.t)
    (e : Event) (s : KonvaSelection.t) : KonvaSelection.t :=
  stateOf (handle getClientRect e s).
End After.

(** ** The rest of the source *)

(** *** Zooming the stage with the wheel *)

(** What the [wheel] handler of the stage reads and writes: the scale
    and the position of the stage. *)
Module StageView.
Record t : Type := mk { scaleX : R; scaleY : R; x : R; y : R }.
End StageView.

Definition scaleBy : R := 1.04.

(** [stage.on('wheel', ...)]; [deltaY] is [e.evt.deltaY] and [pointer]
    is [stage.getPointerPosition()]. *)
Definition wheelZoom (deltaY : R) (pointer : Vector2d.t)
    (stage : StageView.t) : StageView.t :=
  let oldScale := StageView.scaleX stage in
  let mousePointTo :=
    Vector2d.mk
      (Vector2d.x pointer / oldScale - StageView.x stage / oldScale)
      (Vector2d.y pointer / oldScale - StageView.y stage / oldScale) in
  let newScale :=
    if Rltb deltaY 0 then oldScale * scaleBy else oldScale / scaleBy in
  let newPos :=
    Vector2d.mk
      (- (Vector2d.x mousePointTo - Vector2d.x pointer / newScale) * newScale)
      (- (Vector2d.y mousePointTo - Vector2d.y pointer / newScale) * newScale)
  in
  StageView.mk newScale newScale (Vector2d.x newPos) (Vector2d.y newPos).

(** The point of the scene that is drawn at [pointer]. *)
Definition scenePoint (pointer : Vector2d.t) (stage : StageView.t)
    : Vector2d.t :=
  Vector2d.mk
    ((Vector2d.x pointer - StageView.x stage) / StageView.scaleX stage)
    ((Vector2d.y pointer - StageView.y stage) / StageView.scaleY stage).

(** *** [Util.requestAnimFrame] *)

(** The queue of [Util] together with what the browser holds: the number
    of animation frames that have been requested and not yet delivered,
    and the callbacks called so far.  A callback is known by what it
    passes to [requestAnimFrame] when it runs ([requests]). *)
Module Util.
Section Callbacks.
Variable Callback : Type.
Variable requests : Callback -> list Callback.

Record t : Type := mk {
  queue : list Callback;
  scheduled : nat;
  called : list Callback }.

Definition init : t := mk [] 0 [].

Definition requestAnimFrame (callback : Callback) (s : t) : t :=
  let queue := queue s ++ [callback] in
  mk queue
     (if Nat.eqb (List.length queue) 1 then S (scheduled s) else scheduled s)
     (called s).

(** [cb()] inside the [forEach] of the frame. *)
Definition call (s : t) (cb : Callback) : t :=
  fold_left (fun s r => requestAnimFrame r s) (requests cb)
            (mk (queue s) (scheduled s) (called s ++ [cb])).

(** The function given to [requestAnimationFrame], when the browser
    delivers a frame; [None] when no frame has been requested. *)
Definition animationFrame (s : t) : option t :=
  match scheduled s with
  | O => None
  | S n =>
      let anims := queue s in
      Some (fold_left call anims (mk [] n (called s)))
  end.

(** What can happen to the queue: a request, or the browser delivering
    a frame. *)
Inductive Step : Type :=
| Request (callback : Callback)
| Frame.

Definition step (st : Step) (s : t) : option t :=
  match st with
  | Request callback => Some (requestAnimFrame callback s)
  | Frame => animationFrame s
  end.

Definition run (steps : list Step) (s : t) : option t :=
  fold_left
    (fun os st => match os with Some s => step st s | None => None end)
    steps (Some s).

(** A frame is requested from the browser exactly when callbacks are
    waiting, and never more than one. *)
Definition coalesced (s : t) : Prop :=
  scheduled s = match queue s with [] => 0%nat | _ :: _ => 1%nat end.
End Callbacks.
End Util.

(** *** The handlers of the context menu *)

Module ContextTool.

Inductive ContextToolType : Type := Copy | Cut | Paste.

Module Clipboard.
Record t : Type := mk {
  entities : list NodeRef;
  type : option ContextToolType }.
End Clipboard.

(** [layer1.add(entity)] for a node that may already be a child of the
    layer: Konva leaves such a node where it is. *)
Definition layerAdd (node : NodeRef) (sc : Scene.t) : Scene.t :=
  if existsb (Z.eqb node) (Scene.children sc) then sc
  else Scene.add node sc.

(** The handler of [Copy]. *)
Definition copy (s : KonvaSelection.t) (clipboard : Clipboard.t)
    : KonvaSelection.t * Clipboard.t :=
  let '(entities, s) := KonvaSelection.clone s in
  (s, Clipboard.mk entities (Some Copy)).

(** The handler of [Cut]. *)
Definition cut (s : KonvaSelection.t) (clipboard : Clipboard.t)
    : KonvaSelection.t * Clipboard.t :=
  let entities := toArray s in
  let s :=
    fold_left
      (fun s entity =>
         with_scene
           (Scene.setAttrs entity (Attrs.setVisible false) (scene s)) s)
      entities s in
  (clear s, Clipboard.mk entities (Some Cut)).

(** The body of the loop of [Paste]. *)
Definition pasteEntity (position : Vector2d.t)
    (type : option ContextToolType) (s : KonvaSelection.t)
    (entity : NodeRef) : KonvaSelection.t :=
  let s :=
    match type with
    | Some Copy => with_scene (layerAdd entity (scene s)) s
    | _ => s
    end in
  with_scene
    (Scene.setAttrs entity
       (fun a => Attrs.setPosition position (Attrs.setVisible true a))
       (scene s)) s.

(** The handler of [Paste]; [bounding.children] is read when the
    selection is a group. *)
Definition paste (position : Vector2d.t) (s : KonvaSelection.t)
    (clipboard : Clipboard.t) : option (KonvaSelection.t * Clipboard.t) :=
  if Nat.eqb (List.length (Clipboard.entities clipboard)) 0
  then Some (s, clipboard)
  else
    let pasted :=
      fold_left (pasteEntity position (Clipboard.type clipboard))
                (Clipboard.entities clipboard) s in
    if isGroup s then
      match getBounding s with
      | Some _ => Some (pasted, clipboard)
      | None => None
      end
    else Some (pasted, clipboard).

(** The handler of [Delete]. *)
Definition delete (s : KonvaSelection.t) (clipboard : Clipboard.t)
    : KonvaSelection.t * Clipboard.t :=
  let s :=
    fold_left
      (fun s n => with_scene (Scene.destroy n (scene s)) s)
      (JsMap.values (nodes s)) s in
  (clear s, clipboard).

End ContextTool.

(** *** Sequences of events *)

(** The state of the controller after the page has delivered [events]:
    each handler starts from the state that the one before has left. *)
Definition handleAll
    (getClientRect : ClientRectConfig.t -> NodeRef -> Attrs.t -> IRect.t)
    (events : list Event) (s : KonvaSelection.t) : KonvaSelection.t :=
  fold_left (fun s e => After.handle getClientRect e s) events s.

(** The renderer fires [dragmove] only during a drag, after a
    [dragstart]; [started] tells whether a drag has started before. *)
Fixpoint dragsStarted (started : bool) (events : list Event) : bool :=
  match events with
  | [] => true
  | Dragstart _ :: events => dragsStarted true events
  | Dragmove _ _ :: events => started && dragsStarted started events
  | _ :: events => dragsStarted started events
  end.

(** The marquee flag is set only while there is a select box and a
    start point. *)
Definition marquee_consistent (s : KonvaSelection.t) : Prop :=
  SelectAttrs.select (selectAttrs s) = true ->
  selectBox s <> None /\ SelectAttrs.posStart (selectAttrs s) <> None.

(** The state in which a handler that raises leaves the controller: the
    selection is empty and the transformer is there, attached to
    nothing. *)
Definition detached (s : KonvaSelection.t) : Prop :=
  nodes s = [] /\
  exists tr, transformer s = Some tr /\ Transformer._node tr = None.

(** The matrix of a node at [(x, y)], rotated by [theta] and scaled by
    [(sx, sy)], inside a frame at [(px, py)] that is zoomed by [z]. *)
Definition placedMatrix (x y theta sx sy px py z : R) : Matrix.t :=
  Matrix.mk (z * (sx * cos theta)) (z * (sx * sin theta))
            (z * (- (sy * sin theta))) (z * (sy * cos theta))
            (px + z * x) (py + z * y).

(** The renderer leaves the select box where its attributes put it: the
    stage is neither panned nor zoomed. *)
Definition selectBoxUnscaled
    (getClientRect : ClientRectConfig.t -> NodeRef -> Attrs.t -> IRect.t)
    : Prop :=
  forall box a,
    Attrs.id a = Some "selectBox"%string ->
    getClientRect (ClientRectConfig.mk true true) box a
    = IRect.mk (Attrs.x a) (Attrs.y a) (Attrs.width a) (Attrs.height a).

(** The point [p] lies in the rectangle [r], edges included. *)
Definition inRect (p : Vector2d.t) (r : IRect.t) : Prop :=
  IRect.x r <= Vector2d.x p <= IRect.x r + IRect.width r /\
  IRect.y r <= Vector2d.y p <= IRect.y r + IRect.height r.

(** *** Notions used in the further properties *)

(** The transformer shows the selection: it has no target when nothing
    is selected, the selected node when there is one, and otherwise the
    bounding group, which holds one proxy for each selected node. *)
Definition shown (s : KonvaSelection.t) : Prop :=
  match toArray s with
  | [] => forall tr, transformer s = Some tr -> Transformer._node tr = None
  | [n] =>
      exists tr, transformer s = Some tr /\ Transformer._node tr = Some n
  | _ :: _ :: _ =>
      exists tr b,
        transformer s = Some tr /\ bounding s = Some b /\
        Transformer._node tr = Some (Group.ref b) /\
        List.length (Group.children b) = JsMap.size (nodes s)
  end.

(** The events that do not go through [add], [remove] or [clear]. *)
Definition quiet (e : Event) (s : KonvaSelection.t) : bool :=
  match e with
  | Mousedown _ _ _ => false
  | Mousemove _ => negb (SelectAttrs.select (selectAttrs s))
  | Call _ => false
  | _ => true
  end.

(** The node that an event or a call brings in is a node of the scene. *)
Definition allocated (e : Event) (s : KonvaSelection.t) : Prop :=
  match e with
  | Mousedown (OnNode node) _ _ => (node < idCounterOf s)%Z
  | Call (Add node) => (node < idCounterOf s)%Z
  | _ => True
  end.

(** * Properties *)

(** ** Comparisons *)

Lemma Rgtb_true (u v : R) : Rgtb u v = true <-> u > v.
Proof.
  unfold Rgtb. destruct (Rgt_dec u v); split; intros H;
    try reflexivity; try assumption; try discriminate; contradiction.
Qed.

Lemma Rgtb_false (u v : R) : Rgtb u v = false <-> u <= v.
Proof.
  unfold Rgtb. destruct (Rgt_dec u v); split; intros H;
    try reflexivity; try discriminate; lra.
Qed.

Lemma Rltb_true (u v : R) : Rltb u v = true <-> u < v.
Proof.
  unfold Rltb. destruct (Rlt_dec u v); split; intros H;
    try reflexivity; try assumption; try discriminate; contradiction.
Qed.

Lemma Rltb_false (u v : R) : Rltb u v = false <-> v <= u.
Proof.
  unfold Rltb. destruct (Rlt_dec u v); split; intros H;
    try reflexivity; try discriminate; lra.
Qed.

Lemma Rneqb_true (u v : R) : Rneqb u v = true <-> u <> v.
Proof.
  unfold Rneqb. destruct (Req_dec_T u v); split; intros H;
    try reflexivity; try assumption; try discriminate; contradiction.
Qed.

Lemma Rneqb_false (u v : R) : Rneqb u v = false <-> u = v.
Proof.
  unfold Rneqb. destruct (Req_dec_T u v); split; intros H;
    try reflexivity; try assumption; try discriminate; contradiction.
Qed.

(** ** [haveIntersection] *)

Lemma haveIntersection_true (r1 r2 : IRect.t) :
  haveIntersection r1 r2 = true <->
  IRect.x r2 <= IRect.x r1 + IRect.width r1 /\
  IRect.x r1 <= IRect.x r2 + IRect.width r2 /\
  IRect.y r2 <= IRect.y r1 + IRect.height r1 /\
  IRect.y r1 <= IRect.y r2 + IRect.height r2.
Proof.
  unfold haveIntersection.
  rewrite negb_true_iff, !orb_false_iff, !Rgtb_false, !Rltb_false.
  tauto.
Qed.

(** C6.  The intersection test is commutative; on rectangles of
    non-negative width and height it is reflexive, and two rectangles
    that share an edge (the left edge of [B] on the right edge of [A],
    or the top edge of [B] on the bottom edge of [A]) intersect. *)
Theorem haveIntersection_comm_refl_touch (A B : IRect.t) :
  0 <= IRect.width A -> 0 <= IRect.height A ->
  0 <= IRect.width B -> 0 <= IRect.height B ->
  haveIntersection A B = haveIntersection B A /\
  haveIntersection A A = true /\
  (IRect.x B = IRect.x A + IRect.width A ->
   IRect.y B <= IRect.y A + IRect.height A ->
   IRect.y A <= IRect.y B + IRect.height B ->
   haveIntersection A B = true) /\
  (IRect.y B = IRect.y A + IRect.height A ->
   IRect.x B <= IRect.x A + IRect.width A ->
   IRect.x A <= IRect.x B + IRect.width B ->
   haveIntersection A B = true).
Proof.
  intros HwA HhA HwB HhB. repeat split.
  - destruct (haveIntersection A B) eqn:HAB.
    + symmetry. apply haveIntersection_true.
      apply haveIntersection_true in HAB. tauto.
    + destruct (haveIntersection B A) eqn:HBA; [|reflexivity].
      apply haveIntersection_true in HBA.
      assert (haveIntersection A B = true) as Hc
          by (apply haveIntersection_true; tauto).
      congruence.
  - apply haveIntersection_true. lra.
  - intros Hx Hy1 Hy2. apply haveIntersection_true. lra.
  - intros Hy Hx1 Hx2. apply haveIntersection_true. lra.
Qed.

Lemma haveIntersection_comm_refl_touch_witness :
  let A := IRect.mk 0 0 10 10 in
  let B := IRect.mk 10 5 3 3 in
  haveIntersection A B = haveIntersection B A /\
  haveIntersection A A = true /\
  haveIntersection A B = true.
Proof.
  intros A B.
  assert (0 <= IRect.width A) as HwA by (simpl; lra).
  assert (0 <= IRect.height A) as HhA by (simpl; lra).
  assert (0 <= IRect.width B) as HwB by (simpl; lra).
  assert (0 <= IRect.height B) as HhB by (simpl; lra).
  destruct (haveIntersection_comm_refl_touch A B HwA HhA HwB HhB)
    as [Hcomm [Hrefl [Htouch _]]].
  split; [exact Hcomm|]. split; [exact Hrefl|].
  apply Htouch; simpl; lra.
Defined.

(** ** [reverse] *)

(** C8.  The rectangle returned by [reverse] has [x1 <= x2] and
    [y1 <= y2], so the width [x2 - x1] and the height [y2 - y1] that
    [updateDrag] derives from it are not negative. *)
Theorem reverse_normalized (p1 p2 : Vector2d.t) :
  let r := reverse p1 p2 in
  DragRect.x1 r <= DragRect.x2 r /\
  DragRect.y1 r <= DragRect.y2 r /\
  0 <= DragRect.x2 r - DragRect.x1 r /\
  0 <= DragRect.y2 r - DragRect.y1 r.
Proof.
  unfold reverse.
  pose proof (Rabs_pos (Vector2d.x p1 - Vector2d.x p2)) as Hx.
  pose proof (Rabs_pos (Vector2d.y p1 - Vector2d.y p2)) as Hy.
  destruct (Rgtb (Vector2d.x p1) (Vector2d.x p2)) eqn:Ex;
    destruct (Rgtb (Vector2d.y p1) (Vector2d.y p2)) eqn:Ey; simpl;
    try apply Rgtb_false in Ex; try apply Rgtb_false in Ey;
    repeat split; lra.
Qed.

(** ** [decompose] *)

(** C4.  When [a <> 0] or [b <> 0], and the reference frame has a
    non-zero absolute scale, [decompose] returns the translation
    relative to the frame, the rotation [acos (a / r)] in degrees with
    the sign of [b], the scales [r / sx] and [(a d - b c) / r / sy], the
    skew [atan ((a c + b d) / r ^ 2)] and [skewY = 0], where
    [r = sqrt (a ^ 2 + b ^ 2)]. *)
Theorem decompose_first_branch (a b c d e f px py sx sy : R) :
  a <> 0 \/ b <> 0 -> sx <> 0 -> sy <> 0 ->
  let mat := Matrix.mk a b c d e f in
  let layer := Layer.mk (Vector2d.mk px py) (Vector2d.mk sx sy) in
  let r := sqrt (a ^ 2 + b ^ 2) in
  let result := decompose mat layer in
  Decomposed.x result = (e - px) / sx /\
  Decomposed.y result = (f - py) / sy /\
  (b > 0 -> Decomposed.rotation result = acos (a / r) * (180 / PI)) /\
  (~ b > 0 -> Decomposed.rotation result = - acos (a / r) * (180 / PI)) /\
  Decomposed.scaleX result = r / sx /\
  Decomposed.scaleY result = (a * d - b * c) / r / sy /\
  Decomposed.skewX result = atan ((a * c + b * d) / r ^ 2) /\
  Decomposed.skewY result = 0.
Proof.
  intros Hab Hsx Hsy mat layer r result.
  assert (Rneqb a 0 || Rneqb b 0 = true) as Hbranch.
  { apply orb_true_iff. destruct Hab as [H | H];
      [left | right]; apply Rneqb_true; exact H. }
  assert (a * a + b * b = a ^ 2 + b ^ 2) as Hsq by ring.
  unfold result, decompose. simpl. rewrite Hbranch. simpl.
  unfold delta. simpl. rewrite Hsq. fold r.
  replace (r * r) with (r ^ 2) by ring.
  repeat split.
  - intros Hb. apply Rgtb_true in Hb. rewrite Hb. reflexivity.
  - intros Hb. destruct (Rgtb b 0) eqn:E; [|reflexivity].
    apply Rgtb_true in E. contradiction.
Qed.

Lemma decompose_first_branch_witness :
  let result :=
    decompose (Matrix.mk 3 4 0 1 7 9)
              (Layer.mk (Vector2d.mk 1 1) (Vector2d.mk 2 2)) in
  Decomposed.x result = (7 - 1) / 2 /\
  Decomposed.scaleX result = sqrt (3 ^ 2 + 4 ^ 2) / 2 /\
  Decomposed.skewY result = 0.
Proof.
  assert (3 <> 0 \/ 4 <> 0) as Hab by (left; lra).
  assert (2 <> 0) as Hs by lra.
  destruct (decompose_first_branch 3 4 0 1 7 9 1 1 2 2 Hab Hs Hs)
    as [Hx [_ [_ [_ [Hsx [_ [_ Hsk]]]]]]].
  split; [exact Hx|]. split; [exact Hsx | exact Hsk].
Defined.

(** C9.  When [a = 0] and [b = 0] while [c <> 0] or [d <> 0],
    [decompose] takes its second branch ([scaleY] is [s / sy] with
    [s = sqrt (c ^ 2 + d ^ 2)]); the determinant [a d - b c] is then 0
    and the returned [scaleX] is 0. *)
Theorem decompose_second_branch_singular (a b c d e f px py sx sy : R) :
  a = 0 -> b = 0 -> c <> 0 \/ d <> 0 -> sx <> 0 -> sy <> 0 ->
  let mat := Matrix.mk a b c d e f in
  let layer := Layer.mk (Vector2d.mk px py) (Vector2d.mk sx sy) in
  delta mat = 0 /\
  Decomposed.scaleX (decompose mat layer) = 0 /\
  Decomposed.scaleY (decompose mat layer) = sqrt (c ^ 2 + d ^ 2) / sy.
Proof.
  intros Ha Hb Hcd Hsx Hsy mat layer. subst a b.
  assert (Rneqb 0 0 = false) as H0 by (apply Rneqb_false; reflexivity).
  assert (Rneqb c 0 || Rneqb d 0 = true) as Hbranch.
  { apply orb_true_iff. destruct Hcd as [H | H];
      [left | right]; apply Rneqb_true; exact H. }
  assert (c * c + d * d = c ^ 2 + d ^ 2) as Hsq by ring.
  unfold decompose, delta. simpl. rewrite H0, Hbranch. simpl.
  unfold delta. simpl. rewrite Hsq.
  repeat split; try reflexivity.
  - ring.
  - unfold Rdiv. ring.
Qed.

Lemma decompose_second_branch_singular_witness :
  let mat := Matrix.mk 0 0 3 4 7 9 in
  let layer := Layer.mk (Vector2d.mk 1 1) (Vector2d.mk 2 2) in
  delta mat = 0 /\ Decomposed.scaleX (decompose mat layer) = 0.
Proof.
  assert (3 <> 0 \/ 4 <> 0) as Hcd by (left; lra).
  assert (2 <> 0) as Hs by lra.
  destruct (decompose_second_branch_singular 0 0 3 4 7 9 1 1 2 2
              eq_refl eq_refl Hcd Hs Hs) as [Hd [Hx _]].
  split; [exact Hd | exact Hx].
Defined.

(** ** [JsMap] *)

Section JsMapFacts.
Context {V : Type}.
Implicit Types (m : JsMap.t V) (k : Z) (v : V).

Lemma has_app k m m' :
  JsMap.has k (m ++ m') = JsMap.has k m || JsMap.has k m'.
Proof. unfold JsMap.has. apply existsb_app. Qed.

Lemma has_set k' k v m :
  JsMap.has k' (JsMap.set k v m) = JsMap.has k' m || Z.eqb k' k.
Proof.
  unfold JsMap.set. destruct (JsMap.has k m) eqn:Hk.
  - assert (JsMap.has k'
              (map (fun e => if Z.eqb (fst e) k then (k, v) else e) m)
            = JsMap.has k' m) as Hmap.
    { clear Hk. induction m as [|[k0 v0] m IH]; simpl; [reflexivity|].
      rewrite IH. destruct (Z.eqb_spec k0 k); simpl; subst; reflexivity. }
    rewrite Hmap. destruct (Z.eqb_spec k' k); subst.
    + rewrite Hk. reflexivity.
    + rewrite orb_false_r. reflexivity.
  - rewrite has_app. simpl. rewrite orb_false_r, Z.eqb_sym. reflexivity.
Qed.

Lemma has_delete k' k m :
  JsMap.has k' (JsMap.delete k m) = JsMap.has k' m && negb (Z.eqb k' k).
Proof.
  unfold JsMap.delete, JsMap.has.
  induction m as [|[k0 v0] m IH]; simpl; [reflexivity|].
  destruct (Z.eqb_spec k0 k); simpl.
  - rewrite IH. subst k0. destruct (Z.eqb_spec k k'); simpl.
    + subst k'. rewrite Z.eqb_refl. simpl. rewrite andb_false_r.
      reflexivity.
    + reflexivity.
  - rewrite IH. destruct (Z.eqb_spec k0 k'); simpl; [|reflexivity].
    subst k0. destruct (Z.eqb_spec k' k); [contradiction|reflexivity].
Qed.

Lemma delete_absent k m : JsMap.has k m = false -> JsMap.delete k m = m.
Proof.
  unfold JsMap.delete, JsMap.has.
  induction m as [|[k0 v0] m IH]; simpl; [reflexivity|].
  intros H. apply orb_false_iff in H. destruct H as [H0 H].
  rewrite H0. simpl. rewrite IH by exact H. reflexivity.
Qed.

Lemma size_set_absent k v m :
  JsMap.has k m = false -> JsMap.size (JsMap.set k v m) = S (JsMap.size m).
Proof.
  intros H. unfold JsMap.set, JsMap.size. rewrite H.
  rewrite length_app. simpl. lia.
Qed.

Lemma has_keys k m : JsMap.has k m = true <-> In k (JsMap.keys m).
Proof.
  unfold JsMap.has, JsMap.keys. rewrite existsb_exists, in_map_iff.
  split.
  - intros [e [He Hk]]. apply Z.eqb_eq in Hk. exists e. split; assumption.
  - intros [e [Hk He]]. exists e. split; [assumption|].
    apply Z.eqb_eq. assumption.
Qed.

Lemma has_nil k : JsMap.has k ([] : JsMap.t V) = false.
Proof. reflexivity. Qed.

Lemma get_set_same k v m : JsMap.get k (JsMap.set k v m) = Some v.
Proof.
  unfold JsMap.set. destruct (JsMap.has k m) eqn:Hk.
  - induction m as [|[k0 v0] m IH]; simpl in *; [discriminate|].
    destruct (Z.eqb_spec k0 k); simpl.
    + rewrite Z.eqb_refl. reflexivity.
    + destruct (Z.eqb_spec k0 k); [contradiction|]. apply IH. exact Hk.
  - induction m as [|[k0 v0] m IH]; simpl in *.
    + rewrite Z.eqb_refl. reflexivity.
    + apply orb_false_iff in Hk. destruct Hk as [H0 Hk].
      rewrite H0. apply IH. exact Hk.
Qed.

Lemma get_set_other k' k v m :
  k' <> k -> JsMap.get k' (JsMap.set k v m) = JsMap.get k' m.
Proof.
  intros Hne. unfold JsMap.set. destruct (JsMap.has k m).
  - induction m as [|[k0 v0] m IH]; simpl; [reflexivity|].
    destruct (Z.eqb_spec k0 k); simpl.
    + subst k0. destruct (Z.eqb_spec k k'); [congruence|]. exact IH.
    + destruct (Z.eqb_spec k0 k'); [reflexivity|]. exact IH.
  - induction m as [|[k0 v0] m IH]; simpl.
    + destruct (Z.eqb_spec k k'); [congruence|reflexivity].
    + destruct (Z.eqb_spec k0 k'); [reflexivity|]. exact IH.
Qed.
End JsMapFacts.

(** ** What the helpers of the controller leave unchanged *)

Lemma createBounding_unfold (s : KonvaSelection.t) :
  exists g clones sc,
    createBounding s =
      (g, with_bounding (Some (Group.mk g clones)) (with_scene sc s)).
Proof.
  unfold createBounding.
  destruct (bounding s) as [b|]; simpl;
    match goal with
    | |- context [fold_left ?f ?l ?a] => destruct (fold_left f l a) as [cl sc']
    end; eexists; eexists; eexists; reflexivity.
Qed.

Lemma createBounding_same (s : KonvaSelection.t) :
  same_selection s (snd (createBounding s)) /\
  transformer (snd (createBounding s)) = transformer s.
Proof.
  destruct (createBounding_unfold s) as [g [clones [sc E]]]. rewrite E.
  unfold same_selection. simpl. repeat split; reflexivity.
Qed.

(** ** The state that a call leaves behind *)

Lemma updateTransformer_after (s : KonvaSelection.t) :
  After.updateTransformer s
  = match transformer s with
    | None => s
    | Some tr =>
        if negb (isGroup s) then
          with_transformer
            (Some (Transformer.mk (Transformer.ref tr)
                                  (JsMap.first (nodes s)))) s
        else
          let '(g, s) := createBounding s in
          with_transformer
            (Some (Transformer.mk (Transformer.ref tr) (Some g))) s
    end.
Proof.
  unfold After.updateTransformer, updateTransformer.
  destruct (transformer s) as [tr|]; [|reflexivity].
  destruct (negb (isGroup s)).
  - destruct (JsMap.first (nodes s)); reflexivity.
  - destruct (createBounding s). reflexivity.
Qed.

Lemma add_after (node : NodeRef) (s : KonvaSelection.t) :
  After.add node s
  = if negb (JsMap.has (_id node) (nodes s)) then
      let s := with_nodes (JsMap.set (_id node) node (nodes s)) s in
      let s := next s in
      let s :=
        match transformer s with
        | None =>
            let '(tr, s) := createTransformer s in
            with_scene (Scene.add tr (scene s)) s
        | Some _ => s
        end in
      After.updateTransformer s
    else s.
Proof.
  unfold After.add, add, After.updateTransformer.
  destruct (negb (JsMap.has (_id node) (nodes s))); reflexivity.
Qed.

Lemma remove_after (node : NodeRef) (s : KonvaSelection.t) :
  After.remove node s
  = let s := with_nodes (JsMap.delete (_id node) (nodes s)) s in
    let s := next s in
    match transformer s with
    | Some _ => After.updateTransformer s
    | None => s
    end.
Proof.
  unfold After.remove, remove, After.updateTransformer. cbv zeta.
  destruct (transformer _); reflexivity.
Qed.

Lemma mousedown_after (target : EventTarget) (shiftKey : bool)
    (pointer : Vector2d.t) (s : KonvaSelection.t) :
  After.mousedown target shiftKey pointer s
  = let s :=
      match target with
      | OnStage =>
          let s := clear s in
          let s :=
            with_selectAttrs
              (SelectAttrs.mk (SelectAttrs.posStart (selectAttrs s))
                              (SelectAttrs.posNow (selectAttrs s)) true) s in
          let s :=
            match selectBox s with
            | None => snd (createSelectBox s)
            | Some _ => s
            end in
          startDrag pointer s
      | OnNode _ => s
      end in
    match target with
    | OnNode node =>
        if Attrs.hasName "entity" (Scene.attrs (scene s) node) then
          let s :=
            if negb shiftKey && negb (JsMap.has (_id node) (nodes s))
            then clear s else s in
          After.add node s
        else s
    | OnStage => s
    end.
Proof.
  unfold After.mousedown, mousedown, After.add. cbv zeta.
  destruct target as [|node]; [reflexivity|].
  destruct (Attrs.hasName "entity" (Scene.attrs (scene s) node));
    reflexivity.
Qed.

Lemma collisionCheck_after
    (getClientRect : ClientRectConfig.t -> NodeRef -> Attrs.t -> IRect.t)
    (selectBoxRect : IRect.t) (s : KonvaSelection.t) (node : NodeRef) :
  After.collisionCheck getClientRect selectBoxRect s node
  = if haveIntersection
         (clientRect getClientRect ClientRectConfig.default node s)
         selectBoxRect
       && Attrs.hasName "entity" (Scene.attrs (scene s) node)
    then After.add node s
    else After.remove node s.
Proof.
  unfold After.collisionCheck, collisionCheck, After.add, After.remove.
  destruct (_ && _); reflexivity.
Qed.

Lemma perform_after (op : Operation) (s : KonvaSelection.t) :
  After.perform op s
  = match op with
    | Add node => After.add node s
    | Remove node => After.remove node s
    | Clear => clear s
    end.
Proof. destruct op; reflexivity. Qed.

(** ** Which calls raise *)

Lemma outcome_cases {A : Type} (o : Outcome A) :
  o = Returned (stateOf o) \/ o = Raised (stateOf o).
Proof. destruct o; [left | right]; reflexivity. Qed.

Lemma set_not_nil (k : Z) (v : NodeRef) (m : JsMap.t NodeRef) :
  JsMap.set k v m <> [].
Proof.
  unfold JsMap.set. destruct (JsMap.has k m) eqn:E.
  - destruct m; [discriminate E | discriminate].
  - destruct m; discriminate.
Qed.

(** [updateTransformer] raises exactly when there is a transformer and
    nothing is selected. *)
Lemma updateTransformer_outcome (s : KonvaSelection.t) :
  updateTransformer s
  = match transformer s, nodes s with
    | Some _, [] => Raised (After.updateTransformer s)
    | _, _ => Returned (After.updateTransformer s)
    end.
Proof.
  unfold After.updateTransformer, updateTransformer.
  destruct (transformer s) as [tr|]; [|destruct (nodes s); reflexivity].
  unfold isGroup, JsMap.first, JsMap.values, JsMap.size.
  destruct (nodes s) as [|[k1 n1] [|[k2 n2] m]]; simpl; try reflexivity.
  match goal with
  | |- context [createBounding ?x] => destruct (createBounding x)
  end.
  reflexivity.
Qed.

Lemma updateTransformer_returns (s : KonvaSelection.t) :
  nodes s <> [] ->
  updateTransformer s = Returned (After.updateTransformer s).
Proof.
  intros Hn. rewrite updateTransformer_outcome.
  destruct (transformer s); destruct (nodes s); congruence.
Qed.

(** [add] never raises: when it attaches the transformer the selection
    holds the node that it has just inserted. *)
Lemma add_returns (node : NodeRef) (s : KonvaSelection.t) :
  add node s = Returned (After.add node s).
Proof.
  unfold After.add, add.
  destruct (negb (JsMap.has (_id node) (nodes s))); [|reflexivity].
  cbv zeta.
  match goal with
  | |- updateTransformer ?x = _ =>
      rewrite (updateTransformer_returns x); [reflexivity|]
  end.
  destruct (transformer (next _)); simpl; apply set_not_nil.
Qed.

(** [remove] raises exactly when there is a transformer and the
    selection is empty after the deletion. *)
Lemma remove_outcome (node : NodeRef) (s : KonvaSelection.t) :
  remove node s
  = match transformer s, JsMap.delete (_id node) (nodes s) with
    | Some _, [] => Raised (After.remove node s)
    | _, _ => Returned (After.remove node s)
    end.
Proof.
  unfold After.remove, remove. cbv zeta.
  cbn [transformer next with_selectionChange with_nodes].
  destruct (transformer s) as [tr|] eqn:Et.
  - rewrite updateTransformer_outcome.
    cbn [transformer nodes next with_selectionChange with_nodes].
    rewrite Et. destruct (JsMap.delete (_id node) (nodes s)); reflexivity.
  - destruct (JsMap.delete (_id node) (nodes s)); reflexivity.
Qed.

Lemma mousedown_returns (target : EventTarget) (shiftKey : bool)
    (pointer : Vector2d.t) (s : KonvaSelection.t) :
  mousedown target shiftKey pointer s
  = Returned (After.mousedown target shiftKey pointer s).
Proof.
  unfold After.mousedown, mousedown. cbv zeta.
  destruct target as [|node]; [reflexivity|].
  destruct (Attrs.hasName "entity" (Scene.attrs (scene s) node));
    [|reflexivity].
  rewrite add_returns. reflexivity.
Qed.

Lemma updateTransformer_same (s : KonvaSelection.t) :
  same_selection s (After.updateTransformer s).
Proof.
  rewrite updateTransformer_after.
  destruct (transformer s) as [tr|]; [|repeat split; reflexivity].
  destruct (negb (isGroup s)); [repeat split; reflexivity|].
  pose proof (createBounding_same s) as [H _].
  destruct (createBounding s) as [g s1]. simpl in *.
  unfold same_selection in *. simpl. exact H.
Qed.

Lemma updateTransformer_transformer (s : KonvaSelection.t) :
  transformer (After.updateTransformer s) = None <-> transformer s = None.
Proof.
  rewrite updateTransformer_after. destruct (transformer s) as [tr|] eqn:E.
  - destruct (negb (isGroup s)).
    + simpl. split; discriminate.
    + destruct (createBounding s) as [g s1]. simpl. split; discriminate.
  - rewrite E. tauto.
Qed.

Lemma add_present (node : NodeRef) (s : KonvaSelection.t) :
  JsMap.has (_id node) (nodes s) = true -> After.add node s = s.
Proof. intros H. rewrite add_after. rewrite H. reflexivity. Qed.

Lemma add_absent_selection (node : NodeRef) (s : KonvaSelection.t) :
  JsMap.has (_id node) (nodes s) = false ->
  nodes (After.add node s) = JsMap.set (_id node) node (nodes s) /\
  selectionChange (After.add node s) =
    selectionChange s ++ [JsMap.set (_id node) node (nodes s)] /\
  selectBox (After.add node s) = selectBox s /\
  selectAttrs (After.add node s) = selectAttrs s /\
  oldPosition (After.add node s) = oldPosition s.
Proof.
  intros H. rewrite add_after. rewrite H. simpl.
  match goal with
  | |- context [After.updateTransformer ?u] =>
      pose proof (updateTransformer_same u) as [Hn [Hc [Hb [Ha Ho]]]];
      rewrite Hn, Hc, Hb, Ha, Ho
  end.
  destruct (transformer s); simpl; repeat split; reflexivity.
Qed.

Lemma add_transformer (node : NodeRef) (s : KonvaSelection.t) :
  JsMap.has (_id node) (nodes s) = false -> transformer (After.add node s) <> None.
Proof.
  intros H Hnone. rewrite add_after in Hnone. rewrite H in Hnone. simpl in Hnone.
  apply (proj1 (updateTransformer_transformer _)) in Hnone.
  destruct (transformer s) eqn:E; simpl in Hnone; congruence.
Qed.

Lemma remove_selection (node : NodeRef) (s : KonvaSelection.t) :
  nodes (After.remove node s) = JsMap.delete (_id node) (nodes s) /\
  selectionChange (After.remove node s) =
    selectionChange s ++ [JsMap.delete (_id node) (nodes s)] /\
  selectBox (After.remove node s) = selectBox s /\
  selectAttrs (After.remove node s) = selectAttrs s /\
  oldPosition (After.remove node s) = oldPosition s.
Proof.
  rewrite remove_after. simpl. destruct (transformer s); simpl.
  - match goal with
    | |- context [After.updateTransformer ?u] =>
        pose proof (updateTransformer_same u) as [Hn [Hc [Hb [Ha Ho]]]];
        rewrite Hn, Hc, Hb, Ha, Ho
    end.
    simpl. repeat split; reflexivity.
  - repeat split; reflexivity.
Qed.

Lemma has_add (k : Z) (node : NodeRef) (s : KonvaSelection.t) :
  JsMap.has k (nodes (After.add node s))
  = JsMap.has k (nodes s) || Z.eqb k (_id node).
Proof.
  destruct (JsMap.has (_id node) (nodes s)) eqn:H.
  - rewrite add_present by exact H.
    destruct (Z.eqb_spec k (_id node)); [subst k; rewrite H|];
      rewrite ?orb_true_r, ?orb_false_r; reflexivity.
  - destruct (add_absent_selection node s H) as [Hn _].
    rewrite Hn. apply has_set.
Qed.

Lemma has_remove (k : Z) (node : NodeRef) (s : KonvaSelection.t) :
  JsMap.has k (nodes (After.remove node s))
  = JsMap.has k (nodes s) && negb (Z.eqb k (_id node)).
Proof.
  destruct (remove_selection node s) as [Hn _]. rewrite Hn.
  apply has_delete.
Qed.

(** ** The constructor *)

Lemma constructor_fold (l : list NodeRef) (s : KonvaSelection.t) :
  let s' :=
    fold_left
      (fun this node =>
         with_nodes (JsMap.set (_id node) node (nodes this)) this) l s in
  (forall k, JsMap.has k (nodes s')
             = JsMap.has k (nodes s) || existsb (Z.eqb k) l) /\
  (forall n, In n l -> JsMap.get (_id n) (nodes s') = Some n) /\
  selectionChange s' = selectionChange s /\
  transformer s' = transformer s /\
  scene s' = scene s.
Proof.
  revert s. induction l as [|n l IH]; intros s; simpl.
  - repeat split; try reflexivity.
    + intros k. rewrite orb_false_r. reflexivity.
    + intros n [].
  - specialize (IH (with_nodes (JsMap.set (_id n) n (nodes s)) s)).
    simpl in IH. destruct IH as [Hhas [Hget [Hc [Ht Hs]]]].
    repeat split; try assumption.
    + intros k. rewrite Hhas. simpl. rewrite has_set. unfold _id.
      rewrite orb_assoc. reflexivity.
    + intros n' [E | Hin].
      * subst n'. destruct (in_dec Z.eq_dec n l) as [Hin | Hnot].
        -- apply Hget. exact Hin.
        -- clear Hhas Hget Hc Ht Hs.
           assert (forall m : KonvaSelection.t,
                      ~ In n l ->
                      JsMap.get (_id n) (nodes (fold_left
                        (fun this node =>
                           with_nodes (JsMap.set (_id node) node (nodes this))
                                      this) l m))
                      = JsMap.get (_id n) (nodes m)) as Hkeep.
           { clear s Hnot. induction l as [|n0 l IHl]; intros m Hnot; simpl.
             - reflexivity.
             - rewrite IHl by (intros H; apply Hnot; right; exact H).
               simpl. apply get_set_other. unfold _id. intros E.
               apply Hnot. left. symmetry. exact E. }
           rewrite Hkeep by exact Hnot. simpl. apply get_set_same.
      * apply Hget. exact Hin.
Qed.

(** C10.  The constructor called with an array stores every node of the
    array under its [_id]; it pushes nothing through [selectionChange$],
    creates no transformer and leaves the scene as it is, whereas [add]
    on the constructed controller notifies and creates the transformer.
    Called with no array or with a value that is not an array it leaves
    the selection empty. *)
Theorem constructor_inserts_silently (sc : Scene.t) (l : list NodeRef) :
  let s := constructor sc (ArrayOf l) in
  (forall n, JsMap.has (_id n) (nodes s) = true <-> In n l) /\
  (forall n, In n l -> JsMap.get (_id n) (nodes s) = Some n) /\
  selectionChange s = [] /\
  transformer s = None /\
  scene s = sc /\
  nodes (constructor sc Undefined) = [] /\
  nodes (constructor sc NotAnArray) = [] /\
  (forall n, ~ In n l ->
     exists s',
       add n s = Returned s' /\
       selectionChange s' <> [] /\ transformer s' <> None).
Proof.
  intros s. unfold s, constructor.
  match goal with
  | |- context [fold_left ?f l ?s0] =>
      pose proof (constructor_fold l s0) as [Hhas [Hget [Hc [Ht Hs]]]]
  end.
  simpl in *.
  assert (forall n,
             JsMap.has (_id n)
               (nodes (fold_left
                  (fun this node =>
                     with_nodes (JsMap.set (_id node) node (nodes this)) this)
                  l (mk sc [] None None None
                        (SelectAttrs.mk None None false) [] None))) = true
             <-> In n l) as Hiff.
  { intros n. rewrite Hhas. simpl. rewrite existsb_exists. unfold _id. split.
    - intros [k [Hin E]]. apply Z.eqb_eq in E. subst k. exact Hin.
    - intros Hin. exists n. split; [exact Hin | apply Z.eqb_refl]. }
  repeat split; try assumption; try reflexivity; try apply Hiff.
  intros n Hn. eexists. split; [apply add_returns|]. split.
  - intros Hnil.
    assert (JsMap.has (_id n)
              (nodes (fold_left
                 (fun this node =>
                    with_nodes (JsMap.set (_id node) node (nodes this)) this)
                 l (mk sc [] None None None
                       (SelectAttrs.mk None None false) [] None))) = false)
      as Habs.
    { destruct (JsMap.has _ _) eqn:E; [|reflexivity].
      apply Hiff in E. contradiction. }
    destruct (add_absent_selection n _ Habs) as [_ [Hchg _]].
    rewrite Hchg in Hnil. destruct (selectionChange _); discriminate.
  - apply add_transformer.
    destruct (JsMap.has _ _) eqn:E; [|reflexivity].
    apply Hiff in E. contradiction.
Qed.

Lemma constructor_inserts_silently_witness :
  let s := constructor demoScene (ArrayOf [1; 2]%Z) in
  In 2%Z [1; 2]%Z /\
  JsMap.get (_id 2%Z) (nodes s) = Some 2%Z /\
  ~ In 3%Z [1; 2]%Z /\
  exists s',
    add 3%Z s = Returned s' /\
    selectionChange s' <> [] /\ transformer s' <> None.
Proof.
  intros s.
  assert (In 2%Z [1; 2]%Z) as Hin by (simpl; tauto).
  assert (~ In 3%Z [1; 2]%Z) as Hnot
      by (simpl; intros [H | [H | H]]; try discriminate; exact H).
  destruct (constructor_inserts_silently demoScene [1; 2]%Z)
    as [_ [Hget [_ [_ [_ [_ [_ Hadd]]]]]]].
  split; [exact Hin|]. split; [exact (Hget 2%Z Hin)|].
  split; [exact Hnot|]. exact (Hadd 3%Z Hnot).
Defined.

(** ** Change notifications *)

(** C2, as the code has it.  [add e] with [e] absent returns, inserts
    [e], grows the size by one and pushes the new map once; [add e] with
    [e] present changes nothing and pushes nothing; [remove e] with [e]
    present deletes [e] and pushes the new map once; [remove e] with
    [e] absent leaves the map as it is and still pushes it once.  What
    is said of [remove] holds of the state that it leaves, whether it
    returns or raises in [attachTo] afterwards. *)
Theorem change_notifications (e : NodeRef) (s : KonvaSelection.t) :
  (JsMap.has (_id e) (nodes s) = false ->
     exists s',
       add e s = Returned s' /\
       JsMap.has (_id e) (nodes s') = true /\
       JsMap.size (nodes s') = S (JsMap.size (nodes s)) /\
       selectionChange s' = selectionChange s ++ [nodes s']) /\
  (JsMap.has (_id e) (nodes s) = true -> add e s = Returned s) /\
  (JsMap.has (_id e) (nodes s) = true ->
     let s' := stateOf (remove e s) in
     JsMap.has (_id e) (nodes s') = false /\
     (forall k, k <> _id e ->
        JsMap.has k (nodes s') = JsMap.has k (nodes s)) /\
     selectionChange s' = selectionChange s ++ [nodes s']) /\
  (JsMap.has (_id e) (nodes s) = false ->
     let s' := stateOf (remove e s) in
     nodes s' = nodes s /\
     selectionChange s' = selectionChange s ++ [nodes s]).
Proof.
  change (stateOf (remove e s)) with (After.remove e s).
  split; [|split; [|split]].
  - intros Habs. exists (After.add e s). split; [apply add_returns|].
    destruct (add_absent_selection e s Habs) as [Hn [Hc _]].
    rewrite Hn, Hc. split; [|split].
    + rewrite has_set, Z.eqb_refl. apply orb_true_r.
    + apply size_set_absent. exact Habs.
    + reflexivity.
  - intros Hpres. rewrite add_returns, add_present by exact Hpres.
    reflexivity.
  - intros Hpres. cbv zeta.
    destruct (remove_selection e s) as [Hn [Hc _]].
    rewrite Hn, Hc. split; [|split].
    + rewrite has_delete, Z.eqb_refl. apply andb_false_r.
    + intros k Hk. rewrite has_delete.
      destruct (Z.eqb_spec k (_id e)); [contradiction|].
      apply andb_true_r.
    + reflexivity.
  - intros Habs. cbv zeta.
    destruct (remove_selection e s) as [Hn [Hc _]].
    rewrite Hn, Hc, delete_absent by exact Habs.
    split; reflexivity.
Qed.

Lemma change_notifications_witness :
  let s0 := constructor demoScene Undefined in
  let s1 := stateOf (add 1%Z s0) in
  (JsMap.has (_id 1%Z) (nodes s0) = false /\
   exists s',
     add 1%Z s0 = Returned s' /\
     selectionChange s' = selectionChange s0 ++ [nodes s']) /\
  (JsMap.has (_id 1%Z) (nodes s1) = true /\ add 1%Z s1 = Returned s1) /\
  (JsMap.has (_id 1%Z) (nodes s1) = true /\
   selectionChange (stateOf (remove 1%Z s1))
   = selectionChange s1 ++ [nodes (stateOf (remove 1%Z s1))]) /\
  (JsMap.has (_id 2%Z) (nodes s1) = false /\
   selectionChange (stateOf (remove 2%Z s1)) = selectionChange s1 ++ [nodes s1]).
Proof.
  intros s0 s1.
  assert (JsMap.has (_id 1%Z) (nodes s0) = false) as H0 by reflexivity.
  assert (JsMap.has (_id 1%Z) (nodes s1) = true) as H1 by reflexivity.
  assert (JsMap.has (_id 2%Z) (nodes s1) = false) as H2 by reflexivity.
  destruct (change_notifications 1%Z s0) as [Ha _].
  destruct (change_notifications 1%Z s1) as [_ [Hb [Hc _]]].
  destruct (change_notifications 2%Z s1) as [_ [_ [_ Hd]]].
  split.
  { split; [exact H0|]. destruct (Ha H0) as [s' [E [_ [_ Hs']]]].
    exists s'. split; [exact E | exact Hs']. }
  split; [split; [exact H1 | exact (Hb H1)]|].
  split; [split; [exact H1 | exact (proj2 (proj2 (Hc H1)))]|].
  split; [exact H2 | exact (proj2 (Hd H2))].
Defined.

(** C2 as stated fails: [remove] of a node that is not selected returns
    and still pushes a notification. *)
Lemma remove_absent_notifies :
  let s0 := constructor demoScene Undefined in
  let s' := stateOf (remove 1%Z s0) in
  JsMap.has (_id 1%Z) (nodes s0) = false /\
  remove 1%Z s0 = Returned s' /\
  nodes s' = nodes s0 /\
  selectionChange s0 = [] /\
  selectionChange s' = [[]].
Proof. cbv zeta. repeat split; reflexivity. Qed.

(** ** The transformer *)


(** ** How the scene grows *)

Lemma addClone_fold_frame (l : list NodeRef) (clones : list NodeRef)
    (sc : Scene.t) :
  let sc' := snd (fold_left addClone l (clones, sc)) in
  (Scene.idCounter sc <= Scene.idCounter sc')%Z /\
  (forall k, (k < Scene.idCounter sc)%Z ->
     Scene.attrs sc' k = Scene.attrs sc k) /\
  Scene.children sc' = Scene.children sc.
Proof.
  revert clones sc. induction l as [|n l IH]; intros clones sc; simpl.
  - split; [lia|]. split; reflexivity.
  - match goal with
    | |- context [fold_left addClone l (?c, ?x)] =>
        specialize (IH c x); simpl in IH; destruct IH as [Hc [Ha Hch]]
    end.
    split; [lia|]. split.
    + intros k Hk. rewrite Ha by lia. unfold upd.
      destruct (Z.eqb_spec k (Scene.idCounter sc)); [lia|reflexivity].
    + rewrite Hch. reflexivity.
Qed.

Lemma scene_grows_refl (s : KonvaSelection.t) : scene_grows s s.
Proof.
  unfold scene_grows. split; [lia|]. split; [reflexivity|].
  split; [intros k H; left; exact H | intros k H _ _; exact H].
Qed.

Lemma scene_grows_trans (s1 s2 s3 : KonvaSelection.t) :
  scene_grows s1 s2 -> scene_grows s2 s3 -> scene_grows s1 s3.
Proof.
  intros [Hc [Ha [Hn Hk]]] [Hc' [Ha' [Hn' Hk']]].
  unfold scene_grows. split; [lia|]. split; [|split].
  - intros k Hlt. rewrite Ha' by lia. apply Ha. exact Hlt.
  - intros k Hin. destruct (Hn' k Hin) as [H2 | [Hr He]].
    + destruct (Hn k H2) as [H1 | [Hr He]]; [left; exact H1|].
      right. split; [lia|]. unfold isEntity in *.
      rewrite Ha' by lia. exact He.
    + right. split; [lia | exact He].
  - intros k Hin Hlt He. apply Hk'.
    + apply Hk; assumption.
    + lia.
    + unfold isEntity in *. rewrite Ha by exact Hlt. exact He.
Qed.

Lemma scene_grows_ext (s1 s1' s2 s2' : KonvaSelection.t) :
  scene s1' = scene s1 -> scene s2' = scene s2 ->
  scene_grows s1 s2 -> scene_grows s1' s2'.
Proof.
  unfold scene_grows, isEntity, idCounterOf, attrsOf, childrenOf.
  intros E1 E2. rewrite E1, E2. tauto.
Qed.

(** The nodes of the controller stay in order when the scene grows and
    the controller keeps referring to the same nodes. *)
Lemma owned_ok_grows (s s' : KonvaSelection.t) :
  scene_grows s s' -> bounding s' = bounding s ->
  option_map Transformer.ref (transformer s')
  = option_map Transformer.ref (transformer s) ->
  owned_ok s -> owned_ok s'.
Proof.
  intros [Hc [Ha _]] Hb Ht [Hbo Hto]. split.
  - intros b Eb. rewrite Hb in Eb. destruct (Hbo b Eb) as [Hlt He].
    split; [unfold idCounterOf in *; lia|].
    unfold isEntity in *. rewrite Ha by exact Hlt. exact He.
  - intros tr' Et. rewrite Et in Ht.
    destruct (transformer s) as [tr|] eqn:E; [|discriminate].
    simpl in Ht. injection Ht as Ht. rewrite Ht.
    destruct (Hto tr E) as [Hlt He].
    split; [unfold idCounterOf in *; lia|].
    unfold isEntity in *. rewrite Ha by exact Hlt. exact He.
Qed.

Lemma owned_ok_ext (s s' : KonvaSelection.t) :
  scene s' = scene s -> bounding s' = bounding s ->
  option_map Transformer.ref (transformer s')
  = option_map Transformer.ref (transformer s) ->
  owned_ok s -> owned_ok s'.
Proof.
  intros Es Eb Et. apply owned_ok_grows; try assumption.
  eapply scene_grows_ext; [reflexivity | exact Es | apply scene_grows_refl].
Qed.

Lemma in_destroy (k node : NodeRef) (sc : Scene.t) :
  In k (Scene.children (Scene.destroy node sc)) <->
  In k (Scene.children sc) /\ k <> node.
Proof.
  unfold Scene.destroy. simpl. rewrite filter_In, negb_true_iff, Z.eqb_neq.
  tauto.
Qed.

Lemma createBounding_grows (s : KonvaSelection.t) :
  owned_ok s ->
  scene_grows s (snd (createBounding s)) /\
  owned_ok (snd (createBounding s)).
Proof.
  intros [Hok Htr].
  assert (scene_grows s (snd (createBounding s)) /\
          bounding_ok (snd (createBounding s))) as [Hg Hb].
  { unfold createBounding.
    set (s0 := match bounding s with
               | Some b => with_scene (Scene.destroy (Group.ref b) (scene s)) s
               | None => s
               end).
    assert (Scene.idCounter (scene s0) = Scene.idCounter (scene s)) as Hc0
        by (unfold s0; destruct (bounding s); reflexivity).
    assert (Scene.attrs (scene s0) = Scene.attrs (scene s)) as Ha0
        by (unfold s0; destruct (bounding s); reflexivity).
    assert (forall k, In k (Scene.children (scene s0)) ->
                      In k (Scene.children (scene s))) as Hsub.
    { unfold s0. destruct (bounding s); simpl; [|tauto].
      intros k Hk. apply in_destroy in Hk. tauto. }
    assert (forall k, In k (Scene.children (scene s)) ->
                      isEntity s k = true ->
                      In k (Scene.children (scene s0))) as Hkeep.
    { unfold s0. destruct (bounding s) as [b|] eqn:Eb; simpl; [|tauto].
      intros k Hk He. apply in_destroy. split; [exact Hk|].
      intros E. subst k. destruct (Hok b Eb) as [_ Hne]. congruence. }
    simpl.
    pose proof (addClone_fold_frame (JsMap.values (nodes s0)) []
                  (Scene.mk (Scene.idCounter (scene s0) + 1)
                            (upd (Scene.attrs (scene s0))
                                 (Scene.idCounter (scene s0)) Attrs.empty)
                            (Scene.children (scene s0)))) as Hfold.
    destruct (fold_left addClone (JsMap.values (nodes s0)) _) as [clones sc'].
    simpl in Hfold. destruct Hfold as [Hc [Ha Hch]].
    unfold scene_grows, bounding_ok, isEntity, idCounterOf, attrsOf,
      childrenOf.
    simpl.
    assert (Scene.attrs sc' (Scene.idCounter (scene s)) = Attrs.empty) as Hg.
    { rewrite Ha by lia. unfold upd. rewrite Hc0, Z.eqb_refl. reflexivity. }
    split; [split; [lia|split; [|split]]|].
    - intros k Hk. unfold upd. rewrite Hc0.
      destruct (Z.eqb_spec k (Scene.idCounter (scene s))); [lia|].
      rewrite Ha by lia. unfold upd.
      destruct (Z.eqb_spec k (Scene.idCounter (scene s0))); [lia|].
      rewrite Ha0. reflexivity.
    - intros k Hk. rewrite Hch in Hk. simpl in Hk.
      apply in_app_or in Hk. destruct Hk as [Hk | [Hk | []]].
      + left. apply Hsub. exact Hk.
      + right. subst k. rewrite Hc0. split; [lia|].
        unfold upd. rewrite Z.eqb_refl, Hg. reflexivity.
    - intros k Hk _ He. rewrite Hch. simpl. apply in_or_app. left.
      apply Hkeep; assumption.
    - intros b Eb. injection Eb as Eb. subst b. simpl. rewrite Hc0.
      split; [lia|]. unfold upd. rewrite Z.eqb_refl, Hg. reflexivity. }
  split; [exact Hg|]. split; [exact Hb|].
  destruct (createBounding_same s) as [_ Ht].
  intros tr Et. rewrite Ht in Et. destruct (Htr tr Et) as [Hlt He].
  destruct Hg as [Hc [Ha _]]. split; [lia|].
  unfold isEntity in *. rewrite Ha by exact Hlt. exact He.
Qed.

Lemma updateTransformer_grows (s : KonvaSelection.t) :
  owned_ok s ->
  scene_grows s (After.updateTransformer s) /\ owned_ok (After.updateTransformer s).
Proof.
  intros Hok. rewrite updateTransformer_after; cbv zeta.
  destruct (transformer s) as [tr|] eqn:Et;
    [|split; [apply scene_grows_refl|exact Hok]].
  destruct (negb (isGroup s)).
  - split.
    + eapply scene_grows_ext; [reflexivity | | apply scene_grows_refl].
      reflexivity.
    + eapply owned_ok_ext; [| | |exact Hok]; try reflexivity.
      simpl. rewrite Et. reflexivity.
  - destruct (createBounding_grows s Hok) as [Hg Hb].
    destruct (createBounding_same s) as [_ Ht].
    destruct (createBounding s) as [g s1]. simpl in *. split.
    + eapply scene_grows_ext; [reflexivity | | exact Hg]. reflexivity.
    + eapply owned_ok_ext; [| | |exact Hb]; try reflexivity.
      simpl. rewrite Ht, Et. reflexivity.
Qed.

(** [this.layer.add(this.createTransformer())] when there is no
    transformer. *)
Lemma createTransformer_grows (s : KonvaSelection.t) :
  transformer s = None -> owned_ok s ->
  let s' := with_scene (Scene.add (fst (createTransformer s))
                                  (scene (snd (createTransformer s))))
                       (snd (createTransformer s)) in
  scene_grows s s' /\ owned_ok s'.
Proof.
  intros Et [Hbo _]. unfold createTransformer. simpl.
  assert (forall k, (k < Scene.idCounter (scene s))%Z ->
            upd (Scene.attrs (scene s)) (Scene.idCounter (scene s))
                Attrs.empty k = Scene.attrs (scene s) k) as Hupd.
  { intros k Hk. unfold upd.
    destruct (Z.eqb_spec k (Scene.idCounter (scene s))); [lia|reflexivity]. }
  split; [|split].
  - unfold scene_grows, isEntity, idCounterOf, attrsOf, childrenOf. simpl.
    split; [lia|]. split; [exact Hupd|]. split.
    + intros k Hk. apply in_app_or in Hk. destruct Hk as [Hk | [Hk | []]].
      * left. exact Hk.
      * right. subst k. split; [lia|]. unfold upd. rewrite Z.eqb_refl.
        reflexivity.
    + intros k Hk _ _. apply in_or_app. left. exact Hk.
  - intros b Eb. simpl in Eb. destruct (Hbo b Eb) as [Hlt He].
    unfold isEntity, idCounterOf, attrsOf in *. simpl.
    split; [lia|]. rewrite Hupd by exact Hlt. exact He.
  - intros tr Etr. simpl in Etr. injection Etr as Etr. subst tr.
    unfold isEntity, idCounterOf, attrsOf. simpl. split; [lia|].
    unfold upd. rewrite Z.eqb_refl. reflexivity.
Qed.

Lemma add_grows (node : NodeRef) (s : KonvaSelection.t) :
  owned_ok s ->
  scene_grows s (After.add node s) /\ owned_ok (After.add node s).
Proof.
  intros Hok. rewrite add_after; cbv zeta.
  destruct (negb (JsMap.has (_id node) (nodes s)));
    [|split; [apply scene_grows_refl | exact Hok]].
  set (s1 := next (with_nodes (JsMap.set (_id node) node (nodes s)) s)).
  assert (scene s1 = scene s) as Hs1 by reflexivity.
  assert (owned_ok s1) as Hok1
      by (eapply owned_ok_ext; [exact Hs1 | | | exact Hok]; reflexivity).
  destruct (transformer s1) as [tr|] eqn:Et.
  - destruct (updateTransformer_grows s1 Hok1) as [Hg Hb]. split.
    + eapply scene_grows_ext; [exact Hs1 | reflexivity | exact Hg].
    + exact Hb.
  - pose proof (createTransformer_grows s1 Et Hok1) as [Hg2 Hok3].
    destruct (createTransformer s1) as [tr s2]. simpl in Hg2, Hok3.
    set (s3 := with_scene (Scene.add tr (scene s2)) s2) in *.
    destruct (updateTransformer_grows s3 Hok3) as [Hg Hb]. split.
    + eapply scene_grows_ext; [exact Hs1 | reflexivity |].
      eapply scene_grows_trans; [exact Hg2 | exact Hg].
    + exact Hb.
Qed.

Lemma remove_grows (node : NodeRef) (s : KonvaSelection.t) :
  owned_ok s ->
  scene_grows s (After.remove node s) /\ owned_ok (After.remove node s).
Proof.
  intros Hok. rewrite remove_after; cbv zeta.
  set (s1 := next (with_nodes (JsMap.delete (_id node) (nodes s)) s)).
  assert (scene s1 = scene s) as Hs1 by reflexivity.
  assert (owned_ok s1) as Hok1
      by (eapply owned_ok_ext; [exact Hs1 | | | exact Hok]; reflexivity).
  destruct (transformer s1) as [tr|].
  - destruct (updateTransformer_grows s1 Hok1) as [Hg Hb]. split.
    + eapply scene_grows_ext; [exact Hs1 | reflexivity | exact Hg].
    + exact Hb.
  - split; [|exact Hok1].
    eapply scene_grows_ext; [reflexivity | exact Hs1 | apply scene_grows_refl].
Qed.

(** ** Entities of the working layer *)

Lemma existsb_eqb_In (k : Z) (l : list Z) :
  existsb (Z.eqb k) l = true <-> In k l.
Proof.
  rewrite existsb_exists. split.
  - intros [x [Hin E]]. apply Z.eqb_eq in E. subst x. exact Hin.
  - intros Hin. exists k. split; [exact Hin | apply Z.eqb_refl].
Qed.

Lemma same_entities_refl (s : KonvaSelection.t) : same_entities s s.
Proof. intros k. split; [tauto | reflexivity]. Qed.

Lemma same_entities_trans (s1 s2 s3 : KonvaSelection.t) :
  same_entities s1 s2 -> same_entities s2 s3 -> same_entities s1 s3.
Proof.
  intros H12 H23 k. destruct (H12 k) as [Hiff Hat].
  destruct (H23 k) as [Hiff' Hat']. split; [tauto|].
  intros Hk He. rewrite Hat' by tauto. apply Hat; assumption.
Qed.

(** [clear] keeps a state well formed and keeps the entities. *)
Lemma clear_well_formed (s : KonvaSelection.t) :
  well_formed s ->
  well_formed (clear s) /\ nodes (clear s) = [] /\ same_entities s (clear s).
Proof.
  intros [Hlt [[Hbo Hto] [Hsb Hbox]]]. unfold clear.
  destruct (transformer s) as [tr|] eqn:Et.
  - split; [|split; [reflexivity|]].
    + unfold well_formed, owned_ok, bounding_ok, transformer_ok, isEntity,
        isSelectBoxId, idCounterOf, attrsOf, childrenOf in *. simpl.
      split; [|split; [split|split]].
      * intros k Hk. apply in_destroy in Hk. apply Hlt. tauto.
      * exact Hbo.
      * intros tr' E. discriminate.
      * intros k Hk. apply in_destroy in Hk. apply Hsb. tauto.
      * exact Hbox.
    + intros k. unfold isEntity, attrsOf, childrenOf.
      cbn [scene with_nodes with_transformer with_scene].
      split; [|reflexivity]. rewrite in_destroy.
      change (Scene.attrs (Scene.destroy (Transformer.ref tr) (scene s)))
        with (Scene.attrs (scene s)).
      split; [tauto|].
      intros [Hk He]. split; [split; [exact Hk|]|exact He].
      intros E. subst k. destruct (Hto tr Et) as [_ Hne].
      unfold isEntity, attrsOf in Hne. congruence.
  - split; [|split; [reflexivity | exact (same_entities_refl s)]].
    split; [exact Hlt|]. split; [split; [exact Hbo|]|split; assumption].
    intros tr E. simpl in E. congruence.
Qed.

(** ** The collision check loop *)

Section Marquee.

Variable getClientRect :
  ClientRectConfig.t -> NodeRef -> Attrs.t -> IRect.t.

Lemma hit_grows (rect : IRect.t) (s0 s : KonvaSelection.t) (k : NodeRef) :
  scene_grows s0 s -> (k < idCounterOf s0)%Z ->
  hit getClientRect rect s k = hit getClientRect rect s0 k.
Proof.
  intros [_ [Ha _]] Hk. unfold hit, clientRect, isEntity.
  unfold attrsOf in *. rewrite (Ha k Hk). reflexivity.
Qed.

Lemma collisionCheck_loop (rect : IRect.t) (l : list NodeRef)
    (s0 s : KonvaSelection.t) :
  (forall k, In k l -> (k < idCounterOf s0)%Z) ->
  scene_grows s0 s -> owned_ok s ->
  let s' := fold_left (After.collisionCheck getClientRect rect) l s in
  scene_grows s0 s' /\ owned_ok s' /\
  (forall k, JsMap.has k (nodes s')
             = if existsb (Z.eqb k) l then hit getClientRect rect s0 k
               else JsMap.has k (nodes s)) /\
  selectBox s' = selectBox s /\ selectAttrs s' = selectAttrs s.
Proof.
  revert s. induction l as [|n l IH]; intros s Hl Hg Hok; simpl.
  - split; [exact Hg|]. split; [exact Hok|].
    split; [intros k; reflexivity|]. split; reflexivity.
  - assert (n < idCounterOf s0)%Z as Hn by (apply Hl; left; reflexivity).
    assert (forall k, In k l -> (k < idCounterOf s0)%Z) as Hl'
        by (intros k Hk; apply Hl; right; exact Hk).
    set (s1 := After.collisionCheck getClientRect rect s n).
    assert (scene_grows s s1 /\ owned_ok s1 /\
            (forall k, JsMap.has k (nodes s1)
                       = if hit getClientRect rect s0 n
                         then JsMap.has k (nodes s) || Z.eqb k n
                         else JsMap.has k (nodes s) && negb (Z.eqb k n)) /\
            selectBox s1 = selectBox s /\ selectAttrs s1 = selectAttrs s)
      as [Hg1 [Hok1 [Hhas1 [Hbox1 Hsel1]]]].
    { unfold s1. rewrite collisionCheck_after.
      change (haveIntersection
                (clientRect getClientRect ClientRectConfig.default n s) rect
              && Attrs.hasName "entity" (Scene.attrs (scene s) n))
        with (hit getClientRect rect s n).
      rewrite (hit_grows rect s0 s n Hg Hn).
      destruct (hit getClientRect rect s0 n).
      - destruct (add_grows n s Hok) as [Ha Hb].
        split; [exact Ha|]. split; [exact Hb|].
        split; [intros k; apply has_add|].
        destruct (JsMap.has (_id n) (nodes s)) eqn:E.
        + rewrite add_present by exact E. split; reflexivity.
        + destruct (add_absent_selection n s E) as [_ [_ [H1 [H2 _]]]].
          split; assumption.
      - destruct (remove_grows n s Hok) as [Ha Hb].
        split; [exact Ha|]. split; [exact Hb|].
        split; [intros k; apply has_remove|].
        destruct (remove_selection n s) as [_ [_ [H1 [H2 _]]]].
        split; assumption. }
    specialize (IH s1 Hl' (scene_grows_trans _ _ _ Hg Hg1) Hok1).
    simpl in IH. destruct IH as [Hg' [Hok' [Hhas' [Hbox' Hsel']]]].
    split; [exact Hg'|]. split; [exact Hok'|].
    split; [|split; congruence].
    intros k. rewrite Hhas', Hhas1.
    destruct (Z.eqb_spec k n) as [E | E]; simpl.
    + subst k. destruct (existsb (Z.eqb n) l); [reflexivity|].
      destruct (hit getClientRect rect s0 n);
        rewrite ?orb_true_r, ?andb_false_r; reflexivity.
    + destruct (existsb (Z.eqb k) l); [reflexivity|].
      destruct (hit getClientRect rect s0 n);
        rewrite ?orb_false_r, ?andb_true_r; reflexivity.
Qed.

(** A loop that has raised does not go on. *)
Lemma collisionLoop_raised_start (rect : IRect.t) (l : list NodeRef)
    (s : KonvaSelection.t) :
  fold_left
    (fun o node =>
       andThen o (fun s => collisionCheck getClientRect rect s node))
    l (Raised s)
  = Raised s.
Proof. induction l as [|n l IH]; simpl; [reflexivity | exact IH]. Qed.

Lemma collisionLoop_cons (rect : IRect.t) (n : NodeRef) (l : list NodeRef)
    (s : KonvaSelection.t) :
  collisionLoop getClientRect rect (n :: l) s
  = andThen (collisionCheck getClientRect rect s n)
            (collisionLoop getClientRect rect l).
Proof.
  unfold collisionLoop. simpl.
  destruct (collisionCheck getClientRect rect s n) as [s1|s1]; simpl.
  - reflexivity.
  - apply collisionLoop_raised_start.
Qed.

(** The loop leaves the state that its iterations leave one after the
    other, up to and including the one that raises. *)
Lemma collisionLoop_prefix (rect : IRect.t) (l : list NodeRef)
    (s : KonvaSelection.t) :
  exists l1 l2,
    l = l1 ++ l2 /\
    stateOf (collisionLoop getClientRect rect l s)
    = fold_left (After.collisionCheck getClientRect rect) l1 s /\
    (forall s', collisionLoop getClientRect rect l s = Returned s' ->
                l2 = []).
Proof.
  revert s. induction l as [|n l IH]; intros s.
  - exists [], []. repeat split; reflexivity.
  - rewrite collisionLoop_cons.
    destruct (collisionCheck getClientRect rect s n) as [s1|s1] eqn:E1;
      simpl.
    + destruct (IH s1) as [l1 [l2 [El [Hst Hret]]]].
      exists (n :: l1), l2. split; [rewrite El; reflexivity|].
      split; [|exact Hret].
      simpl. unfold After.collisionCheck at 2. rewrite E1. exact Hst.
    + exists [n], l. split; [reflexivity|].
      split; [|discriminate].
      simpl. unfold After.collisionCheck. rewrite E1. reflexivity.
Qed.

(** An iteration raises only in [remove], with a transformer and
    nothing left in the selection. *)
Lemma updateTransformer_raised (s s' : KonvaSelection.t) :
  updateTransformer s = Raised s' ->
  nodes s = [] /\ nodes s' = [] /\
  exists tr, transformer s' = Some tr /\ Transformer._node tr = None.
Proof.
  rewrite updateTransformer_outcome.
  destruct (transformer s) as [tr|] eqn:Et; [|discriminate].
  destruct (nodes s) as [|e m] eqn:En; [|discriminate].
  intros E. injection E as <-.
  rewrite updateTransformer_after; cbv zeta. rewrite Et.
  unfold isGroup. rewrite En. simpl.
  split; [reflexivity|]. split; [exact En|].
  eexists. split; reflexivity.
Qed.

Lemma remove_raised (node : NodeRef) (s s' : KonvaSelection.t) :
  remove node s = Raised s' ->
  transformer s <> None /\
  JsMap.delete (_id node) (nodes s) = [] /\
  nodes s' = [] /\
  exists tr, transformer s' = Some tr /\ Transformer._node tr = None.
Proof.
  unfold remove. cbv zeta.
  cbn [transformer next with_selectionChange with_nodes].
  destruct (transformer s) as [tr|] eqn:Et; [|discriminate].
  intros E. apply updateTransformer_raised in E.
  destruct E as [Hn [Hn' Htr]]. simpl in Hn.
  split; [discriminate|]. split; [exact Hn|]. split; assumption.
Qed.

Lemma collisionCheck_raised (rect : IRect.t) (s s' : KonvaSelection.t)
    (n : NodeRef) :
  collisionCheck getClientRect rect s n = Raised s' ->
  hit getClientRect rect s n = false /\
  transformer s <> None /\
  nodes s' = [] /\
  exists tr, transformer s' = Some tr /\ Transformer._node tr = None.
Proof.
  unfold collisionCheck, hit, isEntity, attrsOf.
  destruct (_ && _).
  - rewrite add_returns. discriminate.
  - intros E. apply remove_raised in E. split; [reflexivity|]. tauto.
Qed.

Lemma collisionLoop_raised (rect : IRect.t) (l : list NodeRef)
    (s s' : KonvaSelection.t) :
  collisionLoop getClientRect rect l s = Raised s' ->
  nodes s' = [] /\
  exists tr, transformer s' = Some tr /\ Transformer._node tr = None.
Proof.
  revert s. induction l as [|n l IH]; intros s E; [discriminate|].
  rewrite collisionLoop_cons in E.
  destruct (collisionCheck getClientRect rect s n) as [s1|s1] eqn:E1;
    simpl in E.
  - exact (IH s1 E).
  - injection E as <-. apply collisionCheck_raised in E1. tauto.
Qed.

(** The loop returns when no iteration can empty the selection: nothing
    is selected and there is no transformer, or every selected node
    passes the test of the loop. *)
Lemma collisionLoop_returns (rect : IRect.t) (l : list NodeRef)
    (s0 s : KonvaSelection.t) :
  (forall k, In k l -> (k < idCounterOf s0)%Z) ->
  scene_grows s0 s -> owned_ok s ->
  (transformer s = None /\ nodes s = []) \/
  (nodes s <> [] /\
   forall k, JsMap.has k (nodes s) = true ->
             hit getClientRect rect s0 k = true) ->
  collisionLoop getClientRect rect l s
  = Returned (fold_left (After.collisionCheck getClientRect rect) l s).
Proof.
  revert s. induction l as [|n l IH]; intros s Hl Hg Hok Hsafe;
    [reflexivity|].
  assert (n < idCounterOf s0)%Z as Hn by (apply Hl; left; reflexivity).
  assert (forall k, In k l -> (k < idCounterOf s0)%Z) as Hl'
      by (intros k Hk; apply Hl; right; exact Hk).
  rewrite collisionLoop_cons.
  assert (collisionCheck getClientRect rect s n
          = Returned (After.collisionCheck getClientRect rect s n) /\
          scene_grows s (After.collisionCheck getClientRect rect s n) /\
          owned_ok (After.collisionCheck getClientRect rect s n) /\
          ((transformer (After.collisionCheck getClientRect rect s n) = None
            /\ nodes (After.collisionCheck getClientRect rect s n) = [])
           \/ (nodes (After.collisionCheck getClientRect rect s n) <> []
               /\ forall k,
                    JsMap.has k
                      (nodes (After.collisionCheck getClientRect rect s n))
                    = true ->
                    hit getClientRect rect s0 k = true)))
    as [E1 [Hg1 [Hok1 Hsafe1]]].
  { rewrite collisionCheck_after. unfold collisionCheck.
    change (haveIntersection
              (clientRect getClientRect ClientRectConfig.default n s) rect
            && Attrs.hasName "entity" (Scene.attrs (scene s) n))
      with (hit getClientRect rect s n).
    rewrite (hit_grows rect s0 s n Hg Hn).
    destruct (hit getClientRect rect s0 n) eqn:Ehit.
    - destruct (add_grows n s Hok) as [Ha Hb].
      split; [apply add_returns|]. split; [exact Ha|]. split; [exact Hb|].
      right. split.
      + intros Hnil.
        assert (JsMap.has (_id n) (nodes (After.add n s)) = true) as H
            by (rewrite has_add, Z.eqb_refl; apply orb_true_r).
        rewrite Hnil in H. discriminate.
      + intros k Hk. rewrite has_add in Hk.
        apply orb_true_iff in Hk. destruct Hk as [Hk | Hk].
        * destruct Hsafe as [[_ Hnil] | [_ Hall]];
            [rewrite Hnil in Hk; discriminate | exact (Hall k Hk)].
        * apply Z.eqb_eq in Hk. subst k. exact Ehit.
    - destruct (remove_grows n s Hok) as [Ha Hb].
      destruct (remove_selection n s) as [Hnodes _].
      assert (JsMap.delete (_id n) (nodes s) = nodes s) as Hdel.
      { destruct Hsafe as [[_ Hnil] | [_ Hall]].
        - rewrite Hnil. reflexivity.
        - apply delete_absent.
          destruct (JsMap.has (_id n) (nodes s)) eqn:Eh; [|reflexivity].
          pose proof (Hall _ Eh) as Hh. unfold _id in Hh. congruence. }
      split.
      { rewrite remove_outcome, Hdel.
        destruct Hsafe as [[Ht Hnil] | [Hne _]].
        - rewrite Ht. reflexivity.
        - destruct (transformer s); destruct (nodes s);
            try reflexivity; contradiction. }
      split; [exact Ha|]. split; [exact Hb|].
      rewrite Hnodes, Hdel.
      destruct Hsafe as [[Ht Hnil] | [Hne Hall]].
      + left. split; [|exact Hnil].
        rewrite remove_after; cbv zeta. simpl. rewrite Ht. exact Ht.
      + right. split; assumption. }
  rewrite E1. simpl.
  apply IH; [exact Hl' | | exact Hok1 | exact Hsafe1].
  eapply scene_grows_trans; eassumption.
Qed.

(** One pointer move of a marquee in progress.  The state that it
    leaves is again a state of the marquee, with the same entities; when
    the handler returns, the selection is what the rectangle meets. *)
Lemma mousemove_marqueeing (p0 p : Vector2d.t) (s : KonvaSelection.t) :
  marqueeing p0 s ->
  marqueeing p0 (stateOf (mousemove getClientRect p s)) /\
  same_entities s (stateOf (mousemove getClientRect p s)) /\
  (forall s', mousemove getClientRect p s = Returned s' ->
              selects_exactly getClientRect p0 p s') /\
  ((transformer s = None /\ nodes s = []) ->
   exists s', mousemove getClientRect p s = Returned s') /\
  box_spans p0 p (stateOf (mousemove getClientRect p s)) /\
  (forall s', mousemove getClientRect p s = Raised s' ->
     nodes s' = [] /\
     exists tr, transformer s' = Some tr /\ Transformer._node tr = None).
Proof.
  intros [[Hlt [Hok [Hsb Hbox]]] [Hsel [Hstart [[box Ebox] Hin]]]].
  destruct (Hbox box Ebox) as [Hblt Hbid].
  unfold mousemove. rewrite Hsel. unfold updateDrag.
  cbn [selectAttrs with_selectAttrs SelectAttrs.posStart selectBox].
  rewrite Hstart, Ebox.
  set (posRect := reverse p0 p).
  set (s1 := with_scene _ _).
  set (l := filter _ _).
  set (rect := clientRect getClientRect (ClientRectConfig.mk true true) box s1).
  assert (idCounterOf s1 = idCounterOf s) as Hc1 by reflexivity.
  assert (childrenOf s1 = childrenOf s) as Hch1 by reflexivity.
  assert (forall k, isEntity s1 k = isEntity s k) as He1.
  { intros k. unfold s1, isEntity, attrsOf. simpl. unfold upd.
    destruct (Z.eqb k box) eqn:E; [|reflexivity].
    apply Z.eqb_eq in E. subst k. reflexivity. }
  assert (forall k, isSelectBoxId s1 k = isSelectBoxId s k) as Hi1.
  { intros k. unfold s1, isSelectBoxId, attrsOf. simpl. unfold upd.
    destruct (Z.eqb k box) eqn:E; [|reflexivity].
    apply Z.eqb_eq in E. subst k. reflexivity. }
  assert (forall k, k <> box -> attrsOf s1 k = attrsOf s k) as Ha1.
  { intros k Hk. unfold s1, attrsOf. simpl. unfold upd.
    destruct (Z.eqb_spec k box); [contradiction|reflexivity]. }
  assert (owned_ok s1) as Hok1.
  { destruct Hok as [Hbo Hto]. split.
    - intros b Eb. destruct (Hbo b Eb) as [H1 H2].
      split; [exact H1 | rewrite He1; exact H2].
    - intros tr Et. destruct (Hto tr Et) as [H1 H2].
      split; [exact H1 | rewrite He1; exact H2]. }
  assert (forall k, In k l <-> In k (childrenOf s) /\ isSelectBoxId s k = false)
    as Hl.
  { intros k. unfold l. rewrite filter_In. rewrite <- Hi1.
    change (Scene.children (scene s1)) with (childrenOf s).
    unfold isSelectBoxId, attrsOf.
    destruct (Attrs.id (Scene.attrs (scene s1) k)).
    - rewrite negb_true_iff. reflexivity.
    - tauto. }
  assert (forall k, In k l -> (k < idCounterOf s1)%Z) as Hllt.
  { intros k Hk. apply Hl in Hk. rewrite Hc1. apply Hlt. tauto. }
  destruct (collisionLoop_prefix rect l s1) as [l1 [l2 [El [Hst Hret]]]].
  assert (forall k, In k l1 -> In k l) as Hsub
      by (intros k Hk; rewrite El; apply in_or_app; left; exact Hk).
  assert (forall k, In k l1 -> (k < idCounterOf s1)%Z) as Hl1lt
      by (intros k Hk; apply Hllt, Hsub, Hk).
  destruct (collisionCheck_loop rect l1 s1 s1 Hl1lt (scene_grows_refl s1) Hok1)
    as [Hg [Hok' [Hhas [Hbox' Hsel']]]].
  rewrite <- Hst in Hg, Hok', Hhas, Hbox', Hsel'.
  set (s' := stateOf (collisionLoop getClientRect rect l s1)) in *.
  destruct Hg as [Hc [Ha [Hnew Hkeep]]].
  assert (forall k, (k < idCounterOf s)%Z -> isEntity s' k = isEntity s k)
    as He'.
  { intros k Hk. rewrite <- He1. unfold isEntity.
    rewrite Ha by (rewrite Hc1; exact Hk). reflexivity. }
  assert (forall k, (k < idCounterOf s)%Z ->
                    isSelectBoxId s' k = isSelectBoxId s k) as Hi'.
  { intros k Hk. rewrite <- Hi1. unfold isSelectBoxId.
    rewrite Ha by (rewrite Hc1; exact Hk). reflexivity. }
  assert (forall k, In k (childrenOf s') -> isEntity s' k = true ->
                    In k (childrenOf s)) as Hold.
  { intros k Hk He. destruct (Hnew k Hk) as [H | [_ H]].
    - rewrite Hch1 in H. exact H.
    - congruence. }
  assert (forall k, JsMap.has k (nodes s') = true ->
                    In k (childrenOf s) /\ isSelectBoxId s k = false /\
                    isEntity s k = true) as Hsel_in.
  { intros k Hk. rewrite Hhas in Hk.
    destruct (existsb (Z.eqb k) l1) eqn:E.
    - apply existsb_eqb_In in E. apply Hsub, Hl in E.
      destruct E as [Hks Hnb]. split; [exact Hks|]. split; [exact Hnb|].
      unfold hit in Hk. apply andb_true_iff in Hk.
      rewrite <- He1. exact (proj2 Hk).
    - apply Hin. exact Hk. }
  assert (attrsOf s' box = attrsOf s1 box) as Hab
      by (apply Ha; rewrite Hc1; exact Hblt).
  assert (attrsOf s1 box
          = Attrs.setBox (DragRect.x1 posRect) (DragRect.y1 posRect)
              (DragRect.x2 posRect - DragRect.x1 posRect)
              (DragRect.y2 posRect - DragRect.y1 posRect)
              (attrsOf s box)) as Hab1.
  { unfold s1, attrsOf. simpl. unfold upd. rewrite Z.eqb_refl.
    reflexivity. }
  split; [|split; [|split; [|split; [|split]]]].
  - split; [split; [|split; [|split]]|].
    + intros k Hk. destruct (Hnew k Hk) as [H | [H _]].
      * rewrite Hch1 in H. apply Hlt in H. rewrite Hc1 in Hc. lia.
      * lia.
    + exact Hok'.
    + intros k Hk He. pose proof (Hold k Hk He) as Hks.
      pose proof (Hlt k Hks) as Hklt.
      rewrite Hi' by exact Hklt. apply Hsb; [exact Hks|].
      rewrite <- He' by exact Hklt. exact He.
    + intros b Eb. rewrite Hbox' in Eb. simpl in Eb.
      rewrite Ebox in Eb. injection Eb as Eb. subst b.
      rewrite Hc1 in Hc. split; [lia|].
      rewrite Hi' by exact Hblt. exact Hbid.
    + rewrite Hsel'. simpl. split; [exact Hsel|]. split; [reflexivity|].
      split; [exists box; rewrite Hbox'; exact Ebox|].
      intros k Hk. destruct (Hsel_in k Hk) as [Hks [Hnb Hent]].
      pose proof (Hlt k Hks) as Hklt.
      split; [|split].
      * apply Hkeep; [rewrite Hch1; exact Hks | rewrite Hc1; exact Hklt
                      | rewrite He1; exact Hent].
      * rewrite Hi' by exact Hklt. exact Hnb.
      * rewrite He' by exact Hklt. exact Hent.
  - intros k. split; [split|].
    + intros [Hk He]. pose proof (Hold k Hk He) as Hks.
      split; [exact Hks|]. rewrite <- He' by (apply Hlt; exact Hks).
      exact He.
    + intros [Hk He]. pose proof (Hlt k Hk) as Hklt. split.
      * apply Hkeep; [rewrite Hch1; exact Hk | rewrite Hc1; exact Hklt
                      | rewrite He1; exact He].
      * rewrite He' by exact Hklt. exact He.
    + intros Hk He. pose proof (Hlt k Hk) as Hklt.
      rewrite Ha by (rewrite Hc1; exact Hklt). apply Ha1.
      intros E. subst k. rewrite (Hsb box Hk He) in Hbid. discriminate.
  - intros s'' Eret.
    assert (s'' = s') as Es by (unfold s'; rewrite Eret; reflexivity).
    subst s''.
    assert (l1 = l) as El1.
    { rewrite (Hret s' Eret) in El. rewrite app_nil_r in El.
      symmetry. exact El. }
    subst l1.
    assert (forall k, JsMap.has k (nodes s') = true <->
                      In k l /\ hit getClientRect rect s1 k = true)
      as Hsel_iff.
    { intros k. rewrite Hhas.
      destruct (existsb (Z.eqb k) l) eqn:E.
      - apply existsb_eqb_In in E. tauto.
      - split.
        + intros H. apply Hin in H. destruct H as [H1 [H2 _]].
          assert (In k l) as Hkl by (apply Hl; split; assumption).
          apply existsb_eqb_In in Hkl. congruence.
        + intros [H _]. apply existsb_eqb_In in H. congruence. }
    exists box.
    split; [rewrite Hbox'; exact Ebox|].
    rewrite Hab, Hab1. simpl.
    split; [reflexivity|]. split; [reflexivity|].
    split; [reflexivity|]. split; [reflexivity|].
    intros n. unfold _id. rewrite Hsel_iff.
    assert (clientRect getClientRect (ClientRectConfig.mk true true) box s'
            = rect) as Hrect.
    { unfold rect, clientRect. unfold attrsOf in Hab. rewrite Hab.
      reflexivity. }
    rewrite Hrect. split.
    + intros [Hnl Hhit]. apply Hl in Hnl. destruct Hnl as [Hns Hnb].
      pose proof (Hlt n Hns) as Hnlt.
      unfold hit in Hhit. apply andb_true_iff in Hhit.
      destruct Hhit as [Hint Hent]. split; [|split].
      * apply Hkeep; [rewrite Hch1; exact Hns | rewrite Hc1; exact Hnlt
                      | exact Hent].
      * rewrite He' by exact Hnlt. rewrite <- He1. exact Hent.
      * unfold clientRect in *. unfold attrsOf in Ha.
        rewrite Ha by (rewrite Hc1; exact Hnlt). exact Hint.
    + intros [Hns' [Hent Hint]].
      pose proof (Hold n Hns' Hent) as Hns.
      pose proof (Hlt n Hns) as Hnlt.
      assert (isEntity s n = true) as Hent0
          by (rewrite <- He' by exact Hnlt; exact Hent).
      split.
      * apply Hl. split; [exact Hns|]. apply Hsb; assumption.
      * unfold hit. apply andb_true_iff. split.
        -- unfold clientRect in *. unfold attrsOf in Ha.
           rewrite Ha in Hint by (rewrite Hc1; exact Hnlt). exact Hint.
        -- rewrite He1. exact Hent0.
  - intros [Ht Hnil]. eexists.
    apply (collisionLoop_returns rect l s1 s1 Hllt (scene_grows_refl s1)
             Hok1).
    left. split; [exact Ht | exact Hnil].
  - exists box. split; [rewrite Hbox'; exact Ebox|].
    rewrite Hab, Hab1. simpl. repeat split; reflexivity.
  - intros s'' E.
    exact (collisionLoop_raised rect l s1 s'' E).
Qed.

(** Pressing the pointer on the stage starts a marquee. *)
Lemma mousedown_marqueeing (shiftKey : bool) (p0 : Vector2d.t)
    (s : KonvaSelection.t) :
  well_formed s ->
  marqueeing p0 (After.mousedown OnStage shiftKey p0 s) /\
  same_entities s (After.mousedown OnStage shiftKey p0 s).
Proof.
  intros Hwf. destruct (clear_well_formed s Hwf) as [Hwf1 [Hn1 Hsame1]].
  rewrite mousedown_after; cbv zeta. remember (clear s) as s1 eqn:Es1. clear Es1 Hwf.
  destruct Hwf1 as [Hlt [[Hbo Hto] [Hsb Hbox]]].
  cbn [selectBox with_selectAttrs].
  destruct (selectBox s1) as [box|] eqn:Ebox.
  - split.
    + unfold marqueeing, well_formed, startDrag. simpl.
      split; [split; [exact Hlt|split; [split; assumption|split;
                                         [exact Hsb|]]]|].
      * intros b Eb. rewrite Ebox in Eb. injection Eb as Eb. subst b.
        apply Hbox. reflexivity.
      * split; [reflexivity|]. split; [destruct p0; reflexivity|].
        split; [exists box; exact Ebox|].
        intros k Hk. rewrite Hn1 in Hk. discriminate.
    + eapply same_entities_trans; [exact Hsame1|].
      intros k. split; [tauto | reflexivity].
  - assert (forall k, (k < Scene.idCounter (scene s1))%Z ->
              upd (Scene.attrs (scene s1)) (Scene.idCounter (scene s1))
                  (Attrs.mk [] (Some "selectBox"%string) 0 0 0 0 true None) k
              = Scene.attrs (scene s1) k) as Hupd.
    { intros k Hk. unfold upd.
      destruct (Z.eqb_spec k (Scene.idCounter (scene s1))); [lia|].
      reflexivity. }
    split.
    + unfold marqueeing, well_formed, owned_ok, bounding_ok, transformer_ok,
        isEntity, isSelectBoxId, idCounterOf, attrsOf, childrenOf,
        startDrag, createSelectBox in *.
      simpl.
      split; [split; [|split; [split|split]]|].
      * intros k Hk. apply Hlt in Hk. lia.
      * intros b Eb. destruct (Hbo b Eb) as [H1 H2].
        split; [lia|]. rewrite Hupd by exact H1. exact H2.
      * intros tr Et. destruct (Hto tr Et) as [H1 H2].
        split; [lia|]. rewrite Hupd by exact H1. exact H2.
      * intros k Hk. pose proof (Hlt k Hk) as Hklt.
        rewrite Hupd by exact Hklt. apply Hsb. exact Hk.
      * intros b Eb. injection Eb as Eb. subst b. split; [lia|].
        unfold upd. rewrite Z.eqb_refl. reflexivity.
      * split; [reflexivity|]. split; [destruct p0; reflexivity|].
        split; [eexists; reflexivity|].
        intros k Hk. rewrite Hn1 in Hk. discriminate.
    + eapply same_entities_trans; [exact Hsame1|].
      intros k. unfold isEntity, attrsOf, childrenOf, startDrag,
                  createSelectBox in *. simpl.
      split; [split|].
      * intros [Hk He]. pose proof (Hlt k Hk) as Hklt.
        rewrite Hupd in He by exact Hklt. tauto.
      * intros [Hk He]. pose proof (Hlt k Hk) as Hklt.
        rewrite Hupd by exact Hklt. tauto.
      * intros Hk _. apply Hupd. apply Hlt. exact Hk.
Qed.

Lemma mousedown_stage_empty (shiftKey : bool) (p0 : Vector2d.t)
    (s : KonvaSelection.t) :
  transformer (After.mousedown OnStage shiftKey p0 s) = None /\
  nodes (After.mousedown OnStage shiftKey p0 s) = [].
Proof.
  destruct s as [sc ch b [box|] old sa ns [tr|]]; split; reflexivity.
Qed.

Lemma marquee_snoc (p0 p : Vector2d.t) (moves : list Vector2d.t)
    (s : KonvaSelection.t) :
  marquee getClientRect p0 (moves ++ [p]) s
  = mousemove getClientRect p (stateOf (marquee getClientRect p0 moves s)).
Proof. unfold marquee. rewrite fold_left_app. reflexivity. Qed.

(** Whatever its handlers do, a marquee gesture stays in the marquee
    state and keeps the entities. *)
Lemma marquee_marqueeing (p0 : Vector2d.t) (moves : list Vector2d.t)
    (s : KonvaSelection.t) :
  well_formed s ->
  marqueeing p0 (stateOf (marquee getClientRect p0 moves s)) /\
  same_entities s (stateOf (marquee getClientRect p0 moves s)).
Proof.
  intros Hwf. induction moves as [|p moves IH] using rev_ind.
  - apply (mousedown_marqueeing false p0 s Hwf).
  - destruct IH as [Hm1 Hs1]. rewrite marquee_snoc.
    destruct (mousemove_marqueeing p0 p _ Hm1) as [Hm' [Hs' _]].
    split; [exact Hm'|].
    eapply same_entities_trans; eassumption.
Qed.

(** The selection after the last pointer move of a marquee, when its
    handler returns. *)
Lemma marquee_last_move (p0 p : Vector2d.t) (moves : list Vector2d.t)
    (s s' : KonvaSelection.t) :
  well_formed s ->
  marquee getClientRect p0 (moves ++ [p]) s = Returned s' ->
  well_formed s' /\
  same_entities s s' /\
  selects_exactly getClientRect p0 p s'.
Proof.
  intros Hwf E.
  destruct (marquee_marqueeing p0 moves s Hwf) as [Hm1 Hs1].
  rewrite marquee_snoc in E.
  destruct (mousemove_marqueeing p0 p _ Hm1) as [Hm' [Hs' [Hx _]]].
  rewrite E in Hm', Hs'. simpl in Hm', Hs'.
  split; [apply Hm'|]. split; [|exact (Hx s' E)].
  eapply same_entities_trans; eassumption.
Qed.

(** The first pointer move after the press returns. *)
Lemma marquee_first_move (p0 p : Vector2d.t) (s : KonvaSelection.t) :
  well_formed s ->
  exists s', marquee getClientRect p0 ([] ++ [p]) s = Returned s'.
Proof.
  intros Hwf. rewrite marquee_snoc.
  destruct (marquee_marqueeing p0 [] s Hwf) as [Hm _].
  destruct (mousemove_marqueeing p0 p _ Hm) as [_ [_ [_ [Hret _]]]].
  apply Hret. apply (mousedown_stage_empty false p0 s).
Qed.


End Marquee.

(** ** Well-formed states are the states the controller reaches *)

Lemma grows_well_formed (s s' : KonvaSelection.t) :
  well_formed s -> scene_grows s s' -> owned_ok s' ->
  selectBox s' = selectBox s -> well_formed s'.
Proof.
  intros [Hlt [_ [Hsb Hbox]]] [Hc [Ha [Hnew Hkeep]]] Hok' Hb.
  split; [|split; [exact Hok'|split]].
  - intros k Hk. destruct (Hnew k Hk) as [H | [H _]]; [|lia].
    apply Hlt in H. lia.
  - intros k Hk He. destruct (Hnew k Hk) as [H | [_ H]]; [|congruence].
    pose proof (Hlt k H) as Hklt. unfold isSelectBoxId, isEntity in *.
    rewrite Ha in * by exact Hklt. apply Hsb; assumption.
  - intros box Eb. rewrite Hb in Eb. destruct (Hbox box Eb) as [H1 H2].
    split; [lia|]. unfold isSelectBoxId in *. rewrite Ha by exact H1.
    exact H2.
Qed.

Lemma add_well_formed (node : NodeRef) (s : KonvaSelection.t) :
  well_formed s -> well_formed (After.add node s).
Proof.
  intros Hwf. destruct (add_grows node s (proj1 (proj2 Hwf))) as [Hg Hok].
  apply (grows_well_formed s); try assumption.
  destruct (JsMap.has (_id node) (nodes s)) eqn:E.
  - rewrite add_present by exact E. reflexivity.
  - apply (add_absent_selection node s E).
Qed.

Lemma remove_well_formed (node : NodeRef) (s : KonvaSelection.t) :
  well_formed s -> well_formed (After.remove node s).
Proof.
  intros Hwf. destruct (remove_grows node s (proj1 (proj2 Hwf))) as [Hg Hok].
  apply (grows_well_formed s); try assumption.
  apply (remove_selection node s).
Qed.

Lemma constructor_fields (sc : Scene.t) (arg : NodesArg) :
  scene (constructor sc arg) = sc /\
  bounding (constructor sc arg) = None /\
  transformer (constructor sc arg) = None /\
  selectBox (constructor sc arg) = None.
Proof.
  assert (forall l s1,
            let s' :=
              fold_left
                (fun this node =>
                   with_nodes (JsMap.set (_id node) node (nodes this)) this)
                l s1 in
            scene s' = scene s1 /\ bounding s' = bounding s1 /\
            transformer s' = transformer s1 /\ selectBox s' = selectBox s1)
    as Hf.
  { induction l as [|n l IH]; intros s1; simpl; [repeat split; reflexivity|].
    destruct (IH (with_nodes (JsMap.set (_id n) n (nodes s1)) s1))
      as [H1 [H2 [H3 H4]]].
    simpl in *. rewrite H1, H2, H3, H4. repeat split; reflexivity. }
  destruct arg as [| |l]; simpl; try (repeat split; reflexivity).
  apply Hf.
Qed.

Lemma constructor_well_formed (sc : Scene.t) (arg : NodesArg) :
  (forall k, In k (Scene.children sc) -> (k < Scene.idCounter sc)%Z) ->
  (forall k, In k (Scene.children sc) ->
     Attrs.hasName "entity" (Scene.attrs sc k) = true ->
     Attrs.id (Scene.attrs sc k) <> Some "selectBox"%string) ->
  well_formed (constructor sc arg).
Proof.
  intros Hlt Hid.
  destruct (constructor_fields sc arg) as [Es [Eb [Et Ex]]].
  unfold well_formed, owned_ok, bounding_ok, transformer_ok, isEntity,
    isSelectBoxId, idCounterOf, attrsOf, childrenOf.
  rewrite Es, Eb, Et, Ex.
  split; [exact Hlt|]. split; [split; intros x E; discriminate|].
  split; [|intros x E; discriminate].
  intros k Hk He. specialize (Hid k Hk He).
  destruct (Attrs.id (Scene.attrs sc k)) as [i|]; [|reflexivity].
  destruct (String.eqb_spec i "selectBox"); [|reflexivity].
  subst i. contradiction.
Qed.

Lemma demoScene_well_formed (arg : NodesArg) :
  well_formed (constructor demoScene arg).
Proof.
  apply constructor_well_formed; simpl.
  - intros k [H | [H | [H | []]]]; subst k; reflexivity.
  - intros k [H | [H | [H | []]]]; subst k; simpl; discriminate.
Qed.

(** ** Every handler keeps the state well formed *)

Lemma well_formed_names (s s' : KonvaSelection.t) :
  idCounterOf s' = idCounterOf s ->
  childrenOf s' = childrenOf s ->
  bounding s' = bounding s ->
  option_map Transformer.ref (transformer s')
  = option_map Transformer.ref (transformer s) ->
  selectBox s' = selectBox s ->
  (forall k, Attrs.name (attrsOf s' k) = Attrs.name (attrsOf s k) /\
             Attrs.id (attrsOf s' k) = Attrs.id (attrsOf s k)) ->
  well_formed s -> well_formed s'.
Proof.
  intros Hc Hch Hb Ht Hx Hnames [Hlt [[Hbo Hto] [Hsb Hbox]]].
  assert (forall k, isEntity s' k = isEntity s k) as He.
  { intros k. unfold isEntity, Attrs.hasName.
    rewrite (proj1 (Hnames k)). reflexivity. }
  assert (forall k, isSelectBoxId s' k = isSelectBoxId s k) as Hi.
  { intros k. unfold isSelectBoxId. rewrite (proj2 (Hnames k)).
    reflexivity. }
  split; [|split; [split|split]].
  - intros k Hk. rewrite Hc. apply Hlt. rewrite <- Hch. exact Hk.
  - intros b Eb. rewrite Hb in Eb. rewrite Hc, He. apply Hbo. exact Eb.
  - intros tr' Et. rewrite Et in Ht.
    destruct (transformer s) as [tr|] eqn:E; [|discriminate].
    simpl in Ht. injection Ht as Ht. rewrite Ht, Hc, He.
    apply Hto. exact E.
  - intros k Hk Hek. rewrite Hi. rewrite Hch in Hk. rewrite He in Hek.
    apply Hsb; assumption.
  - intros box Eb. rewrite Hx in Eb. rewrite Hc, Hi. apply Hbox. exact Eb.
Qed.

Lemma updateTransformer_well_formed (s : KonvaSelection.t) :
  well_formed s -> well_formed (After.updateTransformer s).
Proof.
  intros Hwf.
  destruct (updateTransformer_grows s (proj1 (proj2 Hwf))) as [Hg Hok].
  apply (grows_well_formed s); try assumption.
  apply (updateTransformer_same s).
Qed.

Lemma mousedown_well_formed (target : EventTarget) (shiftKey : bool)
    (pointer : Vector2d.t) (s : KonvaSelection.t) :
  well_formed s -> well_formed (After.mousedown target shiftKey pointer s).
Proof.
  intros Hwf. destruct target as [|node].
  - apply (mousedown_marqueeing shiftKey pointer s Hwf).
  - rewrite mousedown_after; cbv zeta.
    destruct (Attrs.hasName "entity" (Scene.attrs (scene s) node));
      [|exact Hwf].
    apply add_well_formed.
    destruct (negb shiftKey && negb (JsMap.has (_id node) (nodes s)));
      [|exact Hwf].
    apply clear_well_formed. exact Hwf.
Qed.

Lemma move_fold_names (target : NodeRef) (diffPos : Vector2d.t)
    (l : list NodeRef) (s : KonvaSelection.t) :
  let s' :=
    fold_left
      (fun s child =>
         if Z.eqb child target then s
         else with_scene
                (Scene.setAttrs child (Attrs.move diffPos) (scene s)) s)
      l s in
  idCounterOf s' = idCounterOf s /\
  childrenOf s' = childrenOf s /\
  bounding s' = bounding s /\
  transformer s' = transformer s /\
  selectBox s' = selectBox s /\
  (forall k, Attrs.name (attrsOf s' k) = Attrs.name (attrsOf s k) /\
             Attrs.id (attrsOf s' k) = Attrs.id (attrsOf s k)).
Proof.
  revert s. induction l as [|n l IH]; intros s; simpl.
  - repeat split; reflexivity.
  - match goal with
    | |- context [fold_left ?f l ?s1] =>
        specialize (IH s1); simpl in IH;
        destruct IH as [Hc [Hch [Hb [Ht [Hx Hn]]]]]
    end.
    rewrite Hc, Hch, Hb, Ht, Hx.
    destruct (Z.eqb n target);
      [repeat split; try reflexivity; apply Hn|].
    repeat split; try reflexivity;
      rewrite (proj1 (Hn k)) || rewrite (proj2 (Hn k));
      unfold attrsOf; simpl; unfold upd;
      destruct (Z.eqb_spec k n) as [E | E]; try subst k; reflexivity.
Qed.

Lemma dragmove_after (target : NodeRef) (s : KonvaSelection.t) :
  stateOf (dragmove target s)
  = match oldPosition s with
    | None => s
    | Some old =>
        let diffPos :=
          Vector2d.mk
            (Attrs.x (Scene.attrs (scene s) target) - Vector2d.x old)
            (Attrs.y (Scene.attrs (scene s) target) - Vector2d.y old) in
        let s :=
          fold_left
            (fun s child =>
               if Z.eqb child target then s
               else
                 with_scene
                   (Scene.setAttrs child (Attrs.move diffPos) (scene s)) s)
            (JsMap.values (nodes s)) s in
        let s :=
          with_oldPosition
            (Some (Attrs.position (Scene.attrs (scene s) target))) s in
        After.updateTransformer s
    end.
Proof. unfold dragmove. destruct (oldPosition s); reflexivity. Qed.

Lemma dragFrame_well_formed (target : NodeRef) (p : Vector2d.t)
    (s : KonvaSelection.t) :
  well_formed s -> well_formed (stateOf (dragFrame target p s)).
Proof.
  intros Hwf.
  assert (well_formed
            (with_scene
               (Scene.setAttrs target (Attrs.setPosition p) (scene s)) s))
    as Hwf0.
  { apply (well_formed_names s); try reflexivity; [|exact Hwf].
    intros k. unfold attrsOf. simpl. unfold upd.
    destruct (Z.eqb_spec k target) as [Ek | Ek]; [subst k|];
      split; reflexivity. }
  unfold dragFrame. rewrite dragmove_after.
  cbn [oldPosition with_scene].
  destruct (oldPosition s) as [old|]; [|exact Hwf0]. cbv zeta.
  apply updateTransformer_well_formed.
  match goal with
  | |- well_formed (with_oldPosition ?o ?s1) =>
      apply (well_formed_names s1); try reflexivity;
      [intros k; split; reflexivity|]
  end.
  match goal with
  | |- well_formed (fold_left ?f ?l ?s0) =>
      pose proof (move_fold_names target
                    (Vector2d.mk
                       (Attrs.x (Scene.attrs (scene s0) target)
                        - Vector2d.x old)
                       (Attrs.y (Scene.attrs (scene s0) target)
                        - Vector2d.y old)) l s0)
        as [Hc [Hch [Hb [Ht [Hx Hn]]]]];
      apply (well_formed_names s0);
      [exact Hc | exact Hch | exact Hb
       | exact (f_equal (option_map Transformer.ref) Ht)
       | exact Hx | exact Hn | ]
  end.
  exact Hwf0.
Qed.

(** What [updateDrag] leaves: without a start point or a select box it
    raises after it has stored the pointer; otherwise the state is that
    of the iterations of the loop, up to the one that raises. *)
Lemma updateDrag_state
    (getClientRect : ClientRectConfig.t -> NodeRef -> Attrs.t -> IRect.t)
    (p : Vector2d.t) (s : KonvaSelection.t) :
  let s0 :=
    with_selectAttrs
      (SelectAttrs.mk
         (SelectAttrs.posStart (selectAttrs s))
         (Some (Vector2d.mk (Vector2d.x p) (Vector2d.y p)))
         (SelectAttrs.select (selectAttrs s))) s in
  match SelectAttrs.posStart (selectAttrs s), selectBox s with
  | Some p0, Some box =>
      let posRect := reverse p0 p in
      let s1 :=
        with_scene
          (Scene.setAttrs box
             (Attrs.setBox
                (DragRect.x1 posRect) (DragRect.y1 posRect)
                (DragRect.x2 posRect - DragRect.x1 posRect)
                (DragRect.y2 posRect - DragRect.y1 posRect))
             (scene s0)) s0 in
      let l :=
        filter
          (fun n =>
             match Attrs.id (Scene.attrs (scene s1) n) with
             | Some i => negb (String.eqb i "selectBox")
             | None => true
             end)
          (Scene.children (scene s1)) in
      let rect :=
        clientRect getClientRect (ClientRectConfig.mk true true) box s1 in
      exists l1 l2,
        l = l1 ++ l2 /\
        stateOf (updateDrag getClientRect p s)
        = fold_left (After.collisionCheck getClientRect rect) l1 s1 /\
        (forall s', updateDrag getClientRect p s = Returned s' ->
                    l2 = []) /\
        (forall s', updateDrag getClientRect p s = Raised s' ->
           nodes s' = [] /\
           exists tr, transformer s' = Some tr /\
                      Transformer._node tr = None)
  | _, _ => updateDrag getClientRect p s = Raised s0
  end.
Proof.
  unfold updateDrag.
  cbn [selectAttrs with_selectAttrs SelectAttrs.posStart selectBox].
  destruct (SelectAttrs.posStart (selectAttrs s)) as [p0|];
    [|reflexivity].
  destruct (selectBox s) as [box|]; [|reflexivity].
  cbv zeta.
  match goal with
  | |- context [collisionLoop _ ?rect ?l ?s1] =>
      destruct (collisionLoop_prefix getClientRect rect l s1)
        as [l1 [l2 [El [Hst Hret]]]];
      exists l1, l2; split; [exact El|]; split; [exact Hst|];
        split; [exact Hret|];
        intros s' E;
        exact (collisionLoop_raised getClientRect rect l s1 s' E)
  end.
Qed.

Lemma updateDrag_well_formed
    (getClientRect : ClientRectConfig.t -> NodeRef -> Attrs.t -> IRect.t)
    (p : Vector2d.t) (s : KonvaSelection.t) :
  well_formed s -> well_formed (stateOf (updateDrag getClientRect p s)).
Proof.
  intros Hwf. pose proof (updateDrag_state getClientRect p s) as H.
  cbv zeta in H.
  destruct (SelectAttrs.posStart (selectAttrs s)) as [p0|];
    [destruct (selectBox s) as [box|] eqn:Ebox|];
    try (rewrite H; simpl;
         apply (well_formed_names s); try reflexivity;
         [intros k; split; reflexivity | exact Hwf]).
  destruct H as [l1 [l2 [El [Hst _]]]]. rewrite Hst.
  match goal with
  | |- well_formed (fold_left (After.collisionCheck _ ?rect) _ ?s0) =>
      set (s1 := s0) in *; set (rect1 := rect)
  end.
  assert (well_formed s1) as Hwf1.
  { apply (well_formed_names s); try reflexivity; [|exact Hwf].
    intros k. unfold s1, attrsOf. simpl. unfold upd.
    destruct (Z.eqb_spec k box) as [Ek | Ek]; [subst k|];
      split; reflexivity. }
  assert (forall k, In k l1 -> (k < idCounterOf s1)%Z) as Hl.
  { intros k Hk.
    assert (In k (l1 ++ l2)) as Hk' by (apply in_or_app; left; exact Hk).
    rewrite <- El in Hk'. apply filter_In in Hk'.
    exact (proj1 Hwf1 k (proj1 Hk')). }
  destruct (collisionCheck_loop getClientRect rect1 l1 s1 s1 Hl
              (scene_grows_refl s1) (proj1 (proj2 Hwf1)))
    as [Hg [Hok [_ [Hx _]]]].
  apply (grows_well_formed s1); assumption.
Qed.

(** Whatever happens to a well-formed controller, it stays well
    formed. *)
Lemma handle_well_formed
    (getClientRect : ClientRectConfig.t -> NodeRef -> Attrs.t -> IRect.t)
    (e : Event) (s : KonvaSelection.t) :
  well_formed s -> well_formed (After.handle getClientRect e s).
Proof.
  intros Hwf. unfold After.handle.
  destruct e as [target shiftKey pointer | pointer | | |
                 target | target position | op]; simpl.
  - apply (mousedown_well_formed target shiftKey pointer s Hwf).
  - unfold mousemove.
    destruct (SelectAttrs.select (selectAttrs s)); [|exact Hwf].
    apply updateDrag_well_formed. exact Hwf.
  - unfold mouseup, destroySelectBox.
    destruct (SelectAttrs.select (selectAttrs s)); [|exact Hwf].
    cbn [selectBox with_selectAttrs].
    destruct Hwf as [Hlt [Hok [Hsb Hbox]]].
    destruct (selectBox s) as [box|] eqn:Eb; simpl.
    + split; [exact Hlt|]. split; [exact Hok|]. split; [exact Hsb|].
      intros b Eb'. discriminate.
    + split; [exact Hlt|]. split; [exact Hok|]. split; [exact Hsb|].
      intros b Eb'. simpl in Eb'. congruence.
  - apply (updateTransformer_well_formed s Hwf).
  - exact Hwf.
  - apply dragFrame_well_formed. exact Hwf.
  - destruct op; simpl.
    + apply (add_well_formed node s Hwf).
    + apply (remove_well_formed node s Hwf).
    + apply clear_well_formed. exact Hwf.
Qed.

(** ** The marquee *)

(** *** One iteration of the loop at a time *)

Lemma collisionLoop_hit
    (getClientRect : ClientRectConfig.t -> NodeRef -> Attrs.t -> IRect.t)
    (rect : IRect.t) (n : NodeRef) (l : list NodeRef)
    (s : KonvaSelection.t) :
  hit getClientRect rect s n = true ->
  collisionLoop getClientRect rect (n :: l) s
  = collisionLoop getClientRect rect l (After.add n s).
Proof.
  intros H. rewrite collisionLoop_cons. unfold collisionCheck.
  change (haveIntersection _ _ && _) with (hit getClientRect rect s n).
  rewrite H, add_returns. reflexivity.
Qed.

Lemma collisionLoop_miss
    (getClientRect : ClientRectConfig.t -> NodeRef -> Attrs.t -> IRect.t)
    (rect : IRect.t) (n : NodeRef) (l : list NodeRef)
    (s : KonvaSelection.t) :
  hit getClientRect rect s n = false ->
  transformer s = None \/ JsMap.delete (_id n) (nodes s) <> [] ->
  collisionLoop getClientRect rect (n :: l) s
  = collisionLoop getClientRect rect l (After.remove n s).
Proof.
  intros H Hne. rewrite collisionLoop_cons. unfold collisionCheck.
  change (haveIntersection _ _ && _) with (hit getClientRect rect s n).
  rewrite H, remove_outcome.
  destruct (transformer s); [|reflexivity].
  destruct (JsMap.delete (_id n) (nodes s));
    [destruct Hne as [Hne | Hne]; [discriminate | contradiction]
    |reflexivity].
Qed.

Lemma collisionLoop_miss_raises
    (getClientRect : ClientRectConfig.t -> NodeRef -> Attrs.t -> IRect.t)
    (rect : IRect.t) (n : NodeRef) (l : list NodeRef)
    (s : KonvaSelection.t) :
  hit getClientRect rect s n = false ->
  transformer s <> None ->
  JsMap.delete (_id n) (nodes s) = [] ->
  collisionLoop getClientRect rect (n :: l) s
  = Raised (After.remove n s).
Proof.
  intros H Ht Hd. rewrite collisionLoop_cons. unfold collisionCheck.
  change (haveIntersection _ _ && _) with (hit getClientRect rect s n).
  rewrite H, remove_outcome, Hd.
  destruct (transformer s); [reflexivity|contradiction].
Qed.

(** Steps of a run on a given scene: entering the loop of [updateDrag]
    from a state in which a marquee is in progress, computing the
    rectangles of a test of the loop, and deciding the test. *)
Ltac enter_loop p0 box :=
  unfold mousemove;
  match goal with
  | |- (if SelectAttrs.select (selectAttrs ?s) then _ else _) = _ =>
      change (SelectAttrs.select (selectAttrs s)) with true; cbv iota;
      unfold updateDrag;
      change (SelectAttrs.posStart (selectAttrs (with_selectAttrs _ s)))
        with (Some p0);
      change (selectBox (with_selectAttrs _ s)) with (Some box);
      cbv iota beta zeta
  end.

Ltac eval_rects :=
  lazy -[IZR Rplus Rminus Rmult Ropp Rle Rlt Rge Rgt Rgtb Rltb Rneqb
         reverse].

Ltac hit_true :=
  unfold hit; apply andb_true_iff; split;
  [apply haveIntersection_true; eval_rects; lra | reflexivity].

Ltac hit_false :=
  unfold hit; apply andb_false_iff;
  first
    [ right; reflexivity
    | left;
      match goal with
      | |- ?b = false =>
          let Hi := fresh "Hi" in
          destruct b eqn:Hi; [|reflexivity];
          apply haveIntersection_true in Hi; revert Hi; eval_rects; lra
      end ].

Ltac loop_hit := rewrite collisionLoop_hit by hit_true.

Ltac loop_miss :=
  rewrite collisionLoop_miss
    by first [hit_false | left; reflexivity | right; discriminate].

Ltac reverse_value :=
  unfold reverse; cbn [Vector2d.x Vector2d.y];
  repeat first [ rewrite (proj2 (Rgtb_true _ _)) by lra
               | rewrite (proj2 (Rgtb_false _ _)) by lra ];
  cbv beta iota zeta; f_equal;
  try (unfold Rabs; destruct (Rcase_abs _); lra).

(** *** The selection after a pointer move *)

(** C3.  On the scene of the source, a press on the stage at (175, 90)
    and a pointer move to (140, 120) select the first shape and nothing
    else.  The next pointer move, to (210, 120), gives a rectangle that
    leaves the first shape and meets the second one: the loop removes
    the first shape, [remove] raises in [attachTo] because the map is
    empty, and the loop ends there.  The selection is left empty, and
    the second shape, an entity of the layer whose client rectangle
    meets the rectangle of the select box, is not selected. *)
Theorem marquee_raise_drops_entity :
  let s0 := constructor demoScene Undefined in
  let p0 := Vector2d.mk 175 90 in
  exists s1 s2 box,
    marquee pageClientRect p0 [Vector2d.mk 140 120] s0 = Returned s1 /\
    JsMap.keys (nodes s1) = [1%Z] /\
    marquee pageClientRect p0 [Vector2d.mk 140 120; Vector2d.mk 210 120] s0
    = Raised s2 /\
    nodes s2 = [] /\
    selectBox s2 = Some box /\
    IRect.x (clientRect pageClientRect (ClientRectConfig.mk true true) box s2)
    = 175 /\
    IRect.y (clientRect pageClientRect (ClientRectConfig.mk true true) box s2)
    = 90 /\
    IRect.width
      (clientRect pageClientRect (ClientRectConfig.mk true true) box s2)
    = 35 /\
    IRect.height
      (clientRect pageClientRect (ClientRectConfig.mk true true) box s2)
    = 30 /\
    In 2%Z (childrenOf s2) /\
    isEntity s2 2%Z = true /\
    clientRect pageClientRect ClientRectConfig.default 2%Z s2
    = IRect.mk (200 - 8) (100 - 8) 47 47 /\
    haveIntersection
      (clientRect pageClientRect ClientRectConfig.default 2%Z s2)
      (clientRect pageClientRect (ClientRectConfig.mk true true) box s2)
    = true /\
    JsMap.has (_id 2%Z) (nodes s2) = false.
Proof.
  intros s0 p0.
  assert (reverse p0 (Vector2d.mk 140 120) = DragRect.mk 140 90 175 120)
    as Hrev1 by (unfold p0; reverse_value).
  assert (reverse p0 (Vector2d.mk 210 120) = DragRect.mk 175 90 210 120)
    as Hrev2 by (unfold p0; reverse_value).
  eassert (marquee pageClientRect p0 [Vector2d.mk 140 120] s0 = Returned _)
    as E1.
  { unfold marquee. cbn [fold_left]. rewrite mousedown_returns.
    cbn [stateOf]. enter_loop p0 4%Z.
    rewrite Hrev1. cbn [DragRect.x1 DragRect.x2 DragRect.y1 DragRect.y2].
    match goal with
    | |- collisionLoop _ _ ?l _ = _ => change l with [1; 2; 3]%Z
    end.
    loop_hit. loop_miss. loop_miss. reflexivity. }
  match type of E1 with _ = Returned ?t => set (s1 := t) in E1 end.
  assert (marquee pageClientRect p0
            [Vector2d.mk 140 120; Vector2d.mk 210 120] s0
          = mousemove pageClientRect (Vector2d.mk 210 120) s1) as Estep.
  { change [Vector2d.mk 140 120; Vector2d.mk 210 120]
      with ([Vector2d.mk 140 120] ++ [Vector2d.mk 210 120]).
    rewrite marquee_snoc, E1. reflexivity. }
  eassert (mousemove pageClientRect (Vector2d.mk 210 120) s1 = Raised _)
    as E2.
  { enter_loop p0 4%Z.
    rewrite Hrev2. cbn [DragRect.x1 DragRect.x2 DragRect.y1 DragRect.y2].
    match goal with
    | |- collisionLoop _ _ ?l _ = _ => change l with [1; 2; 3; 5]%Z
    end.
    rewrite collisionLoop_miss_raises;
      [reflexivity | hit_false | discriminate | reflexivity]. }
  match type of E2 with _ = Raised ?t => set (s2 := t) in E2 end.
  exists s1, s2, 4%Z.
  split; [exact E1|].
  split; [reflexivity|].
  split; [rewrite Estep; exact E2|].
  split; [reflexivity|]. split; [reflexivity|].
  split; [eval_rects; lra|]. split; [eval_rects; lra|].
  split; [eval_rects; lra|]. split; [eval_rects; lra|].
  split; [lazy; tauto|]. split; [reflexivity|].
  split; [reflexivity|].
  split; [apply haveIntersection_true; eval_rects; lra | reflexivity].
Qed.






(** The scenario of the demo: a marquee from (90, 90) to (260, 160)
    selects the first and the second shape and not the third. *)
Example demo_marquee_selects_two :
  exists s',
    marquee pageClientRect (Vector2d.mk 90 90)
      [Vector2d.mk 120 120; Vector2d.mk 260 160]
      (constructor demoScene Undefined) = Returned s' /\
    JsMap.has 1%Z (nodes s') = true /\
    JsMap.has 2%Z (nodes s') = true /\
    JsMap.has 3%Z (nodes s') = false.
Proof.
  set (p0 := Vector2d.mk 90 90).
  set (s0 := constructor demoScene Undefined).
  assert (reverse p0 (Vector2d.mk 120 120) = DragRect.mk 90 90 120 120)
    as Hrev1 by (unfold p0; reverse_value).
  assert (reverse p0 (Vector2d.mk 260 160) = DragRect.mk 90 90 260 160)
    as Hrev2 by (unfold p0; reverse_value).
  eassert (marquee pageClientRect p0 [Vector2d.mk 120 120] s0 = Returned _)
    as E1.
  { unfold marquee. cbn [fold_left]. rewrite mousedown_returns.
    cbn [stateOf]. enter_loop p0 4%Z.
    rewrite Hrev1. cbn [DragRect.x1 DragRect.x2 DragRect.y1 DragRect.y2].
    match goal with
    | |- collisionLoop _ _ ?l _ = _ => change l with [1; 2; 3]%Z
    end.
    loop_hit. loop_miss. loop_miss. reflexivity. }
  match type of E1 with _ = Returned ?t => set (s1 := t) in E1 end.
  change [Vector2d.mk 120 120; Vector2d.mk 260 160]
    with ([Vector2d.mk 120 120] ++ [Vector2d.mk 260 160]).
  rewrite marquee_snoc, E1. cbn [stateOf].
  eexists. split.
  - enter_loop p0 4%Z.
    rewrite Hrev2. cbn [DragRect.x1 DragRect.x2 DragRect.y1 DragRect.y2].
    match goal with
    | |- collisionLoop _ _ ?l _ = _ => change l with [1; 2; 3; 5]%Z
    end.
    loop_hit. loop_hit. loop_miss. loop_miss. reflexivity.
  - split; [reflexivity|]. split; reflexivity.
Qed.

(** ** Dragging a selected node *)

(** [updateTransformer] creates nodes and leaves the attributes of the
    existing ones alone, whatever the state. *)
Lemma createBounding_attrs (s : KonvaSelection.t) :
  (idCounterOf s <= idCounterOf (snd (createBounding s)))%Z /\
  (forall k, (k < idCounterOf s)%Z ->
     attrsOf (snd (createBounding s)) k = attrsOf s k).
Proof.
  unfold createBounding.
  set (s0 := match bounding s with
             | Some b => with_scene (Scene.destroy (Group.ref b) (scene s)) s
             | None => s
             end).
  assert (Scene.idCounter (scene s0) = Scene.idCounter (scene s)) as Hc0
      by (unfold s0; destruct (bounding s); reflexivity).
  assert (Scene.attrs (scene s0) = Scene.attrs (scene s)) as Ha0
      by (unfold s0; destruct (bounding s); reflexivity).
  simpl.
  pose proof (addClone_fold_frame (JsMap.values (nodes s0)) []
                (Scene.mk (Scene.idCounter (scene s0) + 1)
                          (upd (Scene.attrs (scene s0))
                               (Scene.idCounter (scene s0)) Attrs.empty)
                          (Scene.children (scene s0)))) as Hfold.
  destruct (fold_left addClone (JsMap.values (nodes s0)) _) as [clones sc'].
  simpl in Hfold. destruct Hfold as [Hc [Ha _]].
  unfold idCounterOf, attrsOf. simpl. split; [lia|].
  intros k Hk. unfold upd. rewrite Hc0.
  destruct (Z.eqb_spec k (Scene.idCounter (scene s))); [lia|].
  rewrite Ha by lia. unfold upd.
  destruct (Z.eqb_spec k (Scene.idCounter (scene s0))); [lia|].
  rewrite Ha0. reflexivity.
Qed.

Lemma updateTransformer_attrs (s : KonvaSelection.t) :
  (idCounterOf s <= idCounterOf (After.updateTransformer s))%Z /\
  (forall k, (k < idCounterOf s)%Z ->
     attrsOf (After.updateTransformer s) k = attrsOf s k).
Proof.
  rewrite updateTransformer_after; cbv zeta.
  destruct (transformer s) as [tr|]; [|split; [lia|reflexivity]].
  destruct (negb (isGroup s)).
  - unfold idCounterOf, attrsOf. simpl. split; [lia|reflexivity].
  - pose proof (createBounding_attrs s) as H.
    destruct (createBounding s) as [g s1]. exact H.
Qed.

(** The [forEach] of the [dragmove] handler. *)
Lemma move_others (target : NodeRef) (diffPos : Vector2d.t)
    (l : list NodeRef) (s : KonvaSelection.t) :
  NoDup l ->
  let s' :=
    fold_left
      (fun s child =>
         if Z.eqb child target then s
         else with_scene
                (Scene.setAttrs child (Attrs.move diffPos) (scene s)) s)
      l s in
  (forall k, attrsOf s' k
             = if existsb (Z.eqb k) l && negb (Z.eqb k target)
               then Attrs.move diffPos (attrsOf s k)
               else attrsOf s k) /\
  idCounterOf s' = idCounterOf s /\
  nodes s' = nodes s /\
  oldPosition s' = oldPosition s.
Proof.
  revert s. induction l as [|n l IH]; intros s Hnd; simpl.
  - repeat split; reflexivity.
  - inversion Hnd as [|? ? Hnotin Hnd']; subst.
    match goal with
    | |- context [fold_left ?f l ?s1] =>
        specialize (IH s1 Hnd'); simpl in IH;
        destruct IH as [Ha [Hc [Hn Ho]]]
    end.
    assert (existsb (Z.eqb n) l = false) as Hn_l.
    { destruct (existsb (Z.eqb n) l) eqn:E; [|reflexivity].
      apply existsb_eqb_In in E. contradiction. }
    split; [|destruct (Z.eqb n target); repeat split; assumption].
    intros k. rewrite Ha.
    destruct (Z.eqb_spec n target) as [Ent | Ent].
    + subst n. destruct (Z.eqb_spec k target) as [Ekt | Ekt].
      * rewrite !andb_false_r. reflexivity.
      * simpl. reflexivity.
    + unfold attrsOf. simpl. unfold upd.
      destruct (Z.eqb_spec k n) as [Ekn | Ekn].
      * subst k. rewrite Hn_l. simpl.
        destruct (Z.eqb_spec n target); [contradiction|]. reflexivity.
      * simpl. reflexivity.
Qed.

Lemma has_in_values (target : NodeRef) (s : KonvaSelection.t) :
  nodes_ok s -> JsMap.has (_id target) (nodes s) = true ->
  In target (JsMap.values (nodes s)) /\ (target < idCounterOf s)%Z.
Proof.
  intros [_ Hkv] Hhas. unfold JsMap.has in Hhas.
  apply existsb_exists in Hhas. destruct Hhas as [[k v] [Hin E]].
  simpl in E. apply Z.eqb_eq in E. subst k.
  destruct (Hkv _ _ Hin) as [E Hlt]. unfold _id in E. subst v.
  split; [|exact Hlt].
  unfold JsMap.values. apply in_map_iff. exists (target, target).
  split; [reflexivity | exact Hin].
Qed.

Lemma nodes_ok_values (s : KonvaSelection.t) :
  nodes_ok s ->
  NoDup (JsMap.values (nodes s)) /\
  (forall v, In v (JsMap.values (nodes s)) -> (v < idCounterOf s)%Z).
Proof.
  intros [Hnd Hkv].
  assert (JsMap.values (nodes s) = JsMap.keys (nodes s)) as E.
  { unfold JsMap.values, JsMap.keys. apply map_ext_in.
    intros [k v] Hin. simpl. destruct (Hkv _ _ Hin) as [E _].
    symmetry. exact E. }
  split; [rewrite E; exact Hnd|].
  intros v Hin. unfold JsMap.values in Hin. apply in_map_iff in Hin.
  destruct Hin as [[k v'] [Ev Hin]]. simpl in Ev. subst v'.
  apply (Hkv _ _ Hin).
Qed.

(** One frame of a drag. *)
Lemma dragFrame_moves_others (target : NodeRef) (p : Vector2d.t)
    (s : KonvaSelection.t) :
  dragging target s ->
  exists s',
    dragFrame target p s = Returned s' /\
    dragging target s' /\
    nodes s' = nodes s /\
    Attrs.position (attrsOf s' target) = p /\
    forall child, In child (JsMap.values (nodes s)) -> child <> target ->
      Attrs.x (attrsOf s' child)
      = Attrs.x (attrsOf s child)
        + (Vector2d.x p - Attrs.x (attrsOf s target)) /\
      Attrs.y (attrsOf s' child)
      = Attrs.y (attrsOf s child)
        + (Vector2d.y p - Attrs.y (attrsOf s target)).
Proof.
  intros [Hok [Hhas Hold]].
  destruct (has_in_values target s Hok Hhas) as [Htin Htlt].
  destruct (nodes_ok_values s Hok) as [Hnd Hvlt].
  unfold dragFrame, dragmove.
  cbn [oldPosition with_scene]. rewrite Hold.
  set (s0 := with_scene _ s).
  assert (attrsOf s0 target = Attrs.setPosition p (attrsOf s target)) as Ht0.
  { unfold s0, attrsOf. simpl. unfold upd. rewrite Z.eqb_refl. reflexivity. }
  assert (forall k, k <> target -> attrsOf s0 k = attrsOf s k) as Hk0.
  { intros k Hk. unfold s0, attrsOf. simpl. unfold upd.
    destruct (Z.eqb_spec k target); [contradiction|reflexivity]. }
  change (Scene.attrs (scene s0) target) with (attrsOf s0 target).
  rewrite Ht0. cbn [Attrs.setPosition Attrs.x Attrs.y Attrs.position
                    Vector2d.x Vector2d.y].
  set (diffPos := Vector2d.mk _ _).
  change (nodes s0) with (nodes s).
  destruct (move_others target diffPos (JsMap.values (nodes s)) s0 Hnd)
    as [Ha1 [Hc1 [Hn1 Ho1]]].
  match goal with
  | |- context [fold_left ?f (JsMap.values (nodes s)) s0] =>
      set (s1 := fold_left f (JsMap.values (nodes s)) s0) in *
  end.
  set (s2 := with_oldPosition _ s1).
  destruct (updateTransformer_attrs s2) as [Hc3 Ha3].
  assert (idCounterOf s2 = idCounterOf s) as Hc2 by exact Hc1.
  assert (forall k, attrsOf s2 k = attrsOf s1 k) as Ha2 by reflexivity.
  assert (attrsOf s1 target = Attrs.setPosition p (attrsOf s target)) as Ht1.
  { rewrite Ha1, Z.eqb_refl, andb_false_r. exact Ht0. }
  destruct (updateTransformer_same s2) as [Hn3 [_ [_ [_ Ho3]]]].
  assert (nodes (After.updateTransformer s2) = nodes s) as Hn.
  { rewrite Hn3. change (nodes s2) with (nodes s1). rewrite Hn1.
    reflexivity. }
  clear Hn3.
  exists (After.updateTransformer s2).
  split.
  { apply updateTransformer_returns.
    change (nodes s2) with (nodes s1). rewrite Hn1. intros Hnil.
    change (nodes s0) with (nodes s) in Hnil.
    rewrite Hnil in Hhas. discriminate. }
  assert (attrsOf (After.updateTransformer s2) target
          = Attrs.setPosition p (attrsOf s target)) as Ht3.
  { rewrite Ha3 by (rewrite Hc2; exact Htlt). rewrite Ha2. exact Ht1. }
  split; [|split; [|split]].
  - split; [|split].
    + destruct Hok as [Hnd0 Hkv]. split; rewrite Hn; [exact Hnd0|].
      intros k v Hin. destruct (Hkv k v Hin) as [E Hlt].
      split; [exact E|]. rewrite Hc2 in Hc3. lia.
    + rewrite Hn. exact Hhas.
    + rewrite Ho3, Ht3. unfold s2. simpl.
      change (Scene.attrs (scene s1) target) with (attrsOf s1 target).
      rewrite Ht1. reflexivity.
  - exact Hn.
  - rewrite Ht3. destruct p. reflexivity.
  - intros child Hin Hne.
    rewrite Ha3 by (rewrite Hc2; apply Hvlt; exact Hin).
    rewrite Ha2, Ha1.
    assert (existsb (Z.eqb child) (JsMap.values (nodes s)) = true) as Hex
        by (apply existsb_eqb_In; exact Hin).
    rewrite Hex. destruct (Z.eqb_spec child target); [contradiction|].
    simpl. rewrite Hk0 by exact Hne. unfold diffPos. simpl.
    split; reflexivity.
Qed.

Lemma last_cons {A : Type} (a d : A) (l : list A) :
  last (a :: l) d = last l a.
Proof.
  revert a d. induction l as [|b l IH]; intros a d; [reflexivity|].
  change (last (a :: b :: l) d) with (last (b :: l) d).
  rewrite (IH b d), (IH b a). reflexivity.
Qed.

(** The frames of a drag, one after the other. *)
Lemma dragFrames_move_others (target : NodeRef) (frames : list Vector2d.t)
    (s : KonvaSelection.t) :
  dragging target s ->
  exists s',
    fold_left (fun o p => dragFrame target p (stateOf o))
      frames (Returned s) = Returned s' /\
    nodes s' = nodes s /\
    Attrs.position (attrsOf s' target)
    = last frames (Attrs.position (attrsOf s target)) /\
    forall child, In child (JsMap.values (nodes s)) -> child <> target ->
      Attrs.x (attrsOf s' child)
      = Attrs.x (attrsOf s child)
        + (Attrs.x (attrsOf s' target) - Attrs.x (attrsOf s target)) /\
      Attrs.y (attrsOf s' child)
      = Attrs.y (attrsOf s child)
        + (Attrs.y (attrsOf s' target) - Attrs.y (attrsOf s target)).
Proof.
  revert s. induction frames as [|p frames IH]; intros s Hd.
  - exists s. split; [reflexivity|]. split; [reflexivity|].
    split; [reflexivity|]. intros child _ _. split; lra.
  - destruct (dragFrame_moves_others target p s Hd)
      as [s1 [E1 [Hd1 [Hn1 [Hp1 Hm1]]]]].
    destruct (IH s1 Hd1) as [s' [E' [Hn' [Hp' Hm']]]].
    exists s'. cbn [fold_left stateOf]. rewrite E1. split; [exact E'|].
    split; [congruence|]. split.
    + rewrite Hp', Hp1, last_cons. reflexivity.
    + intros child Hin Hne.
      assert (In child (JsMap.values (nodes s1))) as Hin1
          by (rewrite Hn1; exact Hin).
      destruct (Hm1 child Hin Hne) as [Hx1 Hy1].
      destruct (Hm' child Hin1 Hne) as [Hx' Hy'].
      assert (Attrs.x (attrsOf s1 target) = Vector2d.x p) as Hpx
          by (rewrite <- Hp1; reflexivity).
      assert (Attrs.y (attrsOf s1 target) = Vector2d.y p) as Hpy
          by (rewrite <- Hp1; reflexivity).
      split; lra.
Qed.

(** C5.  When a selected node is dragged, through any number of
    [dragmove] frames, the drag ends at the last position the renderer
    gave to the node, the selection is unchanged, and every other
    selected node has moved by exactly the displacement of the dragged
    node. *)
Theorem group_move_rigid (target : NodeRef) (frames : list Vector2d.t)
    (s : KonvaSelection.t) :
  nodes_ok s ->
  JsMap.has (_id target) (nodes s) = true ->
  exists s',
    drag target frames s = Returned s' /\
    nodes s' = nodes s /\
    Attrs.position (attrsOf s' target)
    = last frames (Attrs.position (attrsOf s target)) /\
    forall child, In child (JsMap.values (nodes s)) -> child <> target ->
      Attrs.x (attrsOf s' child)
      = Attrs.x (attrsOf s child)
        + (Attrs.x (attrsOf s' target) - Attrs.x (attrsOf s target)) /\
      Attrs.y (attrsOf s' child)
      = Attrs.y (attrsOf s child)
        + (Attrs.y (attrsOf s' target) - Attrs.y (attrsOf s target)).
Proof.
  intros Hok Hhas. unfold drag.
  apply (dragFrames_move_others target frames (dragstart target s)).
  split; [exact Hok|]. split; [exact Hhas | reflexivity].
Qed.

Lemma demo_nodes_ok :
  nodes_ok (constructor demoScene (ArrayOf [1; 2; 3]%Z)).
Proof.
  split.
  - simpl. repeat constructor; simpl; intuition discriminate.
  - intros k v Hin. simpl in Hin.
    destruct Hin as [H | [H | [H | []]]]; injection H as Hk Hv;
      subst k v; split; reflexivity.
Qed.

Lemma group_move_rigid_witness :
  let s := constructor demoScene (ArrayOf [1; 2; 3]%Z) in
  nodes_ok s /\
  JsMap.has (_id 1%Z) (nodes s) = true /\
  exists s',
    drag 1%Z [Vector2d.mk 110 105; Vector2d.mk 130 120] s = Returned s' /\
    Attrs.position (attrsOf s' 1%Z) = Vector2d.mk 130 120 /\
    Attrs.x (attrsOf s' 3%Z) = 300 + (Attrs.x (attrsOf s' 1%Z) - 100) /\
    Attrs.y (attrsOf s' 3%Z) = 100 + (Attrs.y (attrsOf s' 1%Z) - 100).
Proof.
  intros s.
  assert (JsMap.has (_id 1%Z) (nodes s) = true) as Hhas by reflexivity.
  split; [exact demo_nodes_ok|]. split; [exact Hhas|].
  destruct (group_move_rigid 1%Z [Vector2d.mk 110 105; Vector2d.mk 130 120]
              s demo_nodes_ok Hhas) as [s' [E [_ [Hp Hm]]]].
  exists s'. split; [exact E|]. split; [exact Hp|].
  assert (In 3%Z (JsMap.values (nodes s))) as Hin
      by (simpl; right; right; left; reflexivity).
  assert (3%Z <> 1%Z) as Hne by discriminate.
  exact (Hm 3%Z Hin Hne).
Defined.

(** * Further properties *)

(** ** Geometry *)

(** X1.  Two rectangles of non-negative width and height intersect, in
    the sense of [haveIntersection], exactly when they have a point in
    common, edges included. *)
Theorem haveIntersection_common_point (A B : IRect.t) :
  0 <= IRect.width A -> 0 <= IRect.height A ->
  0 <= IRect.width B -> 0 <= IRect.height B ->
  (haveIntersection A B = true <->
   exists p, inRect p A /\ inRect p B).
Proof.
  intros HwA HhA HwB HhB. rewrite haveIntersection_true. unfold inRect.
  split.
  - intros [H1 [H2 [H3 H4]]].
    exists (Vector2d.mk (Rmax (IRect.x A) (IRect.x B))
                        (Rmax (IRect.y A) (IRect.y B))).
    simpl.
    pose proof (Rmax_l (IRect.x A) (IRect.x B)).
    pose proof (Rmax_r (IRect.x A) (IRect.x B)).
    pose proof (Rmax_l (IRect.y A) (IRect.y B)).
    pose proof (Rmax_r (IRect.y A) (IRect.y B)).
    assert (Rmax (IRect.x A) (IRect.x B) <= IRect.x A + IRect.width A)
      by (apply Rmax_lub; lra).
    assert (Rmax (IRect.x A) (IRect.x B) <= IRect.x B + IRect.width B)
      by (apply Rmax_lub; lra).
    assert (Rmax (IRect.y A) (IRect.y B) <= IRect.y A + IRect.height A)
      by (apply Rmax_lub; lra).
    assert (Rmax (IRect.y A) (IRect.y B) <= IRect.y B + IRect.height B)
      by (apply Rmax_lub; lra).
    repeat split; assumption.
  - intros [p [[[Ha1 Ha2] [Ha3 Ha4]] [[Hb1 Hb2] [Hb3 Hb4]]]]. lra.
Qed.

Lemma haveIntersection_common_point_witness :
  let A := IRect.mk 0 0 10 10 in
  let B := IRect.mk 10 10 5 5 in
  haveIntersection A B = true <-> exists p, inRect p A /\ inRect p B.
Proof.
  intros A B.
  apply (haveIntersection_common_point A B); simpl; lra.
Defined.

(** X2.  A rectangle meets itself exactly when its width and its height
    are not negative: a rectangle of negative width or height intersects
    nothing that it should, not even itself. *)
Theorem haveIntersection_self (A : IRect.t) :
  haveIntersection A A = true <->
  0 <= IRect.width A /\ 0 <= IRect.height A.
Proof. rewrite haveIntersection_true. lra. Qed.

Lemma reverse_is_min_max (q1 q2 : Vector2d.t) :
  reverse q1 q2
  = DragRect.mk (Rmin (Vector2d.x q1) (Vector2d.x q2))
                (Rmin (Vector2d.y q1) (Vector2d.y q2))
                (Rmax (Vector2d.x q1) (Vector2d.x q2))
                (Rmax (Vector2d.y q1) (Vector2d.y q2)).
Proof.
  unfold reverse.
  assert (forall u v,
            (let '(a, b) :=
               if Rgtb u v then (v, v + Rabs (u - v)) else (u, v) in
             (a, b)) = (Rmin u v, Rmax u v)) as Hpair.
  { intros u v. destruct (Rgtb u v) eqn:E.
    - apply Rgtb_true in E.
      rewrite Rabs_pos_eq, Rmin_right, Rmax_left by lra.
      f_equal. lra.
    - apply Rgtb_false in E.
      rewrite Rmin_left, Rmax_right by lra. reflexivity. }
  pose proof (Hpair (Vector2d.x q1) (Vector2d.x q2)) as Hx.
  pose proof (Hpair (Vector2d.y q1) (Vector2d.y q2)) as Hy.
  cbv zeta in *.
  destruct (if Rgtb (Vector2d.x q1) (Vector2d.x q2)
            then (Vector2d.x q2,
                  Vector2d.x q2 + Rabs (Vector2d.x q1 - Vector2d.x q2))
            else (Vector2d.x q1, Vector2d.x q2)) as [ax bx].
  destruct (if Rgtb (Vector2d.y q1) (Vector2d.y q2)
            then (Vector2d.y q2,
                  Vector2d.y q2 + Rabs (Vector2d.y q1 - Vector2d.y q2))
            else (Vector2d.y q1, Vector2d.y q2)) as [ay by_].
  injection Hx as Hx1 Hx2. injection Hy as Hy1 Hy2.
  subst. reflexivity.
Qed.

(** X3.  [reverse] returns the smaller coordinates as [(x1, y1)] and the
    larger ones as [(x2, y2)]; it gives the same rectangle for the two
    corners in either order. *)
Theorem reverse_min_max (p1 p2 : Vector2d.t) :
  reverse p1 p2
  = DragRect.mk (Rmin (Vector2d.x p1) (Vector2d.x p2))
                (Rmin (Vector2d.y p1) (Vector2d.y p2))
                (Rmax (Vector2d.x p1) (Vector2d.x p2))
                (Rmax (Vector2d.y p1) (Vector2d.y p2)) /\
  reverse p1 p2 = reverse p2 p1.
Proof.
  split; [apply reverse_is_min_max|].
  rewrite (reverse_is_min_max p1 p2), (reverse_is_min_max p2 p1).
  rewrite (Rmin_comm (Vector2d.x p1)), (Rmin_comm (Vector2d.y p1)),
    (Rmax_comm (Vector2d.x p1)), (Rmax_comm (Vector2d.y p1)).
  reflexivity.
Qed.

(** ** [decompose] beyond its first branch *)

(** X4.  A matrix whose four linear entries are 0 takes the last branch:
    the translation is still computed against the frame, and rotation,
    both scales and both skews are 0. *)
Theorem decompose_zero_matrix (e f : R) (layer : Layer.t) :
  decompose (Matrix.mk 0 0 0 0 e f) layer
  = Decomposed.mk
      ((e - Vector2d.x (Layer.getAbsolutePosition layer))
       / Vector2d.x (Layer.getAbsoluteScale layer))
      ((f - Vector2d.y (Layer.getAbsolutePosition layer))
       / Vector2d.y (Layer.getAbsoluteScale layer))
      0 0 0 0 0.
Proof.
  unfold decompose. simpl.
  assert (Rneqb 0 0 = false) as H0 by (apply Rneqb_false; reflexivity).
  rewrite H0. simpl. unfold Decomposed.set_rotation. simpl.
  f_equal. unfold Rdiv. ring.
Qed.

Lemma degrees_bound (u : R) :
  - PI <= u <= PI -> -180 <= u * (180 / PI) <= 180.
Proof.
  intros [Hl Hu]. pose proof PI_RGT_0 as Hpi.
  assert (u * (180 / PI) = 180 * (u / PI)) as E by (field; lra).
  rewrite E.
  assert (-1 <= u / PI <= 1) as [H1 H2].
  { split.
    - apply (Rmult_le_reg_r PI); [lra|].
      unfold Rdiv. rewrite Rmult_assoc, Rinv_l by lra. lra.
    - apply (Rmult_le_reg_r PI); [lra|].
      unfold Rdiv. rewrite Rmult_assoc, Rinv_l by lra. lra. }
  lra.
Qed.

(** X5.  Whatever the matrix and the frame, the rotation that
    [decompose] returns lies between -180 and 270 degrees (between -180
    and 180 when [a] or [b] is not 0), and at most one of [skewX] and
    [skewY] is not 0. *)
Theorem decompose_output_range (mat : Matrix.t) (layer : Layer.t) :
  -180 <= Decomposed.rotation (decompose mat layer) <= 270 /\
  (Decomposed.skewX (decompose mat layer) = 0 \/
   Decomposed.skewY (decompose mat layer) = 0) /\
  (Matrix.m0 mat <> 0 \/ Matrix.m1 mat <> 0 ->
   Decomposed.rotation (decompose mat layer) <= 180 /\
   Decomposed.skewY (decompose mat layer) = 0).
Proof.
  pose proof PI_RGT_0 as Hpi.
  destruct mat as [a b c d e f]. unfold decompose. simpl.
  destruct (Rneqb a 0 || Rneqb b 0) eqn:E1; simpl.
  - pose proof (acos_bound (a / sqrt (a * a + b * b))) as [Hl Hu].
    assert (-180 <= (if Rgtb b 0
                     then acos (a / sqrt (a * a + b * b))
                     else - acos (a / sqrt (a * a + b * b))) * (180 / PI)
            <= 180) as Hr
        by (apply degrees_bound; destruct (Rgtb b 0); lra).
    split; [lra|]. split; [right; reflexivity|].
    intros _. split; [lra | reflexivity].
  - assert (forall v, - PI <= v <= PI ->
                      -180 <= (PI / 2 - v) * (180 / PI) <= 270) as Hsecond.
    { intros v Hv.
      pose proof (degrees_bound v Hv) as Hd.
      assert ((PI / 2 - v) * (180 / PI) = 90 - v * (180 / PI)) as E
          by (field; lra).
      rewrite E. lra. }
    split; [|split].
    + destruct (Rneqb c 0 || Rneqb d 0) eqn:E2; simpl.
      * pose proof (acos_bound (- c / sqrt (c * c + d * d))) as [Hl Hu].
        pose proof (acos_bound (c / sqrt (c * c + d * d))) as [Hl' Hu'].
        apply Hsecond. destruct (Rgtb d 0); lra.
      * rewrite Rmult_0_l. lra.
    + destruct (Rneqb c 0 || Rneqb d 0); simpl; left; reflexivity.
    + intros Hab. apply orb_false_iff in E1. destruct E1 as [Ea Eb].
      apply Rneqb_false in Ea. apply Rneqb_false in Eb.
      destruct Hab; contradiction.
Qed.

Lemma decompose_output_range_witness :
  let mat := Matrix.mk 3 4 1 2 0 0 in
  let layer := Layer.mk (Vector2d.mk 0 0) (Vector2d.mk 1 1) in
  Decomposed.rotation (decompose mat layer) <= 180 /\
  Decomposed.skewY (decompose mat layer) = 0.
Proof.
  intros mat layer.
  assert (Matrix.m0 mat <> 0 \/ Matrix.m1 mat <> 0) as H
      by (left; simpl; lra).
  exact (proj2 (proj2 (decompose_output_range mat layer)) H).
Defined.

(** X6.  Round trip.  For the matrix of a node at [(x, y)], rotated by
    [theta] with [-PI < theta < PI] and scaled by [(sx, sy)] with
    [0 < sx], inside a frame at [(px, py)] zoomed by [z > 0],
    [decompose] gives back the position, the rotation in degrees and the
    two scales of the node, with no skew, whatever the position and the
    zoom of the frame. *)
Theorem decompose_recovers (x y theta sx sy px py z : R) :
  0 < sx -> 0 < z -> - PI < theta < PI ->
  decompose (placedMatrix x y theta sx sy px py z)
            (Layer.mk (Vector2d.mk px py) (Vector2d.mk z z))
  = Decomposed.mk x y (theta * (180 / PI)) sx sy 0 0.
Proof.
  intros Hsx Hz [Hlo Hhi].
  pose proof (sin2_cos2 theta) as Hsc. unfold Rsqr in Hsc.
  assert (sqrt (z * (sx * cos theta) * (z * (sx * cos theta))
                + z * (sx * sin theta) * (z * (sx * sin theta)))
          = z * sx) as Hr.
  { replace (z * (sx * cos theta) * (z * (sx * cos theta))
             + z * (sx * sin theta) * (z * (sx * sin theta)))
      with ((z * sx) * (z * sx)
            * (sin theta * sin theta + cos theta * cos theta)) by ring.
    rewrite Hsc, Rmult_1_r. apply sqrt_square. nra. }
  assert (0 < z * sx) as Hzs by nra.
  assert (Rneqb (z * (sx * cos theta)) 0 || Rneqb (z * (sx * sin theta)) 0
          = true) as Hbranch.
  { apply orb_true_iff.
    destruct (Req_dec_T (cos theta) 0) as [Hc | Hc].
    - right. apply Rneqb_true. intros Hb.
      assert (sin theta = 0) as Hs.
      { destruct (Rmult_integral _ _ Hb) as [H | H]; [lra|].
        destruct (Rmult_integral _ _ H) as [H' | H']; [lra | exact H']. }
      rewrite Hc, Hs in Hsc. lra.
    - left. apply Rneqb_true. intros Ha.
      destruct (Rmult_integral _ _ Ha) as [H | H]; [lra|].
      destruct (Rmult_integral _ _ H) as [H' | H']; [lra | contradiction]. }
  assert ((if Rgtb (z * (sx * sin theta)) 0
           then acos (z * (sx * cos theta) / (z * sx))
           else - acos (z * (sx * cos theta) / (z * sx))) = theta) as Hrot.
  { replace (z * (sx * cos theta) / (z * sx)) with (cos theta)
      by (field; lra).
    destruct (Rgtb (z * (sx * sin theta)) 0) eqn:Eb.
    - apply Rgtb_true in Eb.
      assert (0 < sin theta) as Hs by nra.
      apply acos_cos. split; [|lra].
      destruct (Rle_lt_dec 0 theta) as [H | H]; [exact H|].
      pose proof (sin_lt_0_var theta Hlo H). lra.
    - apply Rgtb_false in Eb.
      assert (sin theta <= 0) as Hs by nra.
      assert (theta <= 0) as Hneg.
      { destruct (Rle_lt_dec theta 0) as [H | H]; [exact H|].
        pose proof (sin_gt_0 theta H Hhi). lra. }
      rewrite <- (cos_neg theta), acos_cos by lra. lra. }
  unfold decompose, placedMatrix, delta. simpl.
  rewrite Hbranch, Hr, Hrot. simpl.
  unfold Decomposed.set_skewX, Decomposed.set_scaleY, Decomposed.set_scaleX,
    Decomposed.set_rotation. simpl.
  replace ((z * (sx * cos theta) * (z * - (sy * sin theta))
            + z * (sx * sin theta) * (z * (sy * cos theta)))
           / (z * sx * (z * sx))) with 0 by (field; lra).
  rewrite atan_0.
  f_equal; try (field; lra).
  replace (z * (sx * cos theta) * (z * (sy * cos theta))
           - z * (sx * sin theta) * (z * - (sy * sin theta)))
    with ((z * z * sx * sy)
          * (sin theta * sin theta + cos theta * cos theta)) by ring.
  rewrite Hsc. field. lra.
Qed.

Lemma decompose_recovers_witness :
  decompose (placedMatrix 10 20 0 2 3 5 5 2)
            (Layer.mk (Vector2d.mk 5 5) (Vector2d.mk 2 2))
  = Decomposed.mk 10 20 (0 * (180 / PI)) 2 3 0 0.
Proof.
  pose proof PI_RGT_0 as Hpi.
  apply decompose_recovers; lra.
Defined.

(** ** Zooming with the wheel *)

Lemma scaleBy_pos : 0 < scaleBy.
Proof. unfold scaleBy. lra. Qed.

(** X7.  Zooming keeps the point under the pointer where it is.  For a
    stage with the same non-zero scale on both axes, the point of the
    scene drawn at the pointer is the same before and after the wheel
    handler; the new scale is again the same on both axes, it is the old
    one multiplied (for [deltaY < 0]) or divided by 1.04, and it is
    positive when the old one is. *)
Theorem wheelZoom_keeps_pointed_point (deltaY : R) (pointer : Vector2d.t)
    (stage : StageView.t) :
  StageView.scaleX stage <> 0 ->
  StageView.scaleY stage = StageView.scaleX stage ->
  let stage' := wheelZoom deltaY pointer stage in
  scenePoint pointer stage' = scenePoint pointer stage /\
  StageView.scaleY stage' = StageView.scaleX stage' /\
  (deltaY < 0 ->
   StageView.scaleX stage' = StageView.scaleX stage * 1.04) /\
  (~ deltaY < 0 ->
   StageView.scaleX stage' = StageView.scaleX stage / 1.04) /\
  (0 < StageView.scaleX stage -> 0 < StageView.scaleX stage').
Proof.
  intros Hs Hu stage'. pose proof scaleBy_pos as Hk.
  assert (StageView.scaleX stage' <> 0) as Hs'.
  { unfold stage', wheelZoom. simpl. destruct (Rltb deltaY 0).
    - intros H. destruct (Rmult_integral _ _ H); lra.
    - unfold Rdiv. intros H. destruct (Rmult_integral _ _ H) as [H1 | H1];
        [lra|]. pose proof (Rinv_neq_0_compat scaleBy). lra. }
  split; [|split; [reflexivity|split; [|split]]].
  - unfold scenePoint. rewrite Hu.
    change (StageView.scaleY stage') with (StageView.scaleX stage').
    unfold stage', wheelZoom in *. simpl in *.
    set (ns := if Rltb deltaY 0
               then StageView.scaleX stage * scaleBy
               else StageView.scaleX stage / scaleBy) in *.
    f_equal; field; split; assumption.
  - intros Hd. unfold stage', wheelZoom. simpl.
    apply Rltb_true in Hd. rewrite Hd. reflexivity.
  - intros Hd. unfold stage', wheelZoom. simpl.
    destruct (Rltb deltaY 0) eqn:E; [|reflexivity].
    apply Rltb_true in E. contradiction.
  - intros Hpos. unfold stage', wheelZoom. simpl.
    destruct (Rltb deltaY 0).
    + apply Rmult_lt_0_compat; assumption.
    + apply Rdiv_lt_0_compat; assumption.
Qed.

Lemma wheelZoom_keeps_pointed_point_witness :
  let stage := StageView.mk 2 2 10 20 in
  let pointer := Vector2d.mk 100 50 in
  scenePoint pointer (wheelZoom (-1) pointer stage)
  = scenePoint pointer stage.
Proof.
  intros stage pointer.
  assert (StageView.scaleX stage <> 0) as Hs by (simpl; lra).
  exact (proj1 (wheelZoom_keeps_pointed_point (-1) pointer stage Hs
                  eq_refl)).
Defined.

(** X8.  Round trip.  With the pointer held in place, zooming in and
    then out (or out and then in) gives back the scale and the position
    of the stage. *)
Theorem wheelZoom_in_out (dIn dOut : R) (pointer : Vector2d.t)
    (stage : StageView.t) :
  StageView.scaleX stage <> 0 ->
  StageView.scaleY stage = StageView.scaleX stage ->
  dIn < 0 -> ~ dOut < 0 ->
  wheelZoom dOut pointer (wheelZoom dIn pointer stage) = stage /\
  wheelZoom dIn pointer (wheelZoom dOut pointer stage) = stage.
Proof.
  intros Hs Hu Hin Hout. pose proof scaleBy_pos as Hk.
  apply Rltb_true in Hin.
  assert (Rltb dOut 0 = false) as Hout'.
  { destruct (Rltb dOut 0) eqn:E; [|reflexivity].
    apply Rltb_true in E. contradiction. }
  destruct stage as [s s' px py]. simpl in *. subst s'.
  unfold wheelZoom. simpl. rewrite Hin, Hout'.
  split; f_equal; field; lra.
Qed.

Lemma wheelZoom_in_out_witness :
  let stage := StageView.mk 2 2 10 20 in
  let pointer := Vector2d.mk 100 50 in
  wheelZoom 1 pointer (wheelZoom (-1) pointer stage) = stage.
Proof.
  intros stage pointer.
  assert (StageView.scaleX stage <> 0) as Hs by (simpl; lra).
  assert (-1 < 0) as Hin by lra.
  assert (~ 1 < 0) as Hout by lra.
  exact (proj1 (wheelZoom_in_out (-1) 1 pointer stage Hs eq_refl Hin Hout)).
Defined.

(** ** [Util.requestAnimFrame] *)

Section AnimationFrames.

Variable Callback : Type.
Variable requests : Callback -> list Callback.

Lemma requestAnimFrame_coalesced (callback : Callback) (s : Util.t Callback) :
  Util.coalesced Callback s ->
  Util.coalesced Callback (Util.requestAnimFrame Callback callback s) /\
  Util.called Callback (Util.requestAnimFrame Callback callback s)
  = Util.called Callback s /\
  Util.queue Callback (Util.requestAnimFrame Callback callback s)
  = Util.queue Callback s ++ [callback].
Proof.
  intros Hinv. unfold Util.coalesced, Util.requestAnimFrame in *. simpl.
  split; [|split; reflexivity].
  destruct (Util.queue Callback s) as [|c q]; simpl.
  - rewrite Hinv. reflexivity.
  - rewrite Hinv. destruct (q ++ [callback]) eqn:E; simpl.
    + destruct q; discriminate.
    + reflexivity.
Qed.

Lemma requests_coalesced (l : list Callback) (s : Util.t Callback) :
  Util.coalesced Callback s ->
  let s' :=
    fold_left (fun s r => Util.requestAnimFrame Callback r s) l s in
  Util.coalesced Callback s' /\
  Util.called Callback s' = Util.called Callback s /\
  Util.queue Callback s' = Util.queue Callback s ++ l.
Proof.
  revert s. induction l as [|r l IH]; intros s Hinv; simpl.
  - rewrite app_nil_r. repeat split. exact Hinv.
  - destruct (requestAnimFrame_coalesced r s Hinv) as [H1 [H2 H3]].
    destruct (IH _ H1) as [H1' [H2' H3']]. cbv zeta in *.
    split; [exact H1'|]. split; [congruence|].
    rewrite H3', H3, <- app_assoc. reflexivity.
Qed.

Lemma calls_coalesced (anims : list Callback) (s : Util.t Callback) :
  Util.coalesced Callback s ->
  let s' := fold_left (Util.call Callback requests) anims s in
  Util.coalesced Callback s' /\
  Util.called Callback s' = Util.called Callback s ++ anims /\
  Util.queue Callback s'
  = Util.queue Callback s ++ flat_map requests anims.
Proof.
  revert s. induction anims as [|cb anims IH]; intros s Hinv; simpl.
  - rewrite !app_nil_r. repeat split. exact Hinv.
  - assert (Util.coalesced Callback
              (Util.mk Callback (Util.queue Callback s)
                 (Util.scheduled Callback s)
                 (Util.called Callback s ++ [cb]))) as Hlog by exact Hinv.
    destruct (requests_coalesced (requests cb) _ Hlog) as [H1 [H2 H3]].
    simpl in H2, H3.
    destruct (IH (Util.call Callback requests s cb) H1) as [H1' [H2' H3']].
    split; [exact H1'|]. split.
    + rewrite H2'. unfold Util.call. rewrite H2, <- app_assoc. reflexivity.
    + rewrite H3'. unfold Util.call. rewrite H3, <- app_assoc. reflexivity.
Qed.

(** What one delivered frame does. *)
Lemma animationFrame_effect (s : Util.t Callback) :
  Util.coalesced Callback s ->
  (Util.queue Callback s = [] ->
   Util.animationFrame Callback requests s = None) /\
  (Util.queue Callback s <> [] ->
   exists s',
     Util.animationFrame Callback requests s = Some s' /\
     Util.called Callback s'
     = Util.called Callback s ++ Util.queue Callback s /\
     Util.queue Callback s' = flat_map requests (Util.queue Callback s) /\
     Util.coalesced Callback s').
Proof.
  intros Hinv. unfold Util.coalesced in Hinv. split.
  - intros Hq. unfold Util.animationFrame. rewrite Hinv, Hq. reflexivity.
  - intros Hq. unfold Util.animationFrame. rewrite Hinv.
    destruct (Util.queue Callback s) as [|c q] eqn:E; [contradiction|].
    assert (Util.coalesced Callback
              (Util.mk Callback [] 0 (Util.called Callback s))) as H0
        by reflexivity.
    destruct (calls_coalesced (c :: q) _ H0) as [H1 [H2 H3]].
    eexists. split; [reflexivity|].
    split; [exact H2|]. split; [exact H3 | exact H1].
Qed.


Lemma step_coalesced (st : Util.Step Callback) (s s' : Util.t Callback) :
  Util.coalesced Callback s ->
  Util.step Callback requests st s = Some s' ->
  Util.coalesced Callback s'.
Proof.
  intros Hinv E. destruct st as [callback|]; simpl in E.
  - injection E as E. subst s'.
    apply (requestAnimFrame_coalesced callback s Hinv).
  - destruct (animationFrame_effect s Hinv) as [Hnone Hsome].
    destruct (Util.queue Callback s) as [|c q] eqn:Eq.
    + rewrite Hnone in E by reflexivity. discriminate.
    + destruct Hsome as [s1 [E1 [_ [_ H1]]]]; [discriminate|].
      rewrite E1 in E. injection E as E. subst s'. exact H1.
Qed.

(** X10.  Requests are coalesced.  Starting with an empty queue, after
    any requests and delivered frames, in any order, at most one
    animation frame is outstanding, and one is outstanding exactly when
    callbacks wait in the queue. *)
Theorem run_coalesced (steps : list (Util.Step Callback)) (s : Util.t Callback) :
  Util.run Callback requests steps (Util.init Callback) = Some s ->
  Util.coalesced Callback s /\
  (Util.scheduled Callback s <= 1)%nat /\
  (Util.scheduled Callback s = 1%nat <-> Util.queue Callback s <> []).
Proof.
  intros Hrun.
  assert (Util.coalesced Callback s) as Hinv.
  { revert s Hrun. unfold Util.run.
    induction steps as [|st steps IH] using rev_ind; intros s Hrun.
    - injection Hrun as Hrun. subst s. reflexivity.
    - rewrite fold_left_app in Hrun. simpl in Hrun.
      destruct (fold_left _ steps _) as [s1|] eqn:E1; [|discriminate].
      apply (step_coalesced st s1 s); [|exact Hrun].
      apply IH. reflexivity. }
  split; [exact Hinv|]. unfold Util.coalesced in Hinv. rewrite Hinv.
  destruct (Util.queue Callback s); split; try lia;
    split; intros H; try discriminate; try reflexivity; contradiction.
Qed.

End AnimationFrames.


Lemma run_coalesced_witness :
  let steps :=
    [Util.Request nat 1%nat; Util.Request nat 2%nat; Util.Frame nat;
     Util.Request nat 3%nat] in
  exists s,
    Util.run nat (fun _ => []) steps (Util.init nat) = Some s /\
    (Util.scheduled nat s <= 1)%nat.
Proof.
  intros steps. eexists. split; [reflexivity|].
  apply (run_coalesced nat (fun _ => []) steps). reflexivity.
Defined.

(** ** Proxies and copies *)

Lemma Forall2_weaken_In {A B : Type} (P Q : A -> B -> Prop)
    (l : list A) (l' : list B) :
  (forall a b, In a l -> P a b -> Q a b) ->
  Forall2 P l l' -> Forall2 Q l l'.
Proof.
  intros Himp Hall. induction Hall as [|a b l l' Hab Hrest IH];
    constructor.
  - apply Himp; [left; reflexivity | exact Hab].
  - apply IH. intros a' b' Hin. apply Himp. right. exact Hin.
Qed.

Lemma Forall2_right {A B : Type} (P : A -> B -> Prop) (Q : B -> Prop)
    (l : list A) (l' : list B) :
  (forall a b, P a b -> Q b) -> Forall2 P l l' -> Forall Q l'.
Proof.
  intros Himp Hall. induction Hall; constructor; eauto.
Qed.

(** A loop that clones the nodes of a list one after the other, writing
    [f node a] for the attributes [a] of [node] to the clone. *)
Lemma cloning_fold
    (f : NodeRef -> Attrs.t -> Attrs.t)
    (step : list NodeRef * Scene.t -> NodeRef -> list NodeRef * Scene.t)
    (Hstep : forall out sc node,
        fst (step (out, sc) node) = out ++ [Scene.idCounter sc] /\
        Scene.idCounter (snd (step (out, sc) node))
        = (Scene.idCounter sc + 1)%Z /\
        Scene.children (snd (step (out, sc) node)) = Scene.children sc /\
        forall k, Scene.attrs (snd (step (out, sc) node)) k
                  = if Z.eqb k (Scene.idCounter sc)
                    then f node (Scene.attrs sc node)
                    else Scene.attrs sc k)
    (l : list NodeRef) (out : list NodeRef) (sc : Scene.t) :
  (forall n, In n l -> (n < Scene.idCounter sc)%Z) ->
  exists copies,
    fst (fold_left step l (out, sc)) = out ++ copies /\
    Forall2
      (fun node c =>
         (Scene.idCounter sc <= c
          < Scene.idCounter (snd (fold_left step l (out, sc))))%Z /\
         Scene.attrs (snd (fold_left step l (out, sc))) c
         = f node (Scene.attrs sc node))
      l copies /\
    NoDup copies /\
    (Scene.idCounter sc
     <= Scene.idCounter (snd (fold_left step l (out, sc))))%Z /\
    Scene.children (snd (fold_left step l (out, sc))) = Scene.children sc /\
    (forall k, (k < Scene.idCounter sc)%Z ->
       Scene.attrs (snd (fold_left step l (out, sc))) k = Scene.attrs sc k).
Proof.
  revert out sc. induction l as [|n l IH]; intros out sc Hl.
  - exists []. simpl. rewrite app_nil_r.
    split; [reflexivity|]. split; [constructor|]. split; [constructor|].
    split; [lia|]. split; reflexivity.
  - destruct (Hstep out sc n) as [Ho [Hc [Hch Ha]]].
    simpl. destruct (step (out, sc) n) as [out1 sc1] eqn:E1.
    simpl in Ho, Hc, Hch, Ha.
    assert (forall n', In n' l -> (n' < Scene.idCounter sc1)%Z) as Hl1.
    { intros n' Hn'. rewrite Hc.
      assert (n' < Scene.idCounter sc)%Z by (apply Hl; right; exact Hn').
      lia. }
    destruct (IH out1 sc1 Hl1) as [copies [Hout [Hall [Hnd [Hmono [Hchs Hold]]]]]].
    set (sc' := snd (fold_left step l (out1, sc1))) in *.
    exists (Scene.idCounter sc :: copies).
    split; [rewrite Hout, Ho, <- app_assoc; reflexivity|].
    assert (forall k, (k < Scene.idCounter sc)%Z ->
                      Scene.attrs sc1 k = Scene.attrs sc k) as Hsame.
    { intros k Hk. rewrite Ha.
      destruct (Z.eqb_spec k (Scene.idCounter sc)); [lia|reflexivity]. }
    split; [|split; [|split; [|split]]].
    + constructor.
      * split; [lia|]. rewrite Hold by lia. rewrite Ha, Z.eqb_refl.
        reflexivity.
      * refine (Forall2_weaken_In _ _ _ _ _ Hall).
        intros n' c Hn' [Hrange Hattr].
        split; [lia|]. rewrite Hattr, Hsame; [reflexivity|].
        apply Hl. right. exact Hn'.
    + constructor; [|exact Hnd].
      intros Hin.
      assert (Forall (fun c => (Scene.idCounter sc1 <= c)%Z) copies) as Hge.
      { refine (Forall2_right _ _ _ _ _ Hall). intros ? ? [Hr _]. lia. }
      rewrite Forall_forall in Hge. specialize (Hge _ Hin). lia.
    + lia.
    + rewrite Hchs, Hch. reflexivity.
    + intros k Hk. rewrite Hold by lia. apply Hsame. exact Hk.
Qed.

Lemma addClone_step (out : list NodeRef) (sc : Scene.t) (node : NodeRef) :
  fst (addClone (out, sc) node) = out ++ [Scene.idCounter sc] /\
  Scene.idCounter (snd (addClone (out, sc) node))
  = (Scene.idCounter sc + 1)%Z /\
  Scene.children (snd (addClone (out, sc) node)) = Scene.children sc /\
  forall k, Scene.attrs (snd (addClone (out, sc) node)) k
            = if Z.eqb k (Scene.idCounter sc)
              then Attrs.setOriginalIndex (_id node) (Scene.attrs sc node)
              else Scene.attrs sc k.
Proof.
  unfold addClone. simpl. repeat split; try reflexivity.
  intros k. unfold upd. rewrite Z.eqb_refl.
  destruct (Z.eqb k (Scene.idCounter sc)); reflexivity.
Qed.

Lemma pushClone_step (out : list NodeRef) (sc : Scene.t) (node : NodeRef) :
  fst (pushClone (out, sc) node) = out ++ [Scene.idCounter sc] /\
  Scene.idCounter (snd (pushClone (out, sc) node))
  = (Scene.idCounter sc + 1)%Z /\
  Scene.children (snd (pushClone (out, sc) node)) = Scene.children sc /\
  forall k, Scene.attrs (snd (pushClone (out, sc) node)) k
            = if Z.eqb k (Scene.idCounter sc)
              then Scene.attrs sc node
              else Scene.attrs sc k.
Proof.
  unfold pushClone. simpl. repeat split; reflexivity.
Qed.

(** What [createBounding] makes and what it leaves alone. *)
Lemma createBounding_effect (s : KonvaSelection.t) :
  (forall n, In n (toArray s) -> (n < idCounterOf s)%Z) ->
  let g := fst (createBounding s) in
  let s' := snd (createBounding s) in
  exists clones,
    bounding s' = Some (Group.mk g clones) /\
    g = idCounterOf s /\
    In g (childrenOf s') /\
    Attrs.visible (attrsOf s' g) = false /\
    List.length clones = JsMap.size (nodes s) /\
    Forall2
      (fun node c =>
         (g < c < idCounterOf s')%Z /\
         attrsOf s' c = Attrs.setOriginalIndex (_id node) (attrsOf s node))
      (toArray s) clones /\
    NoDup clones /\
    nodes s' = nodes s /\
    (forall k, (k < idCounterOf s)%Z -> attrsOf s' k = attrsOf s k) /\
    (forall b, bounding s = Some b -> (Group.ref b < idCounterOf s)%Z ->
       ~ In (Group.ref b) (childrenOf s')).
Proof.
  intros Hl g s'. unfold g, s', createBounding.
  set (s0 := match bounding s with
             | Some b => with_scene (Scene.destroy (Group.ref b) (scene s)) s
             | None => s
             end).
  assert (Scene.idCounter (scene s0) = Scene.idCounter (scene s)) as Hc0
      by (unfold s0; destruct (bounding s); reflexivity).
  assert (Scene.attrs (scene s0) = Scene.attrs (scene s)) as Ha0
      by (unfold s0; destruct (bounding s); reflexivity).
  assert (nodes s0 = nodes s) as Hn0
      by (unfold s0; destruct (bounding s); reflexivity).
  assert (forall b, bounding s = Some b ->
                    ~ In (Group.ref b) (Scene.children (scene s0))) as Hgone.
  { intros b Eb. unfold s0. rewrite Eb. simpl. intros Hin.
    apply in_destroy in Hin. destruct Hin as [_ Hne]. apply Hne.
    reflexivity. }
  simpl. rewrite Hn0.
  set (sc1 := Scene.mk (Scene.idCounter (scene s0) + 1)
                (upd (Scene.attrs (scene s0)) (Scene.idCounter (scene s0))
                     Attrs.empty)
                (Scene.children (scene s0))).
  assert (forall n, In n (JsMap.values (nodes s)) ->
                    (n < Scene.idCounter sc1)%Z) as Hl1.
  { intros n Hn. simpl. rewrite Hc0.
    specialize (Hl n Hn). unfold idCounterOf in Hl. lia. }
  destruct (cloning_fold (fun node a => Attrs.setOriginalIndex (_id node) a)
              addClone addClone_step (JsMap.values (nodes s)) [] sc1 Hl1)
    as [clones [Hout [Hall [Hnd [Hmono [Hch Hold]]]]]].
  destruct (fold_left addClone (JsMap.values (nodes s)) ([], sc1))
    as [clones' sc'] eqn:Efold.
  simpl in Hout, Hall, Hmono, Hch, Hold. subst clones'.
  exists clones. unfold idCounterOf, attrsOf, childrenOf. simpl.
  simpl in Hmono.
  assert (forall k, k <> Scene.idCounter (scene s) ->
            upd (Scene.attrs sc') (Scene.idCounter (scene s0))
                (Attrs.setVisible false
                   (Scene.attrs sc' (Scene.idCounter (scene s0)))) k
            = Scene.attrs sc' k) as Hupd.
  { intros k Hk. unfold upd. rewrite Hc0.
    destruct (Z.eqb_spec k (Scene.idCounter (scene s)));
      [contradiction|reflexivity]. }
  assert (forall k, (k < Scene.idCounter (scene s))%Z ->
                    Scene.attrs sc' k = Scene.attrs (scene s) k) as Hkeep.
  { intros k Hk. rewrite Hold by (simpl; lia). simpl. unfold upd.
    rewrite Hc0. destruct (Z.eqb_spec k (Scene.idCounter (scene s)));
      [lia|]. rewrite Ha0. reflexivity. }
  split; [reflexivity|]. split; [exact Hc0|].
  split; [rewrite Hch; simpl; apply in_or_app; right; left; reflexivity|].
  split; [unfold upd; rewrite Z.eqb_refl; reflexivity|].
  split.
  { apply Forall2_length in Hall. unfold JsMap.size, JsMap.values in *.
    rewrite length_map in Hall. symmetry. exact Hall. }
  split.
  { unfold toArray.
    refine (Forall2_weaken_In _ _ _ _ _ Hall).
    intros n c Hn [Hr Hattr]. simpl in Hr.
    split; [lia|].
    rewrite Hupd by lia. rewrite Hattr. simpl. unfold upd.
    specialize (Hl n Hn). unfold idCounterOf in Hl.
    rewrite Hc0. destruct (Z.eqb_spec n (Scene.idCounter (scene s)));
      [lia|].
    rewrite Ha0. reflexivity. }
  split; [exact Hnd|].
  split; [exact Hn0|].
  split.
  { intros k Hk. rewrite Hupd by lia. apply Hkeep. exact Hk. }
  intros b Eb Hblt Hin. rewrite Hch in Hin. simpl in Hin.
  apply in_app_or in Hin. destruct Hin as [Hin | [Hin | []]].
  - exact (Hgone b Eb Hin).
  - rewrite Hc0 in Hin. unfold idCounterOf in Hblt. lia.
Qed.

(** X11.  The bounding group mirrors the selection.  When the selected
    nodes are nodes of the scene, [createBounding] makes a new, invisible
    group that is a child of the layer and holds one clone for each
    selected node, in the order of the selection: the clone is a new
    node with the attributes of the selected node plus its [_id] as
    [originalIndex].  The clones are distinct, the selection and the
    attributes of the existing nodes are unchanged, and the group made
    before is no longer a child of the layer. *)
Theorem createBounding_proxies (s : KonvaSelection.t) :
  (forall n, In n (toArray s) -> (n < idCounterOf s)%Z) ->
  let g := fst (createBounding s) in
  let s' := snd (createBounding s) in
  exists clones,
    bounding s' = Some (Group.mk g clones) /\
    g = idCounterOf s /\
    In g (childrenOf s') /\
    Attrs.visible (attrsOf s' g) = false /\
    List.length clones = JsMap.size (nodes s) /\
    Forall2
      (fun node c =>
         (g < c < idCounterOf s')%Z /\
         attrsOf s' c = Attrs.setOriginalIndex (_id node) (attrsOf s node))
      (toArray s) clones /\
    NoDup clones /\
    nodes s' = nodes s /\
    (forall k, (k < idCounterOf s)%Z -> attrsOf s' k = attrsOf s k) /\
    (forall b, bounding s = Some b -> (Group.ref b < idCounterOf s)%Z ->
       ~ In (Group.ref b) (childrenOf s')).
Proof. exact (createBounding_effect s). Qed.

Lemma createBounding_proxies_witness :
  let s := constructor demoScene (ArrayOf [1; 3]%Z) in
  (forall n, In n (toArray s) -> (n < idCounterOf s)%Z) /\
  exists clones,
    bounding (snd (createBounding s))
    = Some (Group.mk (fst (createBounding s)) clones) /\
    List.length clones = JsMap.size (nodes s).
Proof.
  intros s.
  assert (forall n, In n (toArray s) -> (n < idCounterOf s)%Z) as Hl.
  { intros n [H | [H | []]]; subst n; reflexivity. }
  split; [exact Hl|].
  destruct (createBounding_proxies s Hl) as [clones [Hb [_ [_ [_ [Hlen _]]]]]].
  exists clones. split; [exact Hb | exact Hlen].
Defined.

(** What [clone] returns and what it leaves alone. *)
Lemma clone_effect (s : KonvaSelection.t) :
  (forall n, In n (toArray s) -> (n < idCounterOf s)%Z) ->
  (forall k, In k (childrenOf s) -> (k < idCounterOf s)%Z) ->
  let output := fst (clone s) in
  let s' := snd (clone s) in
  Forall2
    (fun node c =>
       (idCounterOf s <= c < idCounterOf s')%Z /\
       attrsOf s' c = attrsOf s node)
    (toArray s) output /\
  NoDup output /\
  (forall c, In c output -> ~ In c (childrenOf s')) /\
  toArray s' = toArray s /\
  childrenOf s' = childrenOf s /\
  transformer s' = transformer s /\
  selectionChange s' = selectionChange s /\
  (forall k, (k < idCounterOf s)%Z -> attrsOf s' k = attrsOf s k).
Proof.
  intros Hl Hch output s'. unfold output, s', clone.
  destruct (cloning_fold (fun _ a => a) pushClone pushClone_step
              (JsMap.values (nodes s)) [] (scene s) Hl)
    as [copies [Hout [Hall [Hnd [Hmono [Hchs Hold]]]]]].
  destruct (fold_left pushClone (JsMap.values (nodes s)) ([], scene s))
    as [out sc'] eqn:Efold.
  simpl in Hout, Hall, Hmono, Hchs, Hold. subst out.
  unfold idCounterOf, attrsOf, childrenOf, toArray in *. simpl.
  split; [exact Hall|]. split; [exact Hnd|].
  split.
  { intros c Hc Hin. rewrite Hchs in Hin. apply Hch in Hin.
    assert (Forall (fun c => (Scene.idCounter (scene s) <= c)%Z) copies)
      as Hge.
    { refine (Forall2_right _ _ _ _ _ Hall). intros ? ? [Hr _]. lia. }
    rewrite Forall_forall in Hge. specialize (Hge c Hc). lia. }
  split; [reflexivity|]. split; [exact Hchs|].
  split; [reflexivity|]. split; [reflexivity | exact Hold].
Qed.

(** X12.  [clone] copies without touching anything.  When the selected
    nodes and the children of the layer are nodes of the scene, [clone]
    returns one new node for each node of [toArray], in the same order
    and with the same attributes; the copies are distinct, none of them
    is a child of the layer, and the selection, the children of the
    layer and the attributes of the existing nodes are unchanged. *)
Theorem clone_detached_copies (s : KonvaSelection.t) :
  (forall n, In n (toArray s) -> (n < idCounterOf s)%Z) ->
  (forall k, In k (childrenOf s) -> (k < idCounterOf s)%Z) ->
  let output := fst (clone s) in
  let s' := snd (clone s) in
  Forall2
    (fun node c =>
       (idCounterOf s <= c < idCounterOf s')%Z /\
       attrsOf s' c = attrsOf s node)
    (toArray s) output /\
  NoDup output /\
  (forall c, In c output -> ~ In c (childrenOf s')) /\
  toArray s' = toArray s /\
  childrenOf s' = childrenOf s /\
  transformer s' = transformer s /\
  selectionChange s' = selectionChange s /\
  (forall k, (k < idCounterOf s)%Z -> attrsOf s' k = attrsOf s k).
Proof. exact (clone_effect s). Qed.

Lemma clone_detached_copies_witness :
  let s := constructor demoScene (ArrayOf [1; 3]%Z) in
  NoDup (fst (clone s)) /\
  toArray (snd (clone s)) = toArray s.
Proof.
  intros s.
  assert (forall n, In n (toArray s) -> (n < idCounterOf s)%Z) as Hl.
  { intros n [H | [H | []]]; subst n; reflexivity. }
  assert (forall k, In k (childrenOf s) -> (k < idCounterOf s)%Z) as Hch.
  { intros k [H | [H | [H | []]]]; subst k; reflexivity. }
  destruct (clone_detached_copies s Hl Hch) as [_ [Hnd [_ [Ht _]]]].
  split; [exact Hnd | exact Ht].
Defined.

(** ** Clicks *)

Lemma clear_fields (s : KonvaSelection.t) :
  nodes (clear s) = [] /\
  transformer (clear s) = None /\
  selectionChange (clear s) = selectionChange s /\
  bounding (clear s) = bounding s /\
  selectBox (clear s) = selectBox s /\
  selectAttrs (clear s) = selectAttrs s /\
  oldPosition (clear s) = oldPosition s.
Proof.
  destruct s as [sc ch b box old sa ns [tr|]]; repeat split; reflexivity.
Qed.

Lemma add_first (node : NodeRef) (s : KonvaSelection.t) :
  nodes s = [] -> transformer s = None ->
  nodes (After.add node s) = [(_id node, node)] /\
  selectionChange (After.add node s) = selectionChange s ++ [[(_id node, node)]] /\
  exists tr, transformer (After.add node s) = Some tr /\
             Transformer._node tr = Some node.
Proof.
  intros Hn Ht. destruct s as [sc ch b box old sa ns tr].
  simpl in Hn, Ht. subst ns tr. rewrite add_after; cbv zeta. simpl.
  split; [reflexivity|]. split; [reflexivity|].
  eexists. split; reflexivity.
Qed.


(** X13.  A click on a node.  On a node that is not named ['entity']
    nothing changes.  On an entity that is already selected nothing
    changes either, with or without the shift key.  With the shift key an
    unselected entity is added to the selection; without it the entity
    becomes the whole selection, the transformer is attached to it, and
    in both cases exactly one notification is emitted, with the new
    selection.  The handler returns. *)
Theorem click_selects (node : NodeRef) (shiftKey : bool)
    (pointer : Vector2d.t) (s : KonvaSelection.t) :
  let s' := stateOf (mousedown (OnNode node) shiftKey pointer s) in
  mousedown (OnNode node) shiftKey pointer s = Returned s' /\
  (isEntity s node = false -> s' = s) /\
  (isEntity s node = true -> JsMap.has (_id node) (nodes s) = true ->
     s' = s) /\
  (isEntity s node = true -> JsMap.has (_id node) (nodes s) = false ->
     shiftKey = true ->
     nodes s' = nodes s ++ [(_id node, node)] /\
     selectionChange s' = selectionChange s ++ [nodes s']) /\
  (isEntity s node = true -> JsMap.has (_id node) (nodes s) = false ->
     shiftKey = false ->
     nodes s' = [(_id node, node)] /\
     selectionChange s' = selectionChange s ++ [nodes s'] /\
     exists tr, transformer s' = Some tr /\
                Transformer._node tr = Some node).
Proof.
  intros s'. split; [apply mousedown_returns|].
  unfold s'.
  change (stateOf (mousedown (OnNode node) shiftKey pointer s))
    with (After.mousedown (OnNode node) shiftKey pointer s).
  rewrite mousedown_after; cbv zeta. unfold isEntity, attrsOf.
  split; [|split; [|split]].
  - intros He. rewrite He. reflexivity.
  - intros He Hh. rewrite He, Hh, andb_false_r.
    apply add_present. exact Hh.
  - intros He Hh Hs. rewrite He, Hs. simpl.
    destruct (add_absent_selection node s Hh) as [Hn [Hc _]].
    rewrite Hc, Hn. unfold JsMap.set.
    rewrite Hh. split; reflexivity.
  - intros He Hh Hs. rewrite He, Hh, Hs. simpl.
    destruct (clear_fields s) as [Hn [Ht [Hc _]]].
    destruct (add_first node (clear s) Hn Ht) as [Hn' [Hc' Htr]].
    rewrite Hn', Hc', Hc. split; [reflexivity|].
    split; [reflexivity | exact Htr].
Qed.

Lemma click_selects_witness :
  let s := After.add 1%Z (constructor demoScene Undefined) in
  let s' := After.mousedown (OnNode 2%Z) false (Vector2d.mk 210 110) s in
  isEntity s 2%Z = true /\
  JsMap.has (_id 2%Z) (nodes s) = false /\
  nodes s' = [(_id 2%Z, 2%Z)] /\
  selectionChange s' = selectionChange s ++ [nodes s'].
Proof.
  intros s s'.
  assert (isEntity s 2%Z = true) as He by reflexivity.
  assert (JsMap.has (_id 2%Z) (nodes s) = false) as Hh by reflexivity.
  split; [exact He|]. split; [exact Hh|].
  destruct (click_selects 2%Z false (Vector2d.mk 210 110) s)
    as [_ [_ [_ [_ H]]]].
  destruct (H He Hh eq_refl) as [Hn [Hc _]].
  split; [exact Hn | exact Hc].
Defined.

(** X14.  A press on the empty stage deselects everything and starts a
    marquee at the pointer.  The selection is emptied and the transformer
    destroyed without any notification; the select box is the one that
    exists or a new node; the bounding group is kept and the working
    layer only loses the transformer.  The handler returns. *)
Theorem stage_press_deselects (shiftKey : bool) (pointer : Vector2d.t)
    (s : KonvaSelection.t) :
  let s' := stateOf (mousedown OnStage shiftKey pointer s) in
  mousedown OnStage shiftKey pointer s = Returned s' /\
  nodes s' = [] /\
  transformer s' = None /\
  selectionChange s' = selectionChange s /\
  selectAttrs s' = SelectAttrs.mk (Some pointer) (Some pointer) true /\
  selectBox s'
  = Some (match selectBox s with
          | Some box => box
          | None => idCounterOf s
          end) /\
  bounding s' = bounding s /\
  (forall k, In k (childrenOf s') <->
     In k (childrenOf s) /\
     forall tr, transformer s = Some tr -> k <> Transformer.ref tr) /\
  (forall k, (k < idCounterOf s)%Z -> attrsOf s' k = attrsOf s k).
Proof.
  intros s'. unfold s', idCounterOf, childrenOf, attrsOf.
  destruct pointer as [px py].
  destruct s as [sc ch b [box|] old sa ns [tr|]]; simpl;
    (split; [reflexivity|]);
    (split; [reflexivity|]); (split; [reflexivity|]);
    (split; [reflexivity|]); (split; [reflexivity|]);
    (split; [reflexivity|]); (split; [reflexivity|]);
    (split; [|intros k Hk; unfold upd;
              try (destruct (Z.eqb_spec k (Scene.idCounter sc)); [lia|]);
              reflexivity]);
    intros k;
    try change (filter (fun c : Z => negb (c =? Transformer.ref tr)%Z)
                  (Scene.children sc))
      with (Scene.children (Scene.destroy (Transformer.ref tr) sc));
    rewrite ?in_destroy.
  - split.
    + intros [Hin Hne]. split; [exact Hin|].
      intros tr' Etr. injection Etr as <-. exact Hne.
    + intros [Hin Hne]. split; [exact Hin | exact (Hne tr eq_refl)].
  - split; [intros Hin; split; [exact Hin | discriminate]|].
    intros [Hin _]. exact Hin.
  - split.
    + intros [Hin Hne]. split; [exact Hin|].
      intros tr' Etr. injection Etr as <-. exact Hne.
    + intros [Hin Hne]. split; [exact Hin | exact (Hne tr eq_refl)].
  - split; [intros Hin; split; [exact Hin | discriminate]|].
    intros [Hin _]. exact Hin.
Qed.

(** ** Events *)

Lemma with_scene_fold {A : Type}
    (step : KonvaSelection.t -> A -> KonvaSelection.t)
    (Hstep : forall s a, exists sc, step s a = with_scene sc s)
    (l : list A) (s : KonvaSelection.t) :
  exists sc, fold_left step l s = with_scene sc s.
Proof.
  revert s. induction l as [|a l IH]; intros s.
  - exists (scene s). destruct s; reflexivity.
  - simpl. destruct (Hstep s a) as [sc1 E1]. rewrite E1.
    destruct (IH (with_scene sc1 s)) as [sc2 E2]. rewrite E2.
    exists sc2. reflexivity.
Qed.

Lemma with_scene_self (s : KonvaSelection.t) : s = with_scene (scene s) s.
Proof. destruct s; reflexivity. Qed.

Lemma move_fold_with_scene (target : NodeRef) (diffPos : Vector2d.t)
    (l : list NodeRef) (s : KonvaSelection.t) :
  exists sc,
    fold_left
      (fun s child =>
         if Z.eqb child target then s
         else with_scene
                (Scene.setAttrs child (Attrs.move diffPos) (scene s)) s)
      l s
    = with_scene sc s.
Proof.
  apply with_scene_fold. intros s0 child.
  destruct (Z.eqb child target).
  - exists (scene s0). apply with_scene_self.
  - eexists. reflexivity.
Qed.

Lemma dragmove_fields (target : NodeRef) (s : KonvaSelection.t) :
  let s' := stateOf (dragmove target s) in
  nodes s' = nodes s /\
  selectionChange s' = selectionChange s /\
  selectBox s' = selectBox s /\
  selectAttrs s' = selectAttrs s /\
  (oldPosition s <> None -> oldPosition s' <> None).
Proof.
  cbv zeta. rewrite dragmove_after.
  destruct (oldPosition s) as [old|]; [|repeat split; tauto]. cbv zeta.
  match goal with
  | |- context [fold_left (fun s child => if _ then s else
                  with_scene (Scene.setAttrs child (Attrs.move ?d) _) s)
                  ?l s] =>
      destruct (move_fold_with_scene target d l s) as [sc E]
  end.
  rewrite E.
  match goal with
  | |- context [After.updateTransformer ?x] =>
      destruct (updateTransformer_same x) as [Hn [Hc [Hb [Ha Ho]]]]
  end.
  rewrite Hn, Hc, Hb, Ha, Ho. simpl.
  repeat split; discriminate.
Qed.

(** [dragmove] raises only in [attachTo], once the old position is
    set. *)
Lemma dragmove_raised (target : NodeRef) (s s' : KonvaSelection.t) :
  oldPosition s <> None ->
  dragmove target s = Raised s' -> detached s'.
Proof.
  intros Ho. unfold dragmove.
  destruct (oldPosition s) as [old|]; [|contradiction]. cbv zeta.
  intros E. apply updateTransformer_raised in E.
  split; tauto.
Qed.

Lemma collisionCheck_fields
    (getClientRect : ClientRectConfig.t -> NodeRef -> Attrs.t -> IRect.t)
    (rect : IRect.t) (l : list NodeRef) (s : KonvaSelection.t) :
  let s' := fold_left (After.collisionCheck getClientRect rect) l s in
  selectBox s' = selectBox s /\
  selectAttrs s' = selectAttrs s /\
  oldPosition s' = oldPosition s.
Proof.
  revert s. induction l as [|n l IH]; intros s; simpl.
  - repeat split.
  - destruct (IH (After.collisionCheck getClientRect rect s n)) as [Hb [Ha Ho]].
    rewrite Hb, Ha, Ho. rewrite collisionCheck_after; cbv zeta.
    destruct (_ && _).
    + destruct (JsMap.has (_id n) (nodes s)) eqn:Hh.
      * rewrite (add_present n s Hh). repeat split.
      * destruct (add_absent_selection n s Hh) as [_ [_ [Hb' [Ha' Ho']]]].
        rewrite Hb', Ha', Ho'. repeat split.
    + destruct (remove_selection n s) as [_ [_ [Hb' [Ha' Ho']]]].
      rewrite Hb', Ha', Ho'. repeat split.
Qed.

Lemma perform_fields (op : Operation) (s : KonvaSelection.t) :
  selectBox (After.perform op s) = selectBox s /\
  selectAttrs (After.perform op s) = selectAttrs s /\
  oldPosition (After.perform op s) = oldPosition s.
Proof.
  rewrite perform_after. destruct op as [n|n|].
  - destruct (JsMap.has (_id n) (nodes s)) eqn:Hh.
    + rewrite (add_present n s Hh). repeat split.
    + destruct (add_absent_selection n s Hh) as [_ [_ H]]. exact H.
  - destruct (remove_selection n s) as [_ [_ H]]. exact H.
  - destruct (clear_fields s) as [_ [_ [_ [_ H]]]]. exact H.
Qed.

Lemma stage_press_fields (shiftKey : bool) (pointer : Vector2d.t)
    (s : KonvaSelection.t) :
  let s' := After.mousedown OnStage shiftKey pointer s in
  selectAttrs s' = SelectAttrs.mk (Some pointer) (Some pointer) true /\
  selectBox s'
  = Some (match selectBox s with
          | Some box => box
          | None => idCounterOf s
          end) /\
  oldPosition s' = oldPosition s /\
  nodes s' = [] /\
  transformer s' = None.
Proof.
  destruct pointer as [px py].
  destruct s as [sc ch b [box|] old sa ns [tr|]]; repeat split.
Qed.

Lemma mouseup_fields (s : KonvaSelection.t) :
  marquee_consistent s ->
  exists s',
    mouseup s = Returned s' /\
    SelectAttrs.select (selectAttrs s') = false /\
    oldPosition s' = oldPosition s /\
    selectBox s'
    = (if SelectAttrs.select (selectAttrs s) then None else selectBox s) /\
    nodes s' = nodes s /\
    selectionChange s' = selectionChange s /\
    transformer s' = transformer s /\
    scene s' = scene s.
Proof.
  intros Hm. unfold mouseup, destroySelectBox.
  destruct (SelectAttrs.select (selectAttrs s)) eqn:Es.
  - destruct (Hm Es) as [Hbox _]. simpl.
    destruct (selectBox s) as [box|]; [|contradiction].
    eexists. split; [reflexivity|]. simpl. repeat split.
  - exists s. repeat split. exact Es.
Qed.


(** X15.  Releasing the mouse ends the marquee and nothing else.  In a
    state where the marquee flag is set only while there is a select
    box, [mouseup] returns; it clears the flag and forgets the select
    box, and it leaves the selection, the notifications, the transformer
    and the scene as they are.  Afterwards moving the pointer does
    nothing, and neither does a second [mouseup]. *)
Theorem mouseup_ends_marquee
    (getClientRect : ClientRectConfig.t -> NodeRef -> Attrs.t -> IRect.t)
    (s : KonvaSelection.t) :
  marquee_consistent s ->
  exists s',
    mouseup s = Returned s' /\
    SelectAttrs.select (selectAttrs s') = false /\
    selectBox s'
    = (if SelectAttrs.select (selectAttrs s) then None else selectBox s) /\
    nodes s' = nodes s /\
    selectionChange s' = selectionChange s /\
    transformer s' = transformer s /\
    scene s' = scene s /\
    (forall p, mousemove getClientRect p s' = Returned s') /\
    mouseup s' = Returned s'.
Proof.
  intros Hm. unfold mouseup, destroySelectBox, mousemove.
  destruct (SelectAttrs.select (selectAttrs s)) eqn:Es.
  - destruct (Hm Es) as [Hbox _]. simpl.
    destruct (selectBox s) as [box|]; [|contradiction].
    eexists. split; [reflexivity|]. simpl. repeat split.
  - exists s. rewrite Es. repeat split.
Qed.

Lemma mouseup_ends_marquee_witness :
  let s :=
    stateOf
      (mousedown OnStage false (Vector2d.mk 90 90)
         (constructor demoScene Undefined)) in
  marquee_consistent s /\
  exists s', mouseup s = Returned s' /\ selectBox s' = None.
Proof.
  intros s.
  assert (marquee_consistent s) as Hm.
  { intros _. split; discriminate. }
  split; [exact Hm|].
  destruct (mouseup_ends_marquee pageClientRect s Hm)
    as [s' [E [_ [Hb _]]]].
  exists s'. split; [exact E | exact Hb].
Defined.

(** X16.  Only a press, a marquee update and the public mutators change
    the selection.  Every other event that a handler receives ([mouseup],
    [wheel], [dragstart], [dragmove], and [mousemove] outside a marquee)
    leaves the selected nodes as they are and emits no notification,
    whether the handler returns or raises. *)
Theorem quiet_events_keep_selection
    (getClientRect : ClientRectConfig.t -> NodeRef -> Attrs.t -> IRect.t)
    (e : Event) (s : KonvaSelection.t) :
  quiet e s = true ->
  let s' := stateOf (handle getClientRect e s) in
  nodes s' = nodes s /\ selectionChange s' = selectionChange s.
Proof.
  intros Hq. cbv zeta.
  destruct e as [t sh p|p| | |t|t p|op]; simpl in Hq |- *;
    try discriminate.
  - unfold mousemove. apply negb_true_iff in Hq. rewrite Hq.
    split; reflexivity.
  - unfold mouseup, destroySelectBox.
    destruct (SelectAttrs.select (selectAttrs s)); [|split; reflexivity].
    simpl. destruct (selectBox s); split; reflexivity.
  - unfold wheel.
    destruct (updateTransformer_same s) as [Hn [Hc _]].
    split; [exact Hn | exact Hc].
  - split; reflexivity.
  - unfold dragFrame.
    match goal with
    | |- context [dragmove t ?x] =>
        destruct (dragmove_fields t x) as [Hn [Hc _]]
    end.
    split; [exact Hn | exact Hc].
Qed.

Lemma quiet_events_keep_selection_witness :
  let s := stateOf (add 1%Z (constructor demoScene Undefined)) in
  quiet Wheel s = true /\
  nodes (stateOf (handle pageClientRect Wheel s)) = nodes s /\
  selectionChange (stateOf (handle pageClientRect Wheel s))
  = selectionChange s.
Proof.
  intros s.
  assert (quiet Wheel s = true) as Hq by reflexivity.
  split; [exact Hq|].
  exact (quiet_events_keep_selection pageClientRect Wheel s Hq).
Defined.

(** What [handle] keeps: the marquee flag stays consistent, and the old
    position, once set, stays set.  A handler that raises has found the
    selection empty in [attachTo]. *)
Lemma handle_consistent
    (getClientRect : ClientRectConfig.t -> NodeRef -> Attrs.t -> IRect.t)
    (e : Event) (s : KonvaSelection.t) :
  marquee_consistent s ->
  (match e with Dragmove _ _ => oldPosition s <> None | _ => True end) ->
  let s' := After.handle getClientRect e s in
  marquee_consistent s' /\
  (match e with
   | Dragstart _ => oldPosition s' <> None
   | _ => oldPosition s <> None -> oldPosition s' <> None
   end) /\
  (forall s'', handle getClientRect e s = Raised s'' -> detached s'').
Proof.
  intros Hm He. cbv zeta. unfold After.handle.
  destruct e as [t sh p|p| | |t|t p|op]; simpl.
  - split; [|split; [|rewrite mousedown_returns; discriminate]];
      change (stateOf (mousedown t sh p s)) with (After.mousedown t sh p s);
      destruct t as [|node].
    + destruct (stage_press_fields sh p s) as [Ha [Hb _]].
      intros _. rewrite Ha, Hb. split; discriminate.
    + rewrite mousedown_after; cbv zeta.
      destruct (Attrs.hasName "entity" (Scene.attrs (scene s) node));
        [|exact Hm].
      match goal with
      | |- context [After.add node ?x] =>
          destruct (perform_fields (Add node) x) as [Hb [Ha Ho]];
          change (After.perform (Add node) x) with (After.add node x)
            in Hb, Ha, Ho;
          assert (selectBox x = selectBox s /\ selectAttrs x = selectAttrs s
                  /\ oldPosition x = oldPosition s) as [Hb' [Ha' Ho']]
      end.
      { destruct (negb sh && negb (JsMap.has (_id node) (nodes s)));
          [|repeat split].
        destruct (clear_fields s) as [_ [_ [_ [_ H]]]]. exact H. }
      unfold marquee_consistent. rewrite Hb, Ha, Hb', Ha'. exact Hm.
    + destruct (stage_press_fields sh p s) as [_ [_ [Ho _]]].
      rewrite Ho. tauto.
    + rewrite mousedown_after; cbv zeta.
      destruct (Attrs.hasName "entity" (Scene.attrs (scene s) node));
        [|tauto].
      match goal with
      | |- context [After.add node ?x] =>
          destruct (perform_fields (Add node) x) as [_ [_ Ho]];
          change (After.perform (Add node) x) with (After.add node x) in Ho;
          assert (oldPosition x = oldPosition s) as Ho'
      end.
      { destruct (negb sh && negb (JsMap.has (_id node) (nodes s)));
          [|reflexivity].
        destruct (clear_fields s) as [_ [_ [_ [_ [_ [_ H]]]]]]. exact H. }
      rewrite Ho, Ho'. tauto.
  - unfold mousemove.
    destruct (SelectAttrs.select (selectAttrs s)) eqn:Es;
      [|split; [exact Hm | split; [tauto | discriminate]]].
    destruct (Hm Es) as [Hbox Hstart].
    pose proof (updateDrag_state getClientRect p s) as H. cbv zeta in H.
    destruct (SelectAttrs.posStart (selectAttrs s)) as [p0|] eqn:Ep;
      [|contradiction].
    destruct (selectBox s) as [box|] eqn:Eb; [|contradiction].
    destruct H as [l1 [l2 [_ [Hst [_ Hr]]]]]. rewrite Hst.
    match goal with
    | |- context [fold_left (After.collisionCheck _ ?r) ?l ?x] =>
        destruct (collisionCheck_fields getClientRect r l x) as [Hb [Ha Ho]]
    end.
    cbv zeta in Hb, Ha, Ho. unfold marquee_consistent.
    rewrite Hb, Ha, Ho. simpl. rewrite ?Eb, ?Ep, ?Es.
    split; [intros _; split; discriminate|].
    split; [tauto|]. intros s'' E. exact (Hr s'' E).
  - destruct (mouseup_fields s Hm) as [s' [E [Hs [Ho _]]]].
    rewrite E. simpl. split; [|split; [|discriminate]].
    + intros Hsel. rewrite Hs in Hsel. discriminate.
    + rewrite Ho. tauto.
  - unfold wheel.
    destruct (updateTransformer_same s) as [_ [_ [Hb [Ha Ho]]]].
    change (stateOf (updateTransformer s)) with (After.updateTransformer s).
    unfold marquee_consistent. rewrite Hb, Ha, Ho.
    split; [exact Hm|]. split; [tauto|].
    intros s'' E. apply updateTransformer_raised in E. split; tauto.
  - split; [exact Hm|]. split; discriminate.
  - unfold dragFrame.
    match goal with
    | |- context [dragmove t ?x] =>
        destruct (dragmove_fields t x) as [_ [_ [Hb [Ha Ho]]]];
        pose proof (dragmove_raised t x) as Hr
    end.
    unfold marquee_consistent. rewrite Hb, Ha. simpl.
    split; [exact Hm|]. split; [intros _; apply Ho; exact He|].
    intros s'' E. exact (Hr s'' He E).
  - destruct (perform_fields op s) as [Hb [Ha Ho]].
    change (stateOf (perform op s)) with (After.perform op s).
    unfold marquee_consistent. rewrite Hb, Ha, Ho.
    split; [exact Hm|]. split; [tauto|].
    intros s'' E. destruct op as [n|n|]; simpl in E.
    + rewrite add_returns in E. discriminate.
    + apply remove_raised in E. split; tauto.
    + discriminate.
Qed.

Lemma handleAll_consistent
    (getClientRect : ClientRectConfig.t -> NodeRef -> Attrs.t -> IRect.t)
    (events : list Event) (started : bool) (s : KonvaSelection.t) :
  marquee_consistent s ->
  (started = true -> oldPosition s <> None) ->
  dragsStarted started events = true ->
  marquee_consistent (handleAll getClientRect events s).
Proof.
  revert started s. induction events as [|e events IH];
    intros started s Hm Hold Hd.
  - exact Hm.
  - assert (match e with
            | Dragmove _ _ => oldPosition s <> None
            | _ => True
            end) as He.
    { destruct e; try exact I. simpl in Hd.
      apply andb_true_iff in Hd. apply Hold. tauto. }
    destruct (handle_consistent getClientRect e s Hm He) as [Hm1 [Ho1 _]].
    change (handleAll getClientRect (e :: events) s)
      with (handleAll getClientRect events (After.handle getClientRect e s)).
    destruct e; simpl in Hd;
      try (apply (IH started _ Hm1); [tauto | exact Hd]).
    + apply (IH true _ Hm1); [intros _; exact Ho1 | exact Hd].
    + apply andb_true_iff in Hd. destruct Hd as [Hs Hd].
      apply (IH started _ Hm1); [tauto | exact Hd].
Qed.

(** The last event of a history, after the events before it. *)
Lemma handleAll_last
    (getClientRect : ClientRectConfig.t -> NodeRef -> Attrs.t -> IRect.t)
    (events : list Event) (e : Event) (started : bool)
    (s : KonvaSelection.t) :
  marquee_consistent s ->
  (started = true -> oldPosition s <> None) ->
  dragsStarted started (events ++ [e]) = true ->
  marquee_consistent (handleAll getClientRect events s) /\
  (forall s', handle getClientRect e (handleAll getClientRect events s)
              = Raised s' -> detached s').
Proof.
  revert started s. induction events as [|e0 events IH];
    intros started s Hm Hold Hd.
  - split; [exact Hm|]. simpl in Hd.
    assert (match e with
            | Dragmove _ _ => oldPosition s <> None
            | _ => True
            end) as He.
    { destruct e; try exact I. simpl in Hd.
      apply andb_true_iff in Hd. apply Hold. tauto. }
    destruct (handle_consistent getClientRect e s Hm He) as [_ [_ Hr]].
    exact Hr.
  - assert (match e0 with
            | Dragmove _ _ => oldPosition s <> None
            | _ => True
            end) as He.
    { destruct e0; try exact I. simpl in Hd.
      apply andb_true_iff in Hd. apply Hold. tauto. }
    destruct (handle_consistent getClientRect e0 s Hm He) as [Hm1 [Ho1 _]].
    change (handleAll getClientRect (e0 :: events) s)
      with (handleAll getClientRect events
              (After.handle getClientRect e0 s)).
    destruct e0; simpl in Hd;
      try (apply (IH started _ Hm1); [tauto | exact Hd]).
    + apply (IH true _ Hm1); [intros _; exact Ho1 | exact Hd].
    + apply andb_true_iff in Hd. destruct Hd as [Hs Hd].
      apply (IH started _ Hm1); [tauto | exact Hd].
Qed.

(** X17.  What can go wrong in a handler.  From a state where the
    marquee flag is set only while there is a select box and a start
    point, and along every sequence of events and calls in which a
    [dragmove] only comes after a [dragstart], the state that the
    handlers leave is again such a state, before and after the last
    event.  A handler that raises leaves the selection empty and the
    transformer in place, attached to nothing: the state that
    [attachTo] leaves when it is called with [undefined].  The handlers
    of [mousedown], [mouseup] and [dragstart], [add] and [clear]
    return. *)
Theorem handlers_raise_only_detached
    (getClientRect : ClientRectConfig.t -> NodeRef -> Attrs.t -> IRect.t)
    (events : list Event) (e : Event) (s : KonvaSelection.t) :
  marquee_consistent s ->
  dragsStarted false (events ++ [e]) = true ->
  let s1 := handleAll getClientRect events s in
  marquee_consistent s1 /\
  marquee_consistent (stateOf (handle getClientRect e s1)) /\
  (forall s', handle getClientRect e s1 = Raised s' -> detached s') /\
  (match e with
   | Mousedown _ _ _ | Mouseup | Dragstart _ | Call (Add _) | Call Clear =>
       exists s', handle getClientRect e s1 = Returned s'
   | _ => True
   end).
Proof.
  intros Hm Hd. cbv zeta.
  destruct (handleAll_last getClientRect events e false s Hm
              ltac:(discriminate) Hd) as [Hm1 Hr].
  split; [exact Hm1|]. split; [|split; [exact Hr|]].
  - assert (handleAll getClientRect (events ++ [e]) s
            = stateOf (handle getClientRect e
                         (handleAll getClientRect events s))) as E
        by (unfold handleAll; rewrite fold_left_app; reflexivity).
    rewrite <- E.
    apply (handleAll_consistent getClientRect (events ++ [e]) false s Hm);
      [discriminate | exact Hd].
  - destruct e as [t sh p|p| | |t|t p|[n|n|]]; try exact I; simpl.
    + eexists. apply mousedown_returns.
    + destruct (mouseup_fields _ Hm1) as [s' [E _]]. exists s'. exact E.
    + eexists. reflexivity.
    + eexists. apply add_returns.
    + eexists. reflexivity.
Qed.

Lemma handlers_raise_only_detached_witness :
  let s := constructor demoScene Undefined in
  let events := [Call (Add 1%Z)] in
  let e := Call (Remove 1%Z) in
  marquee_consistent s /\
  dragsStarted false (events ++ [e]) = true /\
  (exists s',
     handle pageClientRect e (handleAll pageClientRect events s)
     = Raised s') /\
  (forall s',
     handle pageClientRect e (handleAll pageClientRect events s) = Raised s' ->
     detached s').
Proof.
  intros s events e.
  assert (marquee_consistent s) as Hm by (intros H; discriminate H).
  assert (dragsStarted false (events ++ [e]) = true) as Hd by reflexivity.
  split; [exact Hm|]. split; [exact Hd|].
  split; [eexists; reflexivity|].
  destruct (handlers_raise_only_detached pageClientRect events e s Hm Hd)
    as [_ [_ [Hr _]]].
  exact Hr.
Defined.

(** ** The transformer shows the selection *)

Lemma addClone_fold_length (l clones : list NodeRef) (sc : Scene.t) :
  List.length (fst (fold_left addClone l (clones, sc)))
  = (List.length clones + List.length l)%nat.
Proof.
  revert clones sc. induction l as [|n l IH]; intros clones sc; simpl.
  - lia.
  - destruct (addClone_step clones sc n) as [Ho _].
    destruct (addClone (clones, sc) n) as [clones1 sc1].
    simpl in Ho. subst clones1. rewrite IH, length_app. simpl. lia.
Qed.

Lemma createBounding_group (s : KonvaSelection.t) :
  exists clones,
    bounding (snd (createBounding s))
    = Some (Group.mk (fst (createBounding s)) clones) /\
    List.length clones = JsMap.size (nodes s).
Proof.
  unfold createBounding.
  set (s0 := match bounding s with
             | Some b => with_scene (Scene.destroy (Group.ref b) (scene s)) s
             | None => s
             end).
  assert (nodes s0 = nodes s) as Hn0
      by (unfold s0; destruct (bounding s); reflexivity).
  simpl. rewrite Hn0.
  match goal with
  | |- context [fold_left addClone ?l (?c, ?sc)] =>
      pose proof (addClone_fold_length l c sc) as Hlen;
      destruct (fold_left addClone l (c, sc)) as [clones sc'] eqn:Efold
  end.
  simpl in Hlen. exists clones. split; [reflexivity|].
  rewrite Hlen. unfold JsMap.values, JsMap.size. apply length_map.
Qed.

Lemma shown_ext (s s' : KonvaSelection.t) :
  nodes s' = nodes s -> transformer s' = transformer s ->
  bounding s' = bounding s -> shown s -> shown s'.
Proof.
  unfold shown, toArray. intros -> -> ->. tauto.
Qed.

Lemma updateTransformer_shown (s : KonvaSelection.t) (tr : Transformer.t) :
  transformer s = Some tr -> shown (After.updateTransformer s).
Proof.
  intros Et. rewrite updateTransformer_after; cbv zeta. rewrite Et. unfold isGroup.
  destruct (nodes s) as [|[k1 n1] [|[k2 n2] m]] eqn:En.
  - simpl. unfold shown, toArray. simpl. rewrite En. simpl.
    intros tr' E. injection E as <-. reflexivity.
  - simpl. unfold shown, toArray. simpl. rewrite En. simpl.
    eexists. split; reflexivity.
  - replace (negb (1 <? JsMap.size ((k1, n1) :: (k2, n2) :: m))%nat)
      with false by reflexivity.
    destruct (createBounding_group s) as [clones [Hb Hlen]].
    destruct (createBounding_same s) as [[Hn _] _].
    destruct (createBounding s) as [g s1]. simpl in Hb, Hlen, Hn.
    unfold shown, toArray. simpl. rewrite Hn, En. simpl.
    eexists. exists (Group.mk g clones).
    split; [reflexivity|]. split; [exact Hb|]. split; [reflexivity|].
    rewrite En in Hlen. exact Hlen.
Qed.

Lemma shown_unselected (s : KonvaSelection.t) :
  shown s -> transformer s = None -> nodes s = [].
Proof.
  unfold shown, toArray. intros Hs Et.
  destruct (nodes s) as [|[k1 n1] [|[k2 n2] m]]; simpl in Hs.
  - reflexivity.
  - destruct Hs as [tr [E _]]. congruence.
  - destruct Hs as [tr [b [E _]]]. congruence.
Qed.

Lemma shown_empty (s : KonvaSelection.t) :
  nodes s = [] -> transformer s = None -> shown s.
Proof.
  unfold shown, toArray. intros -> ->. simpl. discriminate.
Qed.

Lemma perform_shown (op : Operation) (s : KonvaSelection.t) :
  shown s -> shown (After.perform op s).
Proof.
  intros Hs. rewrite perform_after. destruct op as [n|n|].
  - rewrite add_after; cbv zeta. destruct (JsMap.has (_id n) (nodes s)); [exact Hs|].
    simpl. destruct (transformer s) as [tr|] eqn:Et.
    + apply (updateTransformer_shown _ tr). exact Et.
    + eapply updateTransformer_shown. reflexivity.
  - rewrite remove_after; cbv zeta. simpl. destruct (transformer s) as [tr|] eqn:Et.
    + apply (updateTransformer_shown _ tr). exact Et.
    + apply shown_empty; [|exact Et]. simpl.
      rewrite (shown_unselected s Hs Et). reflexivity.
  - destruct (clear_fields s) as [Hn [Ht _]].
    apply shown_empty; assumption.
Qed.

Lemma collisionCheck_shown
    (getClientRect : ClientRectConfig.t -> NodeRef -> Attrs.t -> IRect.t)
    (rect : IRect.t) (l : list NodeRef) (s : KonvaSelection.t) :
  shown s -> shown (fold_left (After.collisionCheck getClientRect rect) l s).
Proof.
  revert s. induction l as [|n l IH]; intros s Hs; simpl; [exact Hs|].
  apply IH. rewrite collisionCheck_after; cbv zeta. destruct (_ && _).
  - exact (perform_shown (Add n) s Hs).
  - exact (perform_shown (Remove n) s Hs).
Qed.

Lemma handle_shown
    (getClientRect : ClientRectConfig.t -> NodeRef -> Attrs.t -> IRect.t)
    (e : Event) (s : KonvaSelection.t) :
  shown s -> shown (After.handle getClientRect e s).
Proof.
  intros Hs. unfold After.handle.
  destruct e as [t sh p|p| | |t|t p|op]; simpl.
  - change (stateOf (mousedown t sh p s)) with (After.mousedown t sh p s).
    destruct t as [|node].
    + destruct (stage_press_fields sh p s) as [_ [_ [_ [Hn Ht]]]].
      apply shown_empty; assumption.
    + rewrite mousedown_after; cbv zeta.
      destruct (Attrs.hasName "entity" (Scene.attrs (scene s) node));
        [|exact Hs].
      apply (perform_shown (Add node)).
      destruct (negb sh && negb (JsMap.has (_id node) (nodes s)));
        [|exact Hs].
      exact (perform_shown Clear s Hs).
  - unfold mousemove.
    destruct (SelectAttrs.select (selectAttrs s)); [|exact Hs].
    pose proof (updateDrag_state getClientRect p s) as H. cbv zeta in H.
    destruct (SelectAttrs.posStart (selectAttrs s)) as [p0|];
      [destruct (selectBox s) as [box|]|];
      try (rewrite H; simpl; apply (shown_ext s); try reflexivity;
           exact Hs).
    destruct H as [l1 [l2 [_ [Hst _]]]]. rewrite Hst.
    apply collisionCheck_shown.
    apply (shown_ext s); try reflexivity. exact Hs.
  - unfold mouseup, destroySelectBox.
    destruct (SelectAttrs.select (selectAttrs s)); [|exact Hs].
    simpl. destruct (selectBox s); simpl;
      apply (shown_ext s); try reflexivity; exact Hs.
  - unfold wheel.
    change (stateOf (updateTransformer s)) with (After.updateTransformer s).
    destruct (transformer s) as [tr|] eqn:Et.
    + apply (updateTransformer_shown _ tr). exact Et.
    + rewrite updateTransformer_after; cbv zeta. rewrite Et. exact Hs.
  - apply (shown_ext s); try reflexivity. exact Hs.
  - unfold dragFrame. rewrite dragmove_after. cbn [oldPosition with_scene].
    destruct (oldPosition s) as [old|];
      [|apply (shown_ext s); try reflexivity; exact Hs].
    cbv zeta.
    match goal with
    | |- context [fold_left (fun s child => if _ then s else
                    with_scene (Scene.setAttrs child (Attrs.move ?d) _) s)
                    ?l ?x] =>
        destruct (move_fold_with_scene t d l x) as [sc E]
    end.
    rewrite E.
    destruct (transformer s) as [tr|] eqn:Et.
    + apply (updateTransformer_shown _ tr). simpl. exact Et.
    + rewrite updateTransformer_after; cbv zeta. simpl. rewrite Et.
      apply (shown_ext s); try reflexivity; exact Hs.
  - apply perform_shown. exact Hs.
Qed.

Lemma handleAll_keeps_shown
    (getClientRect : ClientRectConfig.t -> NodeRef -> Attrs.t -> IRect.t)
    (events : list Event) (s : KonvaSelection.t) :
  shown s -> shown (handleAll getClientRect events s).
Proof.
  revert s. induction events as [|e events IH]; intros s Hs.
  - exact Hs.
  - apply (IH (After.handle getClientRect e s)).
    exact (handle_shown getClientRect e s Hs).
Qed.

(** X18.  The transformer always shows the selection.  In a state that
    a controller made without an array of nodes reaches through events
    and calls, whether their handlers return or raise, the transformer
    has no target when nothing is selected, it is attached to the
    selected node when there is exactly one, and with two or more it is
    attached to the bounding group, which holds one proxy for each
    selected node. *)
Theorem handleAll_shown
    (getClientRect : ClientRectConfig.t -> NodeRef -> Attrs.t -> IRect.t)
    (events : list Event) (sc : Scene.t) :
  shown (handleAll getClientRect events (constructor sc Undefined)).
Proof.
  apply handleAll_keeps_shown. apply shown_empty; reflexivity.
Qed.

(** ** What the marquee is sure to select *)

Lemma selectBox_id (s : KonvaSelection.t) (box : NodeRef) :
  well_formed s -> selectBox s = Some box ->
  Attrs.id (attrsOf s box) = Some "selectBox"%string.
Proof.
  intros [_ [_ [_ Hbox]]] Eb. destruct (Hbox box Eb) as [_ Hid].
  unfold isSelectBoxId in Hid.
  destruct (Attrs.id (attrsOf s box)) as [i|]; [|discriminate].
  apply String.eqb_eq in Hid. subst i. reflexivity.
Qed.

(** X19.  An entity under the pointer is selected.  When the renderer
    draws the select box where its attributes put it, every entity of
    the working layer whose client rectangle contains the point where
    the marquee started, or the point where the pointer is now, is
    selected after an update that returns, wherever the pointer has
    been in between; and the update that follows the press returns. *)
Theorem marquee_selects_under_pointer
    (getClientRect : ClientRectConfig.t -> NodeRef -> Attrs.t -> IRect.t)
    (p0 p : Vector2d.t) (moves : list Vector2d.t) (s : KonvaSelection.t)
    (n : NodeRef) :
  well_formed s ->
  selectBoxUnscaled getClientRect ->
  In n (childrenOf s) -> isEntity s n = true ->
  inRect p0 (clientRect getClientRect ClientRectConfig.default n s) \/
  inRect p (clientRect getClientRect ClientRectConfig.default n s) ->
  (forall s',
     marquee getClientRect p0 (moves ++ [p]) s = Returned s' ->
     JsMap.has (_id n) (nodes s') = true) /\
  (exists s', marquee getClientRect p0 ([] ++ [p]) s = Returned s').
Proof.
  intros Hwf Hbox Hin He Hp.
  split; [|apply marquee_first_move; exact Hwf].
  intros s' E.
  destruct (marquee_last_move getClientRect p0 p moves s s' Hwf E)
    as [Hwf' [Hsame Hsel]].
  destruct Hsel as [box [Eb [Hx [Hy [Hw [Hh Hiff]]]]]].
  apply Hiff.
  destruct (Hsame n) as [Hent Hattr].
  destruct (proj2 Hent (conj Hin He)) as [Hin' He'].
  split; [exact Hin'|]. split; [exact He'|].
  apply haveIntersection_true.
  unfold clientRect in *. fold (attrsOf s' n). fold (attrsOf s' box).
  fold (attrsOf s n) in Hp.
  rewrite (Hattr Hin He), (Hbox _ _ (selectBox_id s' box Hwf' Eb)).
  simpl. rewrite Hx, Hy, Hw, Hh.
  rewrite (reverse_is_min_max p0 p). simpl.
  unfold inRect in Hp.
  pose proof (Rmin_l (Vector2d.x p0) (Vector2d.x p)).
  pose proof (Rmin_r (Vector2d.x p0) (Vector2d.x p)).
  pose proof (Rmax_l (Vector2d.x p0) (Vector2d.x p)).
  pose proof (Rmax_r (Vector2d.x p0) (Vector2d.x p)).
  pose proof (Rmin_l (Vector2d.y p0) (Vector2d.y p)).
  pose proof (Rmin_r (Vector2d.y p0) (Vector2d.y p)).
  pose proof (Rmax_l (Vector2d.y p0) (Vector2d.y p)).
  pose proof (Rmax_r (Vector2d.y p0) (Vector2d.y p)).
  destruct Hp as [[[Ha Hb] [Hc Hd]] | [[Ha Hb] [Hc Hd]]]; lra.
Qed.

Lemma pageClientRect_unscaled : selectBoxUnscaled pageClientRect.
Proof.
  intros box a Hid. unfold pageClientRect. rewrite Hid. reflexivity.
Qed.

Lemma marquee_selects_under_pointer_witness :
  let s := constructor demoScene Undefined in
  well_formed s /\
  selectBoxUnscaled pageClientRect /\
  In 1%Z (childrenOf s) /\ isEntity s 1%Z = true /\
  (inRect (Vector2d.mk 160 160)
     (clientRect pageClientRect ClientRectConfig.default 1%Z s) \/
   inRect (Vector2d.mk 120 120)
     (clientRect pageClientRect ClientRectConfig.default 1%Z s)) /\
  exists s',
    marquee pageClientRect (Vector2d.mk 160 160)
      ([] ++ [Vector2d.mk 120 120]) s = Returned s' /\
    JsMap.has (_id 1%Z) (nodes s') = true.
Proof.
  intros s.
  assert (well_formed s) as Hwf by apply demoScene_well_formed.
  assert (In 1%Z (childrenOf s)) as Hin by (left; reflexivity).
  assert (isEntity s 1%Z = true) as He by reflexivity.
  assert (inRect (Vector2d.mk 160 160)
            (clientRect pageClientRect ClientRectConfig.default 1%Z s) \/
          inRect (Vector2d.mk 120 120)
            (clientRect pageClientRect ClientRectConfig.default 1%Z s))
    as Hp by (right; unfold inRect; simpl; lra).
  split; [exact Hwf|]. split; [exact pageClientRect_unscaled|].
  split; [exact Hin|]. split; [exact He|]. split; [exact Hp|].
  destruct (marquee_selects_under_pointer pageClientRect
              (Vector2d.mk 160 160) (Vector2d.mk 120 120) []
              s 1%Z Hwf pageClientRect_unscaled Hin He Hp)
    as [Hsel [s' E]].
  exists s'. split; [exact E | exact (Hsel s' E)].
Defined.

(** ** The selection stays a proper map *)

Lemma nodes_ok_ext (s s' : KonvaSelection.t) :
  nodes s' = nodes s -> (idCounterOf s <= idCounterOf s')%Z ->
  nodes_ok s -> nodes_ok s'.
Proof.
  intros Hn Hc [Hnd Hkv]. unfold nodes_ok. rewrite Hn.
  split; [exact Hnd|].
  intros k v Hin. destruct (Hkv k v Hin) as [Hk Hv]. split; [exact Hk | lia].
Qed.

Lemma nodes_ok_nil (s : KonvaSelection.t) : nodes s = [] -> nodes_ok s.
Proof.
  intros Hn. unfold nodes_ok. rewrite Hn. split; [constructor|].
  intros k v [].
Qed.

Lemma keys_delete (k : Z) (m : JsMap.t NodeRef) :
  JsMap.keys (JsMap.delete k m)
  = filter (fun k' => negb (Z.eqb k' k)) (JsMap.keys m).
Proof.
  unfold JsMap.keys, JsMap.delete. induction m as [|[k' v] m IH]; simpl.
  - reflexivity.
  - destruct (Z.eqb k' k); simpl; rewrite IH; reflexivity.
Qed.

Lemma perform_counter (op : Operation) (s : KonvaSelection.t) :
  (idCounterOf s <= idCounterOf (After.perform op s))%Z.
Proof.
  rewrite perform_after. destruct op as [n|n|].
  - rewrite add_after; cbv zeta. destruct (JsMap.has (_id n) (nodes s)); simpl; [lia|].
    match goal with
    | |- context [After.updateTransformer ?x] =>
        pose proof (proj1 (updateTransformer_attrs x)) as H;
        assert (idCounterOf s <= idCounterOf x)%Z
    end.
    { unfold idCounterOf. destruct (transformer s); simpl; lia. }
    lia.
  - rewrite remove_after; cbv zeta. simpl.
    destruct (transformer s) as [tr|] eqn:Et; [|unfold idCounterOf; simpl; lia].
    match goal with
    | |- context [After.updateTransformer ?x] =>
        pose proof (proj1 (updateTransformer_attrs x)) as H
    end.
    exact H.
  - unfold clear, idCounterOf. destruct (transformer s); simpl; lia.
Qed.

Lemma perform_nodes_ok (op : Operation) (s : KonvaSelection.t) :
  nodes_ok s -> allocated (Call op) s -> nodes_ok (After.perform op s).
Proof.
  intros Hok Hal. pose proof (perform_counter op s) as Hc.
  destruct Hok as [Hnd Hkv].
  rewrite perform_after in Hc |- *.
  destruct op as [n|n|]; simpl in Hal.
  - destruct (JsMap.has (_id n) (nodes s)) eqn:Hh.
    + rewrite (add_present n s Hh). split; assumption.
    + destruct (add_absent_selection n s Hh) as [Hn _].
      unfold nodes_ok. rewrite Hn. unfold JsMap.set. rewrite Hh.
      split.
      * unfold JsMap.keys. rewrite map_app. simpl.
        apply NoDup_app; [exact Hnd | repeat constructor; intros [] |].
        intros k Hk [Hk' | []]. subst k.
        apply (proj2 (has_keys (_id n) (nodes s))) in Hk. congruence.
      * intros k v Hin. apply in_app_or in Hin.
        destruct Hin as [Hin | [Hin | []]].
        -- destruct (Hkv k v Hin) as [Hk Hv]. split; [exact Hk | lia].
        -- injection Hin as <- <-. split; [reflexivity | lia].
  - destruct (remove_selection n s) as [Hn _].
    unfold nodes_ok. rewrite Hn. split.
    + rewrite keys_delete. apply NoDup_filter. exact Hnd.
    + intros k v Hin. unfold JsMap.delete in Hin.
      apply filter_In in Hin. destruct Hin as [Hin _].
      destruct (Hkv k v Hin) as [Hk Hv]. split; [exact Hk | lia].
  - apply nodes_ok_nil. apply clear_fields.
Qed.

Lemma collisionCheck_nodes_ok
    (getClientRect : ClientRectConfig.t -> NodeRef -> Attrs.t -> IRect.t)
    (rect : IRect.t) (l : list NodeRef) (s : KonvaSelection.t) :
  nodes_ok s -> (forall k, In k l -> (k < idCounterOf s)%Z) ->
  nodes_ok (fold_left (After.collisionCheck getClientRect rect) l s).
Proof.
  revert s. induction l as [|n l IH]; intros s Hok Hl; simpl; [exact Hok|].
  assert (n < idCounterOf s)%Z as Hn by (apply Hl; left; reflexivity).
  rewrite collisionCheck_after; cbv zeta. destruct (_ && _).
  - apply IH.
    + exact (perform_nodes_ok (Add n) s Hok Hn).
    + intros k Hk. pose proof (perform_counter (Add n) s) as Hc.
      rewrite perform_after in Hc. specialize (Hl k (or_intror Hk)). lia.
  - apply IH.
    + exact (perform_nodes_ok (Remove n) s Hok I).
    + intros k Hk. pose proof (perform_counter (Remove n) s) as Hc.
      rewrite perform_after in Hc. specialize (Hl k (or_intror Hk)). lia.
Qed.

Lemma dragmove_counter (target : NodeRef) (s : KonvaSelection.t) :
  (idCounterOf s <= idCounterOf (stateOf (dragmove target s)))%Z.
Proof.
  rewrite dragmove_after.
  destruct (oldPosition s) as [old|]; [|lia]. cbv zeta.
  match goal with
  | |- context [After.updateTransformer ?x] =>
      pose proof (proj1 (updateTransformer_attrs x)) as H;
      assert (idCounterOf x = idCounterOf s) as Hx
  end.
  { unfold idCounterOf at 1. cbn [scene with_oldPosition].
    match goal with
    | |- context [fold_left (fun s child => if _ then s else
                    with_scene (Scene.setAttrs child (Attrs.move ?d) _) s)
                    ?l ?x] =>
        destruct (move_fold_names target d l x) as [Hc _]
    end.
    unfold idCounterOf in Hc. rewrite Hc. reflexivity. }
  lia.
Qed.

Lemma handle_nodes_ok
    (getClientRect : ClientRectConfig.t -> NodeRef -> Attrs.t -> IRect.t)
    (e : Event) (s : KonvaSelection.t) :
  well_formed s -> nodes_ok s -> allocated e s ->
  nodes_ok (After.handle getClientRect e s).
Proof.
  intros Hwf Hok Hal. unfold After.handle.
  destruct e as [t sh p|p| | |t|t p|op]; simpl in Hal |- *.
  - change (stateOf (mousedown t sh p s)) with (After.mousedown t sh p s).
    destruct t as [|node].
    + apply nodes_ok_nil. apply stage_press_fields.
    + rewrite mousedown_after; cbv zeta.
      destruct (Attrs.hasName "entity" (Scene.attrs (scene s) node));
        [|exact Hok].
      apply (perform_nodes_ok (Add node)).
      * destruct (negb sh && negb (JsMap.has (_id node) (nodes s)));
          [|exact Hok].
        exact (perform_nodes_ok Clear s Hok I).
      * simpl.
        destruct (negb sh && negb (JsMap.has (_id node) (nodes s)));
          [|exact Hal].
        pose proof (perform_counter Clear s) as Hc.
        rewrite perform_after in Hc. lia.
  - unfold mousemove.
    destruct (SelectAttrs.select (selectAttrs s)); [|exact Hok].
    pose proof (updateDrag_state getClientRect p s) as H. cbv zeta in H.
    destruct (SelectAttrs.posStart (selectAttrs s)) as [p0|];
      [destruct (selectBox s) as [box|]|];
      try (rewrite H; simpl;
           apply (nodes_ok_ext s);
           [reflexivity | unfold idCounterOf; simpl; lia | exact Hok]).
    destruct H as [l1 [l2 [El [Hst _]]]]. rewrite Hst.
    apply collisionCheck_nodes_ok.
    + apply (nodes_ok_ext s); [reflexivity | unfold idCounterOf; simpl; lia
                               | exact Hok].
    + intros k Hk.
      assert (In k (l1 ++ l2)) as Hk' by (apply in_or_app; left; exact Hk).
      rewrite <- El in Hk'. apply filter_In in Hk'.
      destruct Hk' as [Hk' _]. apply (proj1 Hwf). exact Hk'.
  - unfold mouseup, destroySelectBox.
    destruct (SelectAttrs.select (selectAttrs s)); [|exact Hok].
    simpl. destruct (selectBox s); simpl;
      (apply (nodes_ok_ext s);
       [reflexivity | unfold idCounterOf; simpl; lia | exact Hok]).
  - unfold wheel.
    change (stateOf (updateTransformer s)) with (After.updateTransformer s).
    apply (nodes_ok_ext s); [apply updateTransformer_same
                             | apply updateTransformer_attrs | exact Hok].
  - apply (nodes_ok_ext s); [reflexivity | unfold idCounterOf; simpl; lia
                             | exact Hok].
  - unfold dragFrame.
    match goal with
    | |- context [dragmove t ?x] =>
        destruct (dragmove_fields t x) as [Hn _];
        pose proof (dragmove_counter t x) as Hc
    end.
    apply (nodes_ok_ext s); [exact Hn | exact Hc | exact Hok].
  - apply perform_nodes_ok; assumption.
Qed.

(** X20.  Every handler keeps the state well formed and the selection a
    proper map.  When the node that a click or a call of [add] brings in
    is a node of the scene, the state that any event or call leaves,
    whether its handler returns or raises, is again well formed, the
    keys of the selection are distinct, every selected node is stored
    under its own [_id], and every selected node is a node of the
    scene. *)
Theorem handle_keeps_invariants
    (getClientRect : ClientRectConfig.t -> NodeRef -> Attrs.t -> IRect.t)
    (e : Event) (s : KonvaSelection.t) :
  well_formed s -> nodes_ok s -> allocated e s ->
  let s' := stateOf (handle getClientRect e s) in
  well_formed s' /\ nodes_ok s'.
Proof.
  intros Hwf Hok Hal. cbv zeta.
  split; [exact (handle_well_formed getClientRect e s Hwf)|].
  exact (handle_nodes_ok getClientRect e s Hwf Hok Hal).
Qed.

Lemma handle_keeps_invariants_witness :
  let s := constructor demoScene (ArrayOf [1; 2; 3]%Z) in
  let e := Mousedown (OnNode 2%Z) false (Vector2d.mk 210 110) in
  well_formed s /\ nodes_ok s /\ allocated e s /\
  well_formed (stateOf (handle pageClientRect e s)) /\
  nodes_ok (stateOf (handle pageClientRect e s)).
Proof.
  intros s e.
  assert (well_formed s) as Hwf by apply demoScene_well_formed.
  assert (nodes_ok s) as Hok by apply demo_nodes_ok.
  assert (allocated e s) as Hal by reflexivity.
  split; [exact Hwf|]. split; [exact Hok|]. split; [exact Hal|].
  exact (handle_keeps_invariants pageClientRect e s Hwf Hok Hal).
Defined.

(** ** The context menu *)

Lemma scene_fold
    (step : KonvaSelection.t -> NodeRef -> KonvaSelection.t)
    (f : NodeRef -> Scene.t -> Scene.t)
    (Hstep : forall s n, step s n = with_scene (f n (scene s)) s)
    (l : list NodeRef) (s : KonvaSelection.t) :
  fold_left step l s
  = with_scene (fold_left (fun sc n => f n sc) l (scene s)) s.
Proof.
  revert s. induction l as [|n l IH]; intros s; simpl.
  - apply with_scene_self.
  - rewrite IH, Hstep. reflexivity.
Qed.

(** A loop that writes [f] to the attributes of every node of a list,
    for an [f] that gives the same result when it is applied twice. *)
Lemma attrs_fold
    (f : Attrs.t -> Attrs.t) (Hf : forall a, f (f a) = f a)
    (g : NodeRef -> Scene.t -> Scene.t)
    (Hg : forall e sc,
        Scene.idCounter (g e sc) = Scene.idCounter sc /\
        forall k, Scene.attrs (g e sc) k
                  = if Z.eqb k e then f (Scene.attrs sc e)
                    else Scene.attrs sc k)
    (l : list NodeRef) (sc : Scene.t) :
  Scene.idCounter (fold_left (fun sc n => g n sc) l sc) = Scene.idCounter sc /\
  forall k, Scene.attrs (fold_left (fun sc n => g n sc) l sc) k
            = if existsb (Z.eqb k) l then f (Scene.attrs sc k)
              else Scene.attrs sc k.
Proof.
  revert sc. induction l as [|n l IH]; intros sc; simpl.
  - split; reflexivity.
  - destruct (IH (g n sc)) as [Hc Ha]. destruct (Hg n sc) as [Hc1 Ha1].
    split; [rewrite Hc; exact Hc1|].
    intros k. rewrite Ha, Ha1.
    destruct (Z.eqb_spec k n) as [->|Hne]; simpl.
    + destruct (existsb (Z.eqb n) l); [apply Hf | reflexivity].
    + reflexivity.
Qed.

Lemma destroy_fold_children (l : list NodeRef) (sc : Scene.t) :
  let sc' := fold_left (fun sc n => Scene.destroy n sc) l sc in
  Scene.idCounter sc' = Scene.idCounter sc /\
  Scene.attrs sc' = Scene.attrs sc /\
  forall k, In k (Scene.children sc') <->
            In k (Scene.children sc) /\ ~ In k l.
Proof.
  revert sc. induction l as [|n l IH]; intros sc; simpl.
  - repeat split; tauto.
  - destruct (IH (Scene.destroy n sc)) as [Hc [Ha Hch]].
    split; [rewrite Hc; reflexivity|].
    split; [rewrite Ha; reflexivity|].
    intros k. rewrite Hch, in_destroy. intuition congruence.
Qed.

Lemma clear_children (s : KonvaSelection.t) (k : NodeRef) :
  In k (childrenOf (clear s)) <->
  In k (childrenOf s) /\
  forall tr, transformer s = Some tr -> k <> Transformer.ref tr.
Proof.
  unfold childrenOf.
  destruct s as [sc ch b box old sa ns [tr|]]; simpl.
  - change (filter (fun c : Z => negb (c =? Transformer.ref tr)%Z)
              (Scene.children sc))
      with (Scene.children (Scene.destroy (Transformer.ref tr) sc)).
    rewrite in_destroy. split.
    + intros [Hin Hne]. split; [exact Hin|].
      intros tr' E. injection E as <-. exact Hne.
    + intros [Hin Hne]. split; [exact Hin | exact (Hne tr eq_refl)].
  - split; [intros Hin; split; [exact Hin | discriminate]|].
    intros [Hin _]. exact Hin.
Qed.

Lemma clear_scene (s : KonvaSelection.t) :
  idCounterOf (clear s) = idCounterOf s /\
  forall k, attrsOf (clear s) k = attrsOf s k.
Proof.
  destruct s as [sc ch b box old sa ns [tr|]]; split; reflexivity.
Qed.

Lemma clear_with_scene (sc : Scene.t) (s : KonvaSelection.t) :
  nodes (clear (with_scene sc s)) = [] /\
  transformer (clear (with_scene sc s)) = None /\
  selectionChange (clear (with_scene sc s)) = selectionChange s /\
  bounding (clear (with_scene sc s)) = bounding s /\
  transformer (with_scene sc s) = transformer s.
Proof.
  destruct s as [sc0 ch b box old sa ns [tr|]]; repeat split; reflexivity.
Qed.

(** X21.  [Delete] removes the selected nodes from the layer and empties
    the selection.  The children of the layer afterwards are the former
    children without the selected nodes and without the transformer; no
    attribute changes, the clipboard is left alone, and no notification
    is emitted although the selection has changed. *)
Theorem delete_removes_selection (s : KonvaSelection.t)
    (clipboard : ContextTool.Clipboard.t) :
  let s' := fst (ContextTool.delete s clipboard) in
  snd (ContextTool.delete s clipboard) = clipboard /\
  nodes s' = [] /\
  transformer s' = None /\
  selectionChange s' = selectionChange s /\
  (forall k, In k (childrenOf s') <->
     In k (childrenOf s) /\ ~ In k (toArray s) /\
     forall tr, transformer s = Some tr -> k <> Transformer.ref tr) /\
  (forall k, attrsOf s' k = attrsOf s k).
Proof.
  intros s'. unfold s', ContextTool.delete. simpl.
  rewrite (scene_fold _ Scene.destroy (fun s n => eq_refl)).
  set (sc := fold_left (fun sc n => Scene.destroy n sc)
               (JsMap.values (nodes s)) (scene s)).
  destruct (destroy_fold_children (JsMap.values (nodes s)) (scene s))
    as [Hc [Ha Hch]]. fold sc in Hc, Ha, Hch.
  destruct (clear_with_scene sc s) as [Hn [Ht [Hsc [_ Htr]]]].
  split; [reflexivity|]. split; [exact Hn|]. split; [exact Ht|].
  split; [exact Hsc|]. split.
  - intros k. rewrite clear_children. rewrite Htr.
    unfold childrenOf at 1. simpl. rewrite Hch. unfold childrenOf, toArray.
    tauto.
  - intros k. rewrite (proj2 (clear_scene (with_scene sc s))).
    unfold attrsOf. simpl. rewrite Ha. reflexivity.
Qed.

Lemma setVisible_step (v : bool) (e : NodeRef) (sc : Scene.t) :
  Scene.idCounter (Scene.setAttrs e (Attrs.setVisible v) sc)
  = Scene.idCounter sc /\
  forall k, Scene.attrs (Scene.setAttrs e (Attrs.setVisible v) sc) k
            = if Z.eqb k e then Attrs.setVisible v (Scene.attrs sc e)
              else Scene.attrs sc k.
Proof. split; reflexivity. Qed.

Lemma setAttrs_fold_children (f : Attrs.t -> Attrs.t) (l : list NodeRef)
    (sc : Scene.t) :
  Scene.children (fold_left (fun sc n => Scene.setAttrs n f sc) l sc)
  = Scene.children sc.
Proof.
  revert sc. induction l as [|n l IH]; intros sc; simpl;
    [reflexivity | rewrite IH; reflexivity].
Qed.

Lemma existsb_eqb_false (k : Z) (l : list Z) :
  existsb (Z.eqb k) l = false <-> ~ In k l.
Proof.
  rewrite <- existsb_eqb_In. destruct (existsb (Z.eqb k) l); split;
    congruence.
Qed.

(** What [Cut] does to the scene and to the controller. *)
Lemma cut_effect (s : KonvaSelection.t)
    (clipboard : ContextTool.Clipboard.t) :
  let s' := fst (ContextTool.cut s clipboard) in
  snd (ContextTool.cut s clipboard)
  = ContextTool.Clipboard.mk (toArray s) (Some ContextTool.Cut) /\
  nodes s' = [] /\
  transformer s' = None /\
  selectionChange s' = selectionChange s /\
  bounding s' = bounding s /\
  idCounterOf s' = idCounterOf s /\
  (forall k, attrsOf s' k
             = if existsb (Z.eqb k) (toArray s)
               then Attrs.setVisible false (attrsOf s k)
               else attrsOf s k) /\
  (forall k, In k (childrenOf s') <->
     In k (childrenOf s) /\
     forall tr, transformer s = Some tr -> k <> Transformer.ref tr).
Proof.
  intros s'. unfold s', ContextTool.cut. simpl.
  rewrite (scene_fold _ (fun n sc => Scene.setAttrs n (Attrs.setVisible false) sc)
             (fun s n => eq_refl)).
  set (sc := fold_left
               (fun sc n => Scene.setAttrs n (Attrs.setVisible false) sc)
               (toArray s) (scene s)).
  destruct (attrs_fold (Attrs.setVisible false) (fun a => eq_refl)
              (fun n sc => Scene.setAttrs n (Attrs.setVisible false) sc)
              (setVisible_step false) (toArray s) (scene s)) as [Hc Ha].
  fold sc in Hc, Ha.
  pose proof (setAttrs_fold_children (Attrs.setVisible false) (toArray s)
                (scene s)) as Hch. fold sc in Hch.
  destruct (clear_with_scene sc s) as [Hn [Ht [Hsc [Hb Htr]]]].
  destruct (clear_scene (with_scene sc s)) as [Hc' Ha'].
  split; [reflexivity|]. split; [exact Hn|]. split; [exact Ht|].
  split; [exact Hsc|]. split; [exact Hb|].
  split; [rewrite Hc'; exact Hc|].
  split.
  - intros k. rewrite Ha'. unfold attrsOf. simpl. apply Ha.
  - intros k. rewrite clear_children, Htr. unfold childrenOf. simpl.
    rewrite Hch. tauto.
Qed.


Lemma pasteEntity_scene (position : Vector2d.t)
    (type : option ContextTool.ContextToolType)
    (s : KonvaSelection.t) (entity : NodeRef) :
  ContextTool.pasteEntity position type s entity
  = with_scene
      ((fun e sc =>
          Scene.setAttrs e
            (fun a => Attrs.setPosition position (Attrs.setVisible true a))
            (match type with
             | Some ContextTool.Copy => ContextTool.layerAdd e sc
             | _ => sc
             end)) entity (scene s)) s.
Proof.
  unfold ContextTool.pasteEntity.
  destruct type as [[| |]|]; reflexivity.
Qed.

Lemma pasteEntity_step (position : Vector2d.t)
    (type : option ContextTool.ContextToolType) (e : NodeRef)
    (sc : Scene.t) :
  let sc' :=
    Scene.setAttrs e
      (fun a => Attrs.setPosition position (Attrs.setVisible true a))
      (match type with
       | Some ContextTool.Copy => ContextTool.layerAdd e sc
       | _ => sc
       end) in
  Scene.idCounter sc' = Scene.idCounter sc /\
  forall k, Scene.attrs sc' k
            = if Z.eqb k e
              then Attrs.setPosition position
                     (Attrs.setVisible true (Scene.attrs sc e))
              else Scene.attrs sc k.
Proof.
  destruct type as [[| |]|]; try (split; reflexivity).
  unfold ContextTool.layerAdd.
  destruct (existsb (Z.eqb e) (Scene.children sc)); split; reflexivity.
Qed.

Lemma layerAdd_children (e : NodeRef) (sc : Scene.t) :
  Scene.children (ContextTool.layerAdd e sc)
  = if existsb (Z.eqb e) (Scene.children sc) then Scene.children sc
    else Scene.children sc ++ [e].
Proof.
  unfold ContextTool.layerAdd.
  destruct (existsb (Z.eqb e) (Scene.children sc)); reflexivity.
Qed.

Lemma paste_fold_children (position : Vector2d.t)
    (type : option ContextTool.ContextToolType) (l : list NodeRef)
    (sc : Scene.t) :
  let sc' :=
    fold_left
      (fun sc e =>
         Scene.setAttrs e
           (fun a => Attrs.setPosition position (Attrs.setVisible true a))
           (match type with
            | Some ContextTool.Copy => ContextTool.layerAdd e sc
            | _ => sc
            end)) l sc in
  (type <> Some ContextTool.Copy ->
   Scene.children sc' = Scene.children sc) /\
  (type = Some ContextTool.Copy ->
   (forall k, In k (Scene.children sc') <->
              In k (Scene.children sc) \/ In k l) /\
   (NoDup l -> (forall e, In e l -> ~ In e (Scene.children sc)) ->
    Scene.children sc' = Scene.children sc ++ l) /\
   ((forall e, In e l -> In e (Scene.children sc)) ->
    Scene.children sc' = Scene.children sc)).
Proof.
  revert sc. induction l as [|e l IH]; intros sc; simpl.
  - split; [reflexivity|]. intros _. split; [tauto|].
    split; [|reflexivity].
    intros _ _. rewrite app_nil_r. reflexivity.
  - destruct (IH (Scene.setAttrs e
                    (fun a =>
                       Attrs.setPosition position (Attrs.setVisible true a))
                    (match type with
                     | Some ContextTool.Copy => ContextTool.layerAdd e sc
                     | _ => sc
                     end))) as [Hcut Hcopy].
    split.
    + intros Hty. rewrite (Hcut Hty).
      destruct type as [[| |]|]; try reflexivity. congruence.
    + intros Hty. destruct (Hcopy Hty) as [Hin [Hexact Hsame]]. subst type.
      cbn [Scene.children Scene.setAttrs] in Hin, Hexact, Hsame.
      rewrite layerAdd_children in Hin, Hexact, Hsame.
      split; [|split].
      * intros k. rewrite Hin.
        destruct (existsb (Z.eqb e) (Scene.children sc)) eqn:Ee.
        -- apply existsb_eqb_In in Ee.
           split; [intros [H | H]; [left; exact H | right; right; exact H]|].
           intros [H | [H | H]];
             [left; exact H | subst k; left; exact Ee | right; exact H].
        -- rewrite in_app_iff. simpl. tauto.
      * intros Hnd Hfresh. inversion Hnd as [|e' l' Hnotin Hnd']; subst.
        assert (existsb (Z.eqb e) (Scene.children sc) = false) as Ee
            by (apply existsb_eqb_false; apply Hfresh; left; reflexivity).
        rewrite Ee in Hexact. rewrite Hexact.
        -- rewrite <- app_assoc. reflexivity.
        -- exact Hnd'.
        -- intros e' He' Hin'.
           apply in_app_or in Hin'. destruct Hin' as [Hin' | [<- | []]].
           ++ exact (Hfresh e' (or_intror He') Hin').
           ++ exact (Hnotin He').
      * intros Hall.
        assert (existsb (Z.eqb e) (Scene.children sc) = true) as Ee
            by (apply existsb_eqb_In; apply Hall; left; reflexivity).
        rewrite Ee in Hsame. apply Hsame.
        intros e' He'. apply Hall. right. exact He'.
Qed.

(** What [Paste] does when it does not fail. *)
Lemma paste_effect (position : Vector2d.t) (s s' : KonvaSelection.t)
    (clipboard clipboard' : ContextTool.Clipboard.t) :
  ContextTool.paste position s clipboard = Some (s', clipboard') ->
  clipboard' = clipboard /\
  nodes s' = nodes s /\
  selectionChange s' = selectionChange s /\
  transformer s' = transformer s /\
  bounding s' = bounding s /\
  idCounterOf s' = idCounterOf s /\
  (forall k, attrsOf s' k
             = if existsb (Z.eqb k) (ContextTool.Clipboard.entities clipboard)
               then Attrs.setPosition position
                      (Attrs.setVisible true (attrsOf s k))
               else attrsOf s k) /\
  (ContextTool.Clipboard.type clipboard <> Some ContextTool.Copy ->
   childrenOf s' = childrenOf s) /\
  (ContextTool.Clipboard.type clipboard = Some ContextTool.Copy ->
   (forall k, In k (childrenOf s') <->
      In k (childrenOf s) \/
      In k (ContextTool.Clipboard.entities clipboard)) /\
   (NoDup (ContextTool.Clipboard.entities clipboard) ->
    (forall e, In e (ContextTool.Clipboard.entities clipboard) ->
       ~ In e (childrenOf s)) ->
    childrenOf s'
    = childrenOf s ++ ContextTool.Clipboard.entities clipboard) /\
   ((forall e, In e (ContextTool.Clipboard.entities clipboard) ->
       In e (childrenOf s)) ->
    childrenOf s' = childrenOf s)).
Proof.
  intros E.
  assert (ContextTool.paste position s clipboard
          = Some (fold_left
                    (ContextTool.pasteEntity position
                       (ContextTool.Clipboard.type clipboard))
                    (ContextTool.Clipboard.entities clipboard) s,
                  clipboard)) as E'.
  { unfold ContextTool.paste in *.
    destruct (ContextTool.Clipboard.entities clipboard) as [|e l] eqn:El.
    - reflexivity.
    - cbn [List.length Nat.eqb] in *.
      destruct (isGroup s); [|reflexivity].
      destruct (getBounding s); [reflexivity | discriminate]. }
  rewrite E' in E. injection E as <- <-. clear E'.
  rewrite (scene_fold _ _
             (pasteEntity_scene position
                (ContextTool.Clipboard.type clipboard))).
  destruct (attrs_fold
              (fun a => Attrs.setPosition position (Attrs.setVisible true a))
              (fun a => eq_refl) _
              (pasteEntity_step position
                 (ContextTool.Clipboard.type clipboard))
              (ContextTool.Clipboard.entities clipboard) (scene s))
    as [Hc Ha].
  destruct (paste_fold_children position
              (ContextTool.Clipboard.type clipboard)
              (ContextTool.Clipboard.entities clipboard) (scene s))
    as [Hcut Hcopy].
  unfold idCounterOf, attrsOf, childrenOf. simpl.
  split; [reflexivity|]. split; [reflexivity|]. split; [reflexivity|].
  split; [reflexivity|]. split; [reflexivity|].
  split; [exact Hc|]. split; [exact Ha|].
  split; [exact Hcut | exact Hcopy].
Qed.

Lemma paste_succeeds (position : Vector2d.t) (s : KonvaSelection.t)
    (clipboard : ContextTool.Clipboard.t) :
  (isGroup s = true -> bounding s <> None) ->
  exists s', ContextTool.paste position s clipboard = Some (s', clipboard).
Proof.
  intros Hb. unfold ContextTool.paste.
  destruct (Nat.eqb _ 0); [eexists; reflexivity|].
  destruct (isGroup s); [|eexists; reflexivity].
  unfold getBounding. destruct (bounding s); [eexists; reflexivity|].
  exfalso. exact (Hb eq_refl eq_refl).
Qed.

(** X23.  [Cut] and then [Paste] put the nodes back, all at the same
    place.  Pasting after a cut does not fail; every node that was
    selected is visible again and lies at the position of the paste,
    whatever its position was, with its other attributes as before the
    cut; no node is added to the layer, nothing is selected, and the
    other nodes are untouched. *)
Theorem cut_then_paste (position : Vector2d.t) (s : KonvaSelection.t)
    (clipboard : ContextTool.Clipboard.t) :
  let s1 := fst (ContextTool.cut s clipboard) in
  let clipboard1 := snd (ContextTool.cut s clipboard) in
  exists s2,
    ContextTool.paste position s1 clipboard1 = Some (s2, clipboard1) /\
    nodes s2 = [] /\
    childrenOf s2 = childrenOf s1 /\
    idCounterOf s2 = idCounterOf s /\
    (forall n, In n (toArray s) ->
       attrsOf s2 n
       = Attrs.setPosition position (Attrs.setVisible true (attrsOf s n))) /\
    (forall k, ~ In k (toArray s) -> attrsOf s2 k = attrsOf s k).
Proof.
  intros s1 clipboard1.
  destruct (cut_effect s clipboard)
    as [Hcb [Hn [Ht [Hsc [Hb [Hc [Ha Hch]]]]]]].
  fold s1 in Hn, Ht, Hsc, Hb, Hc, Ha, Hch. fold clipboard1 in Hcb.
  destruct (paste_succeeds position s1 clipboard1) as [s2 E].
  { unfold isGroup. rewrite Hn. discriminate. }
  exists s2. split; [exact E|].
  destruct (paste_effect position s1 s2 clipboard1 clipboard1 E)
    as [_ [Hn2 [_ [_ [_ [Hc2 [Ha2 [Hch2 _]]]]]]]].
  split; [rewrite Hn2; exact Hn|].
  split; [apply Hch2; rewrite Hcb; discriminate|].
  split; [rewrite Hc2; exact Hc|].
  rewrite Hcb in Ha2. simpl in Ha2.
  split.
  - intros n Hin. rewrite Ha2, Ha.
    rewrite (proj2 (existsb_eqb_In n (toArray s)) Hin).
    destruct (attrsOf s n); reflexivity.
  - intros k Hk. rewrite Ha2, Ha.
    rewrite (proj2 (existsb_eqb_false k (toArray s)) Hk). reflexivity.
Qed.

Lemma cut_then_paste_witness :
  let s := After.add 3%Z (After.add 1%Z (constructor demoScene Undefined)) in
  let clipboard := ContextTool.Clipboard.mk [] None in
  let s1 := fst (ContextTool.cut s clipboard) in
  let clipboard1 := snd (ContextTool.cut s clipboard) in
  exists s2,
    ContextTool.paste (Vector2d.mk 20 30) s1 clipboard1
    = Some (s2, clipboard1) /\
    In 3%Z (toArray s) /\
    attrsOf s2 3%Z
    = Attrs.setPosition (Vector2d.mk 20 30)
        (Attrs.setVisible true (attrsOf s 3%Z)).
Proof.
  intros s clipboard s1 clipboard1.
  destruct (cut_then_paste (Vector2d.mk 20 30) s clipboard)
    as [s2 [E [_ [_ [_ [Ha _]]]]]].
  exists s2. split; [exact E|].
  assert (In 3%Z (toArray s)) as Hin by (right; left; reflexivity).
  split; [exact Hin | exact (Ha 3%Z Hin)].
Defined.

(** X24.  [Copy] and then [Paste] add the copies to the layer.  When the
    selected nodes and the children of the layer are nodes of the
    scene, and the bounding group exists if two or more nodes are
    selected, pasting after a copy does not fail; the children of the
    layer are the former children followed by one new node for each
    selected node, in the order of the selection; each new node is
    visible, lies at the position of the paste and has the other
    attributes of the node it copies; the originals and the selection
    are untouched and no notification is emitted. *)
Theorem copy_then_paste (position : Vector2d.t) (s : KonvaSelection.t)
    (clipboard : ContextTool.Clipboard.t) :
  (forall n, In n (toArray s) -> (n < idCounterOf s)%Z) ->
  (forall k, In k (childrenOf s) -> (k < idCounterOf s)%Z) ->
  (isGroup s = true -> bounding s <> None) ->
  let s1 := fst (ContextTool.copy s clipboard) in
  let clipboard1 := snd (ContextTool.copy s clipboard) in
  exists s2,
    ContextTool.paste position s1 clipboard1 = Some (s2, clipboard1) /\
    ContextTool.Clipboard.type clipboard1 = Some ContextTool.Copy /\
    childrenOf s2
    = childrenOf s ++ ContextTool.Clipboard.entities clipboard1 /\
    Forall2
      (fun node c =>
         (idCounterOf s <= c)%Z /\
         attrsOf s2 c
         = Attrs.setPosition position
             (Attrs.setVisible true (attrsOf s node)))
      (toArray s) (ContextTool.Clipboard.entities clipboard1) /\
    (forall k, (k < idCounterOf s)%Z -> attrsOf s2 k = attrsOf s k) /\
    nodes s2 = nodes s /\
    selectionChange s2 = selectionChange s.
Proof.
  intros Hl Hch Hb s1 clipboard1.
  destruct (clone_effect s Hl Hch)
    as [Hall [Hnd [Hdet [Hta [Hchs [Htr [Hsc Hold]]]]]]].
  assert (s1 = snd (clone s)) as Es1
      by (unfold s1, ContextTool.copy; destruct (clone s); reflexivity).
  assert (clipboard1
          = ContextTool.Clipboard.mk (fst (clone s))
              (Some ContextTool.Copy)) as Ecb
      by (unfold clipboard1, ContextTool.copy; destruct (clone s);
          reflexivity).
  rewrite <- Es1 in Hall, Hdet, Hta, Hchs, Htr, Hsc, Hold.
  assert (nodes s1 = nodes s /\ bounding s1 = bounding s) as [Hn1 Hb1]
      by (rewrite Es1; unfold clone;
          destruct (fold_left pushClone _ _); split; reflexivity).
  destruct (paste_succeeds position s1 clipboard1) as [s2 E].
  { unfold isGroup in *. rewrite Hn1, Hb1. exact Hb. }
  exists s2. split; [exact E|].
  destruct (paste_effect position s1 s2 clipboard1 clipboard1 E)
    as [_ [Hn2 [Hsc2 [_ [_ [Hc2 [Ha2 [_ Hcopy]]]]]]]].
  rewrite Ecb in *. simpl in *.
  destruct (Hcopy eq_refl) as [_ Hexact].
  split; [reflexivity|].
  split; [rewrite <- Hchs; apply Hexact; [exact Hnd | exact Hdet]|].
  assert (Forall (fun c => (idCounterOf s <= c)%Z) (fst (clone s))) as Hge.
  { refine (Forall2_right _ _ _ _ _ Hall). intros ? ? [Hr _]. lia. }
  rewrite Forall_forall in Hge.
  split.
  - refine (Forall2_weaken_In _ _ _ _ _
              (Forall2_flip (Forall2_weaken_In _ _ _ _ _
                 (Forall2_flip Hall)))).
    + intros node c Hnode H. exact H.
    + intros c node Hc [Hr Hattr]. split; [lia|].
      rewrite Ha2. rewrite (proj2 (existsb_eqb_In c (fst (clone s))) Hc).
      rewrite Hattr. reflexivity.
  - split.
    + intros k Hk. rewrite Ha2.
      assert (~ In k (fst (clone s))) as Hnot
          by (intros Hin; specialize (Hge k Hin); lia).
      rewrite (proj2 (existsb_eqb_false k (fst (clone s))) Hnot).
      apply Hold. exact Hk.
    + split; [rewrite Hn2; exact Hn1 | rewrite Hsc2; exact Hsc].
Qed.

Lemma copy_then_paste_witness :
  let s := After.add 3%Z (After.add 1%Z (constructor demoScene Undefined)) in
  let clipboard := ContextTool.Clipboard.mk [] None in
  let s1 := fst (ContextTool.copy s clipboard) in
  let clipboard1 := snd (ContextTool.copy s clipboard) in
  (isGroup s = true -> bounding s <> None) /\
  exists s2,
    ContextTool.paste (Vector2d.mk 20 30) s1 clipboard1
    = Some (s2, clipboard1) /\
    childrenOf s2
    = childrenOf s ++ ContextTool.Clipboard.entities clipboard1 /\
    nodes s2 = nodes s.
Proof.
  intros s clipboard s1 clipboard1.
  assert (forall n, In n (toArray s) -> (n < idCounterOf s)%Z) as Hl.
  { intros n [H | [H | []]]; subst n; reflexivity. }
  assert (forall k, In k (childrenOf s) -> (k < idCounterOf s)%Z) as Hch.
  { intros k Hk. simpl in Hk.
    repeat (destruct Hk as [Hk | Hk]; [subst k; reflexivity|]).
    destruct Hk. }
  assert (isGroup s = true -> bounding s <> None) as Hb
      by (intros _; discriminate).
  split; [exact Hb|].
  destruct (copy_then_paste (Vector2d.mk 20 30) s clipboard Hl Hch Hb)
    as [s2 [E [_ [Hc [_ [_ [Hn _]]]]]]].
  exists s2. split; [exact E|]. split; [exact Hc | exact Hn].
Defined.

(** X25.  A second [Paste] makes no second copy.  When a paste has
    succeeded, pasting the same clipboard again succeeds too; it creates
    no node, the layer has the same children as after the first paste,
    in the same order, and the nodes of the clipboard are where the
    second paste puts them:
    the result has the attributes that a single paste at the second
    position gives. *)
Theorem paste_twice (p1 p2 : Vector2d.t) (s s1 : KonvaSelection.t)
    (clipboard : ContextTool.Clipboard.t) :
  ContextTool.paste p1 s clipboard = Some (s1, clipboard) ->
  exists s2,
    ContextTool.paste p2 s1 clipboard = Some (s2, clipboard) /\
    idCounterOf s2 = idCounterOf s /\
    childrenOf s2 = childrenOf s1 /\
    (forall e, In e (ContextTool.Clipboard.entities clipboard) ->
       attrsOf s2 e
       = Attrs.setPosition p2 (Attrs.setVisible true (attrsOf s e))) /\
    (forall k, ~ In k (ContextTool.Clipboard.entities clipboard) ->
       attrsOf s2 k = attrsOf s k).
Proof.
  intros E1.
  destruct (paste_effect p1 s s1 clipboard clipboard E1)
    as [_ [Hn1 [_ [_ [Hb1 [Hc1 [Ha1 [Hcut1 Hcopy1]]]]]]]].
  assert (exists s2, ContextTool.paste p2 s1 clipboard
                     = Some (s2, clipboard)) as [s2 E2].
  { unfold ContextTool.paste in *.
    destruct (ContextTool.Clipboard.entities clipboard) as [|e l];
      [eexists; reflexivity|].
    cbn [List.length Nat.eqb] in *. unfold isGroup, getBounding in *.
    rewrite Hn1, Hb1.
    destruct (1 <? JsMap.size (nodes s))%nat; [|eexists; reflexivity].
    destruct (bounding s); [eexists; reflexivity | discriminate]. }
  exists s2. split; [exact E2|].
  destruct (paste_effect p2 s1 s2 clipboard clipboard E2)
    as [_ [_ [_ [_ [_ [Hc2 [Ha2 [Hcut2 Hcopy2]]]]]]]].
  split; [rewrite Hc2; exact Hc1|].
  split.
  - destruct (ContextTool.Clipboard.type clipboard) as [[| |]|] eqn:Ety;
      try (apply Hcut2; discriminate).
    apply (proj2 (proj2 (Hcopy2 eq_refl))).
    intros e He. apply (proj1 (Hcopy1 eq_refl) e). right. exact He.
  - split.
    + intros e He. rewrite Ha2, Ha1.
      rewrite (proj2 (existsb_eqb_In e _) He).
      destruct (attrsOf s e); reflexivity.
    + intros k Hk. rewrite Ha2, Ha1.
      rewrite (proj2 (existsb_eqb_false k _) Hk). reflexivity.
Qed.

Lemma paste_twice_witness :
  let s := constructor demoScene Undefined in
  let clipboard := ContextTool.Clipboard.mk [2%Z] (Some ContextTool.Copy) in
  exists s1 s2,
    ContextTool.paste (Vector2d.mk 20 30) s clipboard
    = Some (s1, clipboard) /\
    ContextTool.paste (Vector2d.mk 40 50) s1 clipboard
    = Some (s2, clipboard) /\
    idCounterOf s2 = idCounterOf s /\
    childrenOf s2 = childrenOf s1.
Proof.
  intros s clipboard.
  eexists.
  assert (ContextTool.paste (Vector2d.mk 20 30) s clipboard
          = Some (fold_left
                    (ContextTool.pasteEntity (Vector2d.mk 20 30)
                       (Some ContextTool.Copy)) [2%Z] s, clipboard)) as E1
      by reflexivity.
  destruct (paste_twice (Vector2d.mk 20 30) (Vector2d.mk 40 50) s _
              clipboard E1) as [s2 [E2 [Hc [Hch _]]]].
  exists s2. split; [exact E1|]. split; [exact E2|].
  split; [exact Hc | exact Hch].
Defined.

Lemma shown_group (s : KonvaSelection.t) :
  shown s -> isGroup s = true -> bounding s <> None.
Proof.
  unfold shown, toArray, isGroup, JsMap.size, JsMap.values.
  intros Hs Hg.
  destruct (nodes s) as [|[k1 n1] [|[k2 n2] m]]; simpl in Hs, Hg;
    try discriminate.
  destruct Hs as [tr [b [_ [Hb _]]]]. rewrite Hb. discriminate.
Qed.

(** X26.  [Paste] does not fail after a controller made without an
    array of nodes has handled any events and calls, whether their
    handlers have returned or raised: when two or more nodes are
    selected the bounding group that the handler reads exists, and the
    read of [bounding.children] is the one place where the handler can
    fail. *)
Theorem paste_after_events
    (getClientRect : ClientRectConfig.t -> NodeRef -> Attrs.t -> IRect.t)
    (events : list Event) (sc : Scene.t)
    (position : Vector2d.t) (clipboard : ContextTool.Clipboard.t) :
  let s := handleAll getClientRect events (constructor sc Undefined) in
  (isGroup s = true -> bounding s <> None) /\
  exists s', ContextTool.paste position s clipboard = Some (s', clipboard).
Proof.
  intros s.
  assert (shown s) as Hs.
  { apply handleAll_keeps_shown. apply shown_empty; reflexivity. }
  split; [exact (shown_group s Hs)|].
  apply paste_succeeds. exact (shown_group s Hs).
Qed.

Lemma set_size (k : Z) (v : NodeRef) (m : JsMap.t NodeRef) :
  (JsMap.size m <= JsMap.size (JsMap.set k v m))%nat.
Proof.
  unfold JsMap.set, JsMap.size. destruct (JsMap.has k m).
  - rewrite length_map. lia.
  - rewrite length_app. simpl. lia.
Qed.

Lemma constructor_fold_size (l : list NodeRef) (s : KonvaSelection.t) :
  (JsMap.size (nodes s)
   <= JsMap.size
        (nodes
           (fold_left
              (fun this node =>
                 with_nodes (JsMap.set (_id node) node (nodes this)) this)
              l s)))%nat.
Proof.
  revert s. induction l as [|n l IH]; intros s; simpl; [lia|].
  etransitivity; [|apply IH]. simpl. apply set_size.
Qed.

Lemma pushClone_fold_length (l out : list NodeRef) (sc : Scene.t) :
  List.length (fst (fold_left pushClone l (out, sc)))
  = (List.length out + List.length l)%nat.
Proof.
  revert out sc. induction l as [|n l IH]; intros out sc; simpl; [lia|].
  destruct (pushClone_step out sc n) as [Ho _].
  destruct (pushClone (out, sc) n) as [out1 sc1].
  simpl in Ho. subst out1. rewrite IH, length_app. simpl. lia.
Qed.

(** X27.  [Paste] fails on a selection that only the constructor has
    made.  After [new KonvaSelection(layer, nodes)] with two or more
    distinct nodes there is no bounding group although [isGroup()] is
    true, so [Copy] followed by [Paste] ends in the [TypeError] of
    [bounding.children]. *)
Theorem paste_fails_on_constructed_group (sc : Scene.t) (a b : NodeRef)
    (rest : list NodeRef) (position : Vector2d.t)
    (clipboard : ContextTool.Clipboard.t) :
  a <> b ->
  let s := constructor sc (ArrayOf (a :: b :: rest)) in
  isGroup s = true /\
  getBounding s = None /\
  ContextTool.paste position
    (fst (ContextTool.copy s clipboard)) (snd (ContextTool.copy s clipboard))
  = None.
Proof.
  intros Hab s.
  assert (2 <= JsMap.size (nodes s))%nat as Hsize.
  { unfold s, constructor. cbn [fold_left].
    etransitivity; [|apply constructor_fold_size].
    simpl. unfold JsMap.set. simpl. unfold _id.
    destruct (Z.eqb_spec a b); [contradiction|]. simpl. lia. }
  assert (isGroup s = true) as Hg
      by (unfold isGroup; apply Nat.ltb_lt; lia).
  assert (bounding s = None) as Hb by apply constructor_fields.
  split; [exact Hg|]. split; [exact Hb|].
  unfold ContextTool.copy, clone.
  pose proof (pushClone_fold_length (JsMap.values (nodes s)) [] (scene s))
    as Hlen.
  destruct (fold_left pushClone (JsMap.values (nodes s)) ([], scene s))
    as [out sc'].
  simpl in Hlen. simpl. unfold ContextTool.paste. simpl.
  assert (List.length out = JsMap.size (nodes s)) as Hout
      by (rewrite Hlen; unfold JsMap.values, JsMap.size; apply length_map).
  destruct out as [|c out]; [simpl in Hout; lia|].
  cbn [List.length Nat.eqb].
  change (isGroup (with_scene sc' s)) with (isGroup s).
  change (getBounding (with_scene sc' s)) with (bounding s).
  rewrite Hg, Hb. reflexivity.
Qed.

Lemma paste_fails_on_constructed_group_witness :
  let s := constructor demoScene (ArrayOf [1; 2; 3]%Z) in
  let clipboard := ContextTool.Clipboard.mk [] None in
  isGroup s = true /\
  ContextTool.paste (Vector2d.mk 20 30)
    (fst (ContextTool.copy s clipboard)) (snd (ContextTool.copy s clipboard))
  = None.
Proof.
  intros s clipboard.
  assert (1%Z <> 2%Z) as Hab by discriminate.
  destruct (paste_fails_on_constructed_group demoScene 1%Z 2%Z [3%Z]
              (Vector2d.mk 20 30) clipboard Hab) as [Hg [_ E]].
  split; [exact Hg | exact E].
Defined.

(** ** Proxies and their nodes *)

Lemma get_in (k : Z) (v : NodeRef) (m : JsMap.t NodeRef) :
  NoDup (JsMap.keys m) -> In (k, v) m -> JsMap.get k m = Some v.
Proof.
  induction m as [|[k' v'] m IH]; intros Hnd Hin; [destruct Hin|].
  simpl in Hnd. inversion Hnd as [|? ? Hnotin Hnd']; subst.
  destruct Hin as [E | Hin].
  - injection E as -> ->. simpl. rewrite Z.eqb_refl. reflexivity.
  - simpl. destruct (Z.eqb_spec k' k) as [->|Hne].
    + exfalso. apply Hnotin. unfold JsMap.keys.
      change k with (fst (k, v)). apply in_map. exact Hin.
    + apply IH; assumption.
Qed.

Lemma get_values (s : KonvaSelection.t) (node : NodeRef) :
  nodes_ok s -> In node (toArray s) ->
  JsMap.get (_id node) (nodes s) = Some node.
Proof.
  intros [Hnd Hkv] Hin. unfold toArray, JsMap.values in Hin.
  apply in_map_iff in Hin. destruct Hin as [[k v] [Ev Hin]].
  simpl in Ev. subst v. destruct (Hkv k node Hin) as [Hk _].
  rewrite <- Hk. apply get_in; assumption.
Qed.

(** X28.  Every proxy leads back to its node.  When the selection is a
    proper map, the [originalIndex] that [createBounding] writes on a
    proxy is a key of the selection, and the node stored under it is the
    node that the proxy was cloned from: the lookup of the [transform]
    handler finds a node for every child of the bounding group. *)
Theorem proxies_find_their_nodes (s : KonvaSelection.t) :
  nodes_ok s ->
  let s' := snd (createBounding s) in
  exists b,
    bounding s' = Some b /\
    Forall2
      (fun node c =>
         exists i,
           Attrs.originalIndex (attrsOf s' c) = Some i /\
           JsMap.get i (nodes s') = Some node)
      (toArray s) (Group.children b) /\
    (forall c, In c (Group.children b) ->
       exists i node,
         Attrs.originalIndex (attrsOf s' c) = Some i /\
         JsMap.get i (nodes s') = Some node).
Proof.
  intros Hok s'.
  assert (forall n, In n (toArray s) -> (n < idCounterOf s)%Z) as Hl
      by (apply nodes_ok_values; exact Hok).
  destruct (createBounding_effect s Hl)
    as [clones [Hb [_ [_ [_ [_ [Hall [_ [Hn _]]]]]]]]].
  fold s' in Hb, Hall, Hn.
  exists (Group.mk (fst (createBounding s)) clones).
  split; [exact Hb|].
  assert (Forall2
            (fun node c =>
               exists i,
                 Attrs.originalIndex (attrsOf s' c) = Some i /\
                 JsMap.get i (nodes s') = Some node)
            (toArray s) clones) as Hfind.
  { refine (Forall2_weaken_In _ _ _ _ _ Hall).
    intros node c Hnode [_ Hattr]. exists (_id node).
    split; [rewrite Hattr; reflexivity|].
    rewrite Hn. apply get_values; assumption. }
  split; [exact Hfind|].
  simpl. intros c Hc. clear -Hfind Hc.
  induction Hfind as [|node c' l l' [i Hi] Hrest IH]; [destruct Hc|].
  destruct Hc as [<- | Hc].
  - exists i, node. exact Hi.
  - apply IH. exact Hc.
Qed.

Lemma proxies_find_their_nodes_witness :
  let s := constructor demoScene (ArrayOf [1; 2; 3]%Z) in
  nodes_ok s /\
  exists b, bounding (snd (createBounding s)) = Some b.
Proof.
  intros s.
  assert (nodes_ok s) as Hok by apply demo_nodes_ok.
  split; [exact Hok|].
  destruct (proxies_find_their_nodes s Hok) as [b [Hb _]].
  exists b. exact Hb.
Defined.

(** ** Notifications during a marquee *)

Lemma perform_notifies (op : Operation) (s : KonvaSelection.t) :
  (List.length (selectionChange s)
   <= List.length (selectionChange (After.perform op s)))%nat.
Proof.
  rewrite perform_after. destruct op as [n|n|].
  - destruct (JsMap.has (_id n) (nodes s)) eqn:Hh.
    + rewrite (add_present n s Hh). lia.
    + destruct (add_absent_selection n s Hh) as [_ [Hc _]].
      rewrite Hc, length_app. lia.
  - destruct (remove_selection n s) as [_ [Hc _]].
    rewrite Hc, length_app. lia.
  - destruct (clear_fields s) as [_ [_ [Hc _]]]. rewrite Hc. lia.
Qed.

Lemma collisionCheck_has
    (getClientRect : ClientRectConfig.t -> NodeRef -> Attrs.t -> IRect.t)
    (rect : IRect.t) (l : list NodeRef) (s : KonvaSelection.t) (k : Z) :
  ~ In k l ->
  JsMap.has k (nodes (fold_left (After.collisionCheck getClientRect rect) l s))
  = JsMap.has k (nodes s).
Proof.
  revert s. induction l as [|n l IH]; intros s Hk; simpl; [reflexivity|].
  rewrite IH by (intros H; apply Hk; right; exact H).
  assert (Z.eqb k n = false) as Hne.
  { apply Z.eqb_neq. intros ->. apply Hk. left. reflexivity. }
  rewrite collisionCheck_after; cbv zeta. destruct (_ && _).
  - rewrite has_add. unfold _id. rewrite Hne. apply orb_false_r.
  - rewrite has_remove. unfold _id. rewrite Hne. apply andb_true_r.
Qed.

Lemma collisionCheck_notifies
    (getClientRect : ClientRectConfig.t -> NodeRef -> Attrs.t -> IRect.t)
    (rect : IRect.t) (l : list NodeRef) (s : KonvaSelection.t) :
  NoDup l ->
  let s' := fold_left (After.collisionCheck getClientRect rect) l s in
  (List.length (selectionChange s)
   + List.length (filter (fun n => negb (JsMap.has (_id n) (nodes s'))) l)
   <= List.length (selectionChange s'))%nat.
Proof.
  revert s. induction l as [|n l IH]; intros s Hnd; simpl; [lia|].
  inversion Hnd as [|? ? Hnotin Hnd']; subst.
  specialize (IH (After.collisionCheck getClientRect rect s n) Hnd').
  cbv zeta in IH.
  rewrite (collisionCheck_has getClientRect rect l _ (_id n) Hnotin).
  set (s' := fold_left (After.collisionCheck getClientRect rect) l
               (After.collisionCheck getClientRect rect s n)) in *.
  assert (List.length (selectionChange s)
          + (if negb (JsMap.has (_id n)
                        (nodes (After.collisionCheck getClientRect rect s n)))
             then 1 else 0)
          <= List.length
               (selectionChange (After.collisionCheck getClientRect rect s n)))%nat
    as Hstep.
  { rewrite collisionCheck_after; cbv zeta. destruct (_ && _).
    - rewrite has_add, Z.eqb_refl, orb_true_r. simpl.
      pose proof (perform_notifies (Add n) s) as H.
      rewrite perform_after in H. lia.
    - destruct (remove_selection n s) as [_ [Hc _]].
      rewrite Hc, length_app. simpl.
      destruct (negb _); lia. }
  destruct (negb (JsMap.has (_id n)
                    (nodes (After.collisionCheck getClientRect rect s n))));
    simpl; lia.
Qed.

(** X29.  A pointer move of a marquee notifies the subscribers, also
    when the selection does not change.  While a marquee is in progress
    and the children of the layer are distinct, a [mousemove] whose
    handler returns has emitted at least one notification for every
    child of the layer, other than the select box, that is not selected
    afterwards. *)
Theorem marquee_update_notifies
    (getClientRect : ClientRectConfig.t -> NodeRef -> Attrs.t -> IRect.t)
    (p : Vector2d.t) (s s' : KonvaSelection.t) :
  NoDup (childrenOf s) ->
  SelectAttrs.select (selectAttrs s) = true ->
  mousemove getClientRect p s = Returned s' ->
  (List.length (selectionChange s)
   + List.length
       (filter (fun n => negb (JsMap.has (_id n) (nodes s')))
          (filter (fun n => negb (isSelectBoxId s n)) (childrenOf s)))
   <= List.length (selectionChange s'))%nat.
Proof.
  intros Hnd Hsel E. unfold mousemove in E. rewrite Hsel in E.
  pose proof (updateDrag_state getClientRect p s) as H. cbv zeta in H.
  destruct (SelectAttrs.posStart (selectAttrs s)) as [p0|];
    [destruct (selectBox s) as [box|]|];
    try (rewrite H in E; discriminate).
  destruct H as [l1 [l2 [El [Hst [Hret _]]]]].
  rewrite (Hret s' E), app_nil_r in El.
  rewrite E in Hst. cbn [stateOf] in Hst. subst s'. rewrite <- El.
  match goal with
  | |- context [fold_left (After.collisionCheck _ ?r) ?l ?x] =>
      set (rect := r); set (l0 := l); set (s1 := x)
  end.
  assert (l0 = filter (fun n => negb (isSelectBoxId s n)) (childrenOf s))
    as El0.
  { unfold l0, childrenOf. simpl. apply filter_ext. intros k.
    unfold isSelectBoxId, attrsOf, upd.
    destruct (Z.eqb k box) eqn:Ek.
    - apply Z.eqb_eq in Ek. subst k. simpl.
      destruct (Attrs.id (Scene.attrs (scene s) box)); reflexivity.
    - destruct (Attrs.id (Scene.attrs (scene s) k)); reflexivity. }
  rewrite <- El0.
  assert (NoDup l0) as Hnd1 by (rewrite El0; apply NoDup_filter; exact Hnd).
  exact (collisionCheck_notifies getClientRect rect l0 s1 Hnd1).
Qed.

Lemma marquee_update_notifies_witness :
  let s :=
    stateOf
      (mousedown OnStage false (Vector2d.mk 10 10)
         (constructor demoScene Undefined)) in
  NoDup (childrenOf s) /\
  SelectAttrs.select (selectAttrs s) = true /\
  exists s',
    mousemove pageClientRect (Vector2d.mk 20 20) s = Returned s' /\
    (List.length (selectionChange s) + 3
     <= List.length (selectionChange s'))%nat.
Proof.
  intros s.
  assert (NoDup (childrenOf s)) as Hnd.
  { simpl. repeat constructor; simpl; intuition discriminate. }
  assert (SelectAttrs.select (selectAttrs s) = true) as Hsel by reflexivity.
  split; [exact Hnd|]. split; [exact Hsel|].
  assert (reverse (Vector2d.mk 10 10) (Vector2d.mk 20 20)
          = DragRect.mk 10 10 20 20) as Hrev by reverse_value.
  eassert (mousemove pageClientRect (Vector2d.mk 20 20) s = Returned _)
    as E.
  { enter_loop (Vector2d.mk 10 10) 4%Z.
    rewrite Hrev. cbn [DragRect.x1 DragRect.x2 DragRect.y1 DragRect.y2].
    match goal with
    | |- collisionLoop _ _ ?l _ = _ => change l with [1; 2; 3]%Z
    end.
    loop_miss. loop_miss. loop_miss. reflexivity. }
  eexists. split; [exact E|].
  exact (marquee_update_notifies pageClientRect (Vector2d.mk 20 20) s _
           Hnd Hsel E).
Defined.
